(** * Verification of the Nexudus synchronisation core

    Shallow embedding of [src/invoicer/nexudus.py]: the paginated fetch
    ([get_records]), the record processors ([process_onebyone],
    [process_batch]), the fetches of one record ([get_first],
    [get_single]), the marking of an invoice as paid ([create_record],
    [mark_invoice_paid]), the two reconcilers ([add_or_overwrite_member],
    [add_or_overwrite_invoice]) and the orchestrator ([sync_table],
    [sync_member_table], [sync_invoice_table]).  [get_invoice_list], which
    prints two fields of every unpaid invoice, is not embedded: the world
    below has no standard output.

    Python code is embedded in a state-and-exception monad over a [World]
    that holds the SQLAlchemy session (the rows the session sees), the
    committed database (the rows as of the last [commit]), the logging
    calls, the HTTP requests issued and the clock.

    - A query sees the pending changes of its session (SQLAlchemy flushes
      before it queries); [commit] makes the rows of the session the
      committed ones; a session made by [sm()] starts from the committed
      rows.  A run never rolls back, so what an exception leaves behind in
      the session is committed by the next [commit] of the same run, and
      is lost if there is none.
    - An ORM object held by the session is a reference to its row:
      assigning an attribute changes the row in place.
    - The remote API is a function from requests to answers, so a feed is
      unchanged between two runs when the function is the same.
    - [get_records] is a generator; its frame is a record and [next] a step
      on it.  The number of pages is up to the remote, so loops over the
      generator carry a bound on their iterations.
    - [mark_invoice_paid] runs in that world extended with the POST
      requests issued; the numbers its random code is drawn from are an
      argument. *)

From Stdlib Require Import ZArith String Ascii List Lia Bool.
From stdpp Require Import base strings gmap list pretty.

Local Open Scope string_scope.
Local Open Scope Z_scope.
Local Open Scope list_scope.

(** ** Python values

    Values found in a decoded JSON record and in ORM attributes: [None],
    booleans, integers and strings.  Strings are sequences of code points
    below 256.  Non-integer JSON numbers are not represented; the one place
    that needs them, [float(record["TotalAmount"])], goes through the
    parameter [pyfloat] below. *)

Inductive Value : Type :=
  | VNone
  | VBool (b : bool)
  | VInt (z : Z)
  | VStr (s : string).

#[global] Instance Value_eq_dec : EqDecision Value.
Proof. solve_decision. Defined.

(** Python truth value of an object. *)
Definition truthy (v : Value) : bool :=
  match v with
  | VNone => false
  | VBool b => b
  | VInt z => negb (z =? 0)
  | VStr EmptyString => false
  | VStr (String _ _) => true
  end.

(** [str(v)]. *)
Definition py_str (v : Value) : string :=
  match v with
  | VNone => "None"
  | VBool true => "True"
  | VBool false => "False"
  | VInt z => pretty z
  | VStr s => s
  end.

(** [c.isspace()] for a code point below 256: TAB..CR, FS..US, SPACE, NEL
    and NBSP. *)
Definition isspace (c : ascii) : bool :=
  let n := nat_of_ascii c in
  ((9 <=? n)%nat && (n <=? 13)%nat)
  || ((28 <=? n)%nat && (n <=? 32)%nat)
  || (n =? 133)%nat || (n =? 160)%nat.

Fixpoint lstrip (s : string) : string :=
  match s with
  | EmptyString => EmptyString
  | String c s' => if isspace c then lstrip s' else s
  end.

Fixpoint rstrip (s : string) : string :=
  match s with
  | EmptyString => EmptyString
  | String c s' =>
      match rstrip s' with
      | EmptyString => if isspace c then EmptyString else String c EmptyString
      | t => String c t
      end
  end.

(** [s.strip()]. *)
Definition strip (s : string) : string := lstrip (rstrip s).

(** ** Exceptions *)

Inductive Exn : Type :=
  | KeyError (key : string)
  | MultipleResultsFoundException      (* class defined in nexudus.py *)
  | MultipleResultsFound               (* sqlalchemy.orm.exc *)
  | AttributeError
  | TypeError
  | ValueError
  | OtherError (name : string).        (* transport and decoding failures *)

#[global] Instance Exn_eq_dec : EqDecision Exn.
Proof. solve_decision. Defined.

(** [str(e)]: a [KeyError] prints the [repr] of its key.  The keys raised in
    this module are the literals of the source, which contain no quote or
    escape, so the [repr] is the key between single quotes. *)
Definition str_exn (e : Exn) : string :=
  match e with
  | KeyError k => "'" +:+ k +:+ "'"
  | OtherError n => n
  | _ => ""
  end.

Inductive Res (A : Type) : Type :=
  | Ok (a : A)
  | Raise (e : Exn).
Arguments Ok {A} a.
Arguments Raise {A} e.

Definition is_KeyError (e : Exn) : bool :=
  match e with KeyError _ => true | _ => false end.

Definition is_MultipleResultsFound (e : Exn) : bool :=
  match e with MultipleResultsFound => true | _ => false end.

(** ** Data model ([db.models], reached through the ORM)

    Modelled from the spec: [db/models.py] is not part of the sources; the
    attributes are the ones the reconcilers assign and the spec's data model
    lists.  Attributes are dynamically typed, a freshly constructed object
    has every attribute [None], and no column constraint is enforced. *)

Module Member.
Record t : Type := mk {
  nexudus_user_id : Value;
  fullname : Value;
  billing_name : Value;
  email : Value;
  routing_number : Value;
  account_number : Value;
  process_automatically : Value
}.

(** [models.Member()] *)
Definition new : t := mk VNone VNone VNone VNone VNone VNone VNone.

Definition set_nexudus_user_id (v : Value) (m : t) : t :=
  mk v (fullname m) (billing_name m) (email m) (routing_number m)
     (account_number m) (process_automatically m).
Definition set_fullname (v : Value) (m : t) : t :=
  mk (nexudus_user_id m) v (billing_name m) (email m) (routing_number m)
     (account_number m) (process_automatically m).
Definition set_billing_name (v : Value) (m : t) : t :=
  mk (nexudus_user_id m) (fullname m) v (email m) (routing_number m)
     (account_number m) (process_automatically m).
Definition set_email (v : Value) (m : t) : t :=
  mk (nexudus_user_id m) (fullname m) (billing_name m) v (routing_number m)
     (account_number m) (process_automatically m).
Definition set_routing_number (v : Value) (m : t) : t :=
  mk (nexudus_user_id m) (fullname m) (billing_name m) (email m) v
     (account_number m) (process_automatically m).
Definition set_account_number (v : Value) (m : t) : t :=
  mk (nexudus_user_id m) (fullname m) (billing_name m) (email m)
     (routing_number m) v (process_automatically m).
Definition set_process_automatically (v : Value) (m : t) : t :=
  mk (nexudus_user_id m) (fullname m) (billing_name m) (email m)
     (routing_number m) (account_number m) v.
End Member.

Module Invoice.
Record t (Amount : Type) : Type := mk {
  nexudus_invoice_id : Value;
  nexudus_user_id : Value;
  nexudus_space_id : Value;
  time_created : Z;
  amount : Amount;
  finalized : Value;
  txn_id : Value;
  txn_status : Value;
  txn_statuscode : Value
}.
Arguments mk {Amount}.
Arguments nexudus_invoice_id {Amount}.
Arguments nexudus_user_id {Amount}.
Arguments nexudus_space_id {Amount}.
Arguments time_created {Amount}.
Arguments amount {Amount}.
Arguments finalized {Amount}.
Arguments txn_id {Amount}.
Arguments txn_status {Amount}.
Arguments txn_statuscode {Amount}.
End Invoice.

(** A remote record: a JSON object with scalar values. *)
Abbreviation Rec := (gmap string Value).

(** The decoded body of one page ([r.json()]); [None] is an absent key. *)
Record Response : Type := {
  TotalItems : option Value;
  HasNextPage : option Value;
  Records : option (list Rec)
}.

Record Request : Type := {
  req_url : string;
  req_params : gmap string Value;
  req_auth : string * string
}.

(** The remote API as seen by one run: what a GET answers. *)
Definition Remote : Type := Request -> Exn + Response.

(** A POST: [requests.post(url, data=params, auth=creds)]. *)
Record PostRequest : Type := {
  post_url : string;
  post_data : gmap string Value;
  post_auth : string * string
}.

(** What a POST answers: the decoded body, a JSON object with scalar
    values. *)
Definition Ledger : Type := PostRequest -> Exn + Rec.

Record LogRecord : Type := {
  logger : string;
  level : string;
  message : string
}.

(** [config]: the constants this module reads.  The module itself is not
    part of the sources, so they are parameters. *)
Record Config : Type := {
  NEXUDUS_API_URL : string;
  NEXUDUS_EMAIL : string;
  NEXUDUS_PASS : string;
  PROCESS_AUTOMATICALLY : Value
}.

Section Nexudus.

(** Python's [float] is IEEE arithmetic and [int] on a [str] is a parser;
    both are parameters, as are the configuration constants. *)
Context {Amount : Type}.
Variable pyfloat : Value -> Exn + Amount.
Variable int_of_str : string -> option Z.
Variable config : Config.

(** ** The world *)

Record Store : Type := {
  members : list Member.t;
  invoices : list (Invoice.t Amount)
}.

(** [sess] is what queries through the open session return (pending
    objects are flushed before every query); [durable] is the database as
    of the last [commit], which is what a new session starts from. *)
Record World : Type := {
  sess : Store;
  durable : Store;
  log : list LogRecord;
  net : list Request;
  clock : Z
}.

Definition set_sess (s : Store) (w : World) : World :=
  {| sess := s; durable := durable w; log := log w; net := net w;
     clock := clock w |}.
Definition set_durable (s : Store) (w : World) : World :=
  {| sess := sess w; durable := s; log := log w; net := net w;
     clock := clock w |}.
Definition set_log (l : list LogRecord) (w : World) : World :=
  {| sess := sess w; durable := durable w; log := l; net := net w;
     clock := clock w |}.
Definition set_net (n : list Request) (w : World) : World :=
  {| sess := sess w; durable := durable w; log := log w; net := n;
     clock := clock w |}.
Definition set_clock (c : Z) (w : World) : World :=
  {| sess := sess w; durable := durable w; log := log w; net := net w;
     clock := c |}.

Definition set_members (l : list Member.t) (s : Store) : Store :=
  {| members := l; invoices := invoices s |}.
Definition set_invoices (l : list (Invoice.t Amount)) (s : Store) : Store :=
  {| members := members s; invoices := l |}.

(** ** State and exception monad

    A raised exception keeps the state reached so far: Python does not undo
    the mutations made before a [raise]. *)

Definition M (A : Type) : Type := World -> Res A * World.

Definition ret {A} (a : A) : M A := fun w => (Ok a, w).

Definition bind {A B} (m : M A) (k : A -> M B) : M B :=
  fun w =>
    match m w with
    | (Ok a, w1) => k a w1
    | (Raise e, w1) => (Raise e, w1)
    end.

Definition raise {A} (e : Exn) : M A := fun w => (Raise e, w).

(** [try: body / except <handled>: handler] *)
Definition try_except {A} (body : M A) (handled : Exn -> bool)
    (handler : Exn -> M A) : M A :=
  fun w =>
    match body w with
    | (Ok a, w1) => (Ok a, w1)
    | (Raise e, w1) => if handled e then handler e w1 else (Raise e, w1)
    end.

Definition lift {A} (r : Exn + A) : M A :=
  match r with
  | inl e => raise e
  | inr a => ret a
  end.

Notation "'let*' x ':=' c1 'in' c2" := (bind c1 (fun x => c2))
  (at level 10, x pattern, c1 at level 100, c2 at level 200).
Notation "c1 ';;;' c2" := (bind c1 (fun _ => c2))
  (at level 100, c2 at level 200, right associativity).

(** [for x in xs: body x] *)
Fixpoint for_each {A} (xs : list A) (body : A -> M unit) : M unit :=
  match xs with
  | [] => ret tt
  | x :: xs' => body x ;;; for_each xs' body
  end.

(** ** Primitive effects *)

(** [record[key]] *)
Definition getitem (record : Rec) (key : string) : M Value :=
  match record !! key with
  | Some v => ret v
  | None => raise (KeyError key)
  end.

(** [logging.getLogger(name).log(level, msg)] *)
Definition logging (name lvl msg : string) : M unit :=
  fun w =>
    (Ok tt, set_log (log w ++ [{| logger := name; level := lvl;
                                   message := msg |}]) w).

(** [datetime.datetime.now()]: a reading of the clock, which then moves. *)
Definition now : M Z :=
  fun w => (Ok (clock w), set_clock (clock w + 1) w).

(** [requests.get(url, params=params, auth=creds).json()] *)
Definition requests_get_json (remote : Remote) (url : string)
    (params : gmap string Value) (creds : string * string) : M Response :=
  fun w =>
    let rq := {| req_url := url; req_params := params; req_auth := creds |} in
    let w1 := set_net (net w ++ [rq]) w in
    match remote rq with
    | inl e => (Raise e, w1)
    | inr res => (Ok res, w1)
    end.

(** ** The SQLAlchemy session

    Rows are kept in insertion order; an ORM object is a reference to its
    row, here the row's position in the table. *)

Fixpoint find_all {A} (p : A -> bool) (l : list A) (i : nat) : list nat :=
  match l with
  | [] => []
  | x :: l' => if p x then i :: find_all p l' (S i) else find_all p l' (S i)
  end.

(** [Query.one_or_none()] *)
Definition one_or_none (hits : list nat) : M (option nat) :=
  match hits with
  | [] => ret None
  | [i] => ret (Some i)
  | _ => raise MultipleResultsFound
  end.

Definition member_has (k : Value) (m : Member.t) : bool :=
  bool_decide (Member.nexudus_user_id m = k).

Definition invoice_has (k : Value) (i : Invoice.t Amount) : bool :=
  bool_decide (Invoice.nexudus_invoice_id i = k).

(** [db_sess.query(models.Member).filter_by(nexudus_user_id=k).one_or_none()] *)
Definition query_member_one_or_none (k : Value) : M (option nat) :=
  fun w => one_or_none (find_all (member_has k) (members (sess w)) 0%nat) w.

(** [db_sess.query(models.Member).filter_by(nexudus_user_id=k).delete()] *)
Definition query_member_delete (k : Value) : M unit :=
  fun w =>
    (Ok tt,
     set_sess (set_members
                 (List.filter (fun m => negb (member_has k m))
                    (members (sess w)))
                 (sess w)) w).

Definition query_invoice_one_or_none (k : Value) : M (option nat) :=
  fun w => one_or_none (find_all (invoice_has k) (invoices (sess w)) 0%nat) w.

Definition query_invoice_delete (k : Value) : M unit :=
  fun w =>
    (Ok tt,
     set_sess (set_invoices
                 (List.filter (fun i => negb (invoice_has k i))
                    (invoices (sess w)))
                 (sess w)) w).

(** [db_sess.add(obj)]: the object becomes the last row; the reference to
    it is returned. *)
Definition add_member (m : Member.t) : M nat :=
  fun w =>
    (Ok (length (members (sess w))),
     set_sess (set_members (members (sess w) ++ [m]) (sess w)) w).

Definition add_invoice (i : Invoice.t Amount) : M unit :=
  fun w =>
    (Ok tt, set_sess (set_invoices (invoices (sess w) ++ [i]) (sess w)) w).

(** [obj.attr = v] on a Member held by the session *)
Definition setattr (ref : nat) (set : Value -> Member.t -> Member.t)
    (v : Value) : M unit :=
  fun w =>
    (Ok tt,
     set_sess (set_members (alter (set v) ref (members (sess w))) (sess w)) w).

(** [obj.attr] on a Member held by the session *)
Definition getattr (ref : nat) (get : Member.t -> Value) : M Value :=
  fun w => (Ok (default VNone (get <$> members (sess w) !! ref)), w).

(** [db_sess.commit()] *)
Definition commit : M unit :=
  fun w => (Ok tt, set_durable (sess w) w).

(** [sm()]: a new session sees the committed rows only. *)
Definition sm : M unit :=
  fun w => (Ok tt, set_sess (durable w) w).

(** ** Log messages of the reconcilers *)

Definition duplicate_member_warning (k : Value) : string :=
  "Consistency warning: Multiple users in database session "
  +:+ "with Nexudus ID " +:+ py_str k +:+ ". Removing all "
  +:+ "copies of this user and re-syncing.".

Definition duplicate_owner_warning (k : Value) : string :=
  "Consistency warning: Multiple users in database "
  +:+ "with Nexudus ID " +:+ py_str k +:+ ".".

Definition duplicate_invoice_warning (k : Value) : string :=
  "Consistency warning: Multiple invoices in database "
  +:+ "session with Nexudus ID " +:+ py_str k
  +:+ ". Removing all copies of this user and re-syncing.".

Definition new_invoice_message (user_id : Value) : string :=
  "    New invoice found for Nexudus user ID " +:+ py_str user_id +:+ ".".

Definition invalid_key_message (e : Exn) : string :=
  "Attempted to access an invalid key for a Nexudus record! Error: "
  +:+ str_exn e.

(** ** [add_or_overwrite_member] *)

(** The local function [nstrip]: the stripped string, or [None]; it raises
    on a true value that is not a string, only [str] having [strip]. *)
Definition nstrip (s : Value) : Exn + Value :=
  if truthy s then
    match s with
    | VStr t => inr (VStr (strip t))
    | _ => inl AttributeError
    end
  else inr VNone.

(** [a + b + c] on strings where [b] is an attribute value *)
Definition concat_str (a : string) (b : Value) (c : string) : M string :=
  match b with
  | VStr s => ret (a +:+ s +:+ c)
  | _ => raise TypeError
  end.

Definition add_or_overwrite_member (record : Rec) : M unit :=
  let* found :=
    try_except
      (let* k := getitem record "Id" in
       query_member_one_or_none k)
      is_MultipleResultsFound
      (fun _ =>
         let* k := getitem record "Id" in
         logging "invoicer_db" "WARNING" (duplicate_member_warning k) ;;;
         let* k := getitem record "Id" in
         query_member_delete k ;;;
         ret None) in
  let* (member_to_add, already_stored) :=
    match found with
    | Some ref => ret (ref, true)
    | None =>
        let* ref := add_member Member.new in
        ret (ref, false)
    end in
  let* v := getitem record "Id" in
  setattr member_to_add Member.set_nexudus_user_id v ;;;
  let* v := getitem record "FullName" in
  setattr member_to_add Member.set_fullname v ;;;
  let* v := getitem record "BillingName" in
  let* v := (if truthy v then ret v else getitem record "FullName") in
  setattr member_to_add Member.set_billing_name v ;;;
  let* v := getitem record "Email" in
  setattr member_to_add Member.set_email v ;;;
  let* v := getitem record "BankBranch" in
  setattr member_to_add Member.set_routing_number v ;;;
  let* v := getitem record "BankAccount" in
  setattr member_to_add Member.set_account_number v ;;;
  let* populated :=
    (let* r := getattr member_to_add Member.routing_number in
     let* sr := lift (nstrip r) in
     if truthy sr then
       let* a := getattr member_to_add Member.account_number in
       let* sa := lift (nstrip a) in
       ret (truthy sa)
     else ret false) in
  (if populated then
     if negb already_stored then
       setattr member_to_add Member.set_process_automatically
         (PROCESS_AUTOMATICALLY config)
     else ret tt
   else
     setattr member_to_add Member.set_process_automatically (VBool false)) ;;;
  let* e := getattr member_to_add Member.email in
  let* line := concat_str "Syncing " e " ..." in
  logging "flask.app" "DEBUG" line ;;;
  commit.

(** ** [add_or_overwrite_invoice] *)

Definition add_or_overwrite_invoice (record : Rec) : M unit :=
  let* short_circuit :=
    try_except
      (let* k := getitem record "CoworkerId" in
       let* corresponding_member := query_member_one_or_none k in
       match corresponding_member with
       | Some ref =>
           let* p := getattr ref Member.process_automatically in
           ret (negb (truthy p))
       | None => ret false
       end)
      is_MultipleResultsFound
      (fun _ =>
         let* k := getitem record "CoworkerId" in
         logging "invoicer_db" "WARNING" (duplicate_owner_warning k) ;;;
         ret false) in
  if short_circuit then ret tt
  else
    let* invoice_to_add :=
      try_except
        (let* k := getitem record "Id" in
         query_invoice_one_or_none k)
        is_MultipleResultsFound
        (fun _ =>
           let* k := getitem record "Id" in
           logging "invoicer_db" "WARNING" (duplicate_invoice_warning k) ;;;
           let* k := getitem record "Id" in
           query_invoice_delete k ;;;
           ret None) in
    match invoice_to_add with
    | Some _ => ret tt
    | None =>
        let* id := getitem record "Id" in
        let* uid := getitem record "CoworkerId" in
        let* sid := getitem record "BusinessId" in
        let* t := now in
        let* total := getitem record "TotalAmount" in
        let* a := lift (pyfloat total) in
        let invoice :=
          Invoice.mk id uid sid t a (VBool false) VNone
                     (VStr "Not processed") VNone in
        add_invoice invoice ;;;
        logging "invoicer_ajax" "DEBUG"
          (new_invoice_message (Invoice.nexudus_user_id invoice)) ;;;
        commit
    end.

(** ** [get_records]

    The generator is its suspended frame: the local variables that survive
    a [yield].  A frame that has not started yet is the one with
    [has_next_page = True] and [current_page = 0]. *)

Record Generator : Type := {
  url : string;
  creds : string * string;
  params : gmap string Value;
  single : bool;
  has_next_page : Value;
  current_page : Z;
  finished : bool
}.

Definition get_records (url_part : string) (payload : gmap string Value)
    (single : bool) : Generator :=
  {| url := NEXUDUS_API_URL config +:+ url_part;
     creds := (NEXUDUS_EMAIL config, NEXUDUS_PASS config);
     params := payload;
     single := single;
     has_next_page := VBool true;
     current_page := 0;
     finished := false |}.

(** [int(v)] *)
Definition py_int (v : Value) : Exn + Z :=
  match v with
  | VInt z => inr z
  | VBool b => inr (if b then 1 else 0)
  | VStr s =>
      match int_of_str s with
      | Some z => inr z
      | None => inl ValueError
      end
  | VNone => inl TypeError
  end.

(** [res[key]] *)
Definition getkey {A} (field : option A) (key : string) : M A :=
  match field with
  | Some v => ret v
  | None => raise (KeyError key)
  end.

(** The request the next iteration of the loop sends. *)
Definition page_request (g : Generator) : Request :=
  {| req_url := url g;
     req_params := <["page" := VInt (current_page g + 1)]> (params g);
     req_auth := creds g |}.

(** The request for page [p] of a collection. *)
Definition request_of (url_part : string) (payload : gmap string Value)
    (p : Z) : Request :=
  {| req_url := NEXUDUS_API_URL config +:+ url_part;
     req_params := <["page" := VInt p]> payload;
     req_auth := (NEXUDUS_EMAIL config, NEXUDUS_PASS config) |}.

(** [next(g)]: [Some batch] is a [yield], [None] is [StopIteration]; an
    exception leaves the generator unusable, so none is returned. *)
Definition next (remote : Remote) (g : Generator)
    : M (option (list Rec) * Generator) :=
  if finished g then ret (None, g)
  else if truthy (has_next_page g) then
    let current_page := current_page g + 1 in
    let params := <["page" := VInt current_page]> (params g) in
    let* res := requests_get_json remote (url g) params (creds g) in
    (if single g then
       let* total := getkey (TotalItems res) "TotalItems" in
       let* n := lift (py_int total) in
       if negb (n =? 1) then raise MultipleResultsFoundException
       else ret tt
     else ret tt) ;;;
    let* has_next_page := getkey (HasNextPage res) "HasNextPage" in
    let* records := getkey (Records res) "Records" in
    ret (Some records,
         {| url := url g; creds := creds g; params := params;
            single := single g; has_next_page := has_next_page;
            current_page := current_page; finished := false |})
  else
    ret (None,
         {| url := url g; creds := creds g; params := params g;
            single := single g; has_next_page := has_next_page g;
            current_page := current_page g; finished := true |}).

(** [for record_list in g: body(record_list)].  The remote decides how many
    pages there are, so the loop is bounded by [fuel]; [None] means the
    bound was reached first. *)
Fixpoint for_in (fuel : nat) (remote : Remote) (g : Generator)
    (body : list Rec -> M unit) (w : World) : option (Res unit * World) :=
  match fuel with
  | O => None
  | S fuel' =>
      match next remote g w with
      | (Raise e, w1) => Some (Raise e, w1)
      | (Ok (None, _), w1) => Some (Ok tt, w1)
      | (Ok (Some record_list, g1), w1) =>
          match body record_list w1 with
          | (Raise e, w2) => Some (Raise e, w2)
          | (Ok _, w2) => for_in fuel' remote g1 body w2
          end
      end
  end.

(** [list(g)]: the batches yielded until the generator stops or fails. *)
Fixpoint collect (fuel : nat) (remote : Remote) (g : Generator) (w : World)
    : option (list (list Rec) * Res unit * World) :=
  match fuel with
  | O => None
  | S fuel' =>
      match next remote g w with
      | (Raise e, w1) => Some ([], Raise e, w1)
      | (Ok (None, _), w1) => Some ([], Ok tt, w1)
      | (Ok (Some record_list, g1), w1) =>
          match collect fuel' remote g1 w1 with
          | Some (rest, r, w2) => Some (record_list :: rest, r, w2)
          | None => None
          end
      end
  end.

(** ** [process_onebyone], [process_batch] *)

Definition process_onebyone (fuel : nat) (remote : Remote)
    (url_part : string) (callback : Rec -> M unit)
    (payload : gmap string Value) : World -> option (Res unit * World) :=
  for_in fuel remote (get_records url_part payload false)
    (fun record_list => for_each record_list callback).

Definition process_batch (fuel : nat) (remote : Remote)
    (url_part : string) (callback : list Rec -> M unit)
    (payload : gmap string Value) : World -> option (Res unit * World) :=
  for_in fuel remote (get_records url_part payload false) callback.

(** ** [get_first], [get_single]

    [get_records] keeps the dict it is given as [params] and writes the
    page number into it, so the caller's dict holds ["page"] once a request
    was sent.  A payload is a value here: what is sent is as in the code,
    and what the caller's dict holds afterwards is the parameters of the
    last request. *)

(** [records[0]] *)
Definition first_item (records : list Rec) : M Rec :=
  match records with
  | record :: _ => ret record
  | [] => raise (OtherError "IndexError")
  end.

(** [next(g)] as an expression: the end of the generator is the exception
    [StopIteration]. *)
Definition next_value (remote : Remote) (g : Generator) : M (list Rec) :=
  let* (batch, _) := next remote g in
  match batch with
  | Some records => ret records
  | None => raise (OtherError "StopIteration")
  end.

Definition get_first (remote : Remote) (url_part : string)
    (payload : gmap string Value) : M Rec :=
  let g := get_records url_part payload false in
  let* records := next_value remote g in
  first_item records.

Definition get_single (remote : Remote) (url_part : string)
    (payload : gmap string Value) : M Rec :=
  let g := get_records url_part payload true in
  let* records := next_value remote g in
  first_item records.

(** ** [create_record], [mark_invoice_paid]

    Marking an invoice as paid POSTs a ledger entry.  Its world is the one
    above together with the POST requests issued. *)

Record Outbox : Type := {
  world : World;
  posted : list PostRequest
}.

Definition P (A : Type) : Type := Outbox -> Res A * Outbox.

Definition retP {A} (a : A) : P A := fun o => (Ok a, o).

Definition bindP {A B} (m : P A) (k : A -> P B) : P B :=
  fun o =>
    match m o with
    | (Ok a, o1) => k a o1
    | (Raise e, o1) => (Raise e, o1)
    end.

(** A computation that issues no POST. *)
Definition in_world {A} (m : M A) : P A :=
  fun o =>
    match m (world o) with
    | (r, w1) => (r, {| world := w1; posted := posted o |})
    end.

Notation "'let+' x ':=' c1 'in' c2" := (bindP c1 (fun x => c2))
  (at level 10, x pattern, c1 at level 100, c2 at level 200).

(** [requests.post(url, data=params, auth=creds).json()] *)
Definition requests_post_json (ledger : Ledger) (url : string)
    (data : gmap string Value) (creds : string * string) : P Rec :=
  fun o =>
    let rq := {| post_url := url; post_data := data; post_auth := creds |} in
    let o1 := {| world := world o; posted := posted o ++ [rq] |} in
    match ledger rq with
    | inl e => (Raise e, o1)
    | inr r => (Ok r, o1)
    end.

Definition create_record (ledger : Ledger) (url_part : string)
    (payload : gmap string Value) : P Rec :=
  let url := NEXUDUS_API_URL config +:+ url_part in
  let creds := (NEXUDUS_EMAIL config, NEXUDUS_PASS config) in
  let params := payload in
  requests_post_json ledger url params creds.

Definition is_MultipleResultsFoundException (e : Exn) : bool :=
  match e with MultipleResultsFoundException => true | _ => false end.

(** [string.ascii_uppercase], [string.digits] *)
Definition ascii_uppercase : string := "ABCDEFGHIJKLMNOPQRSTUVWXYZ".
Definition digits : string := "0123456789".

(** [''.join(random.choices(population, k=k))]: [k] characters drawn from
    the population with replacement.  [rnd j] is the [j]-th number the
    random generator supplies during the call; it is reduced to an index
    of the population, which is not empty here. *)
Definition join_choices (population : string) (k : nat) (rnd : nat -> nat)
    : string :=
  string_of_list_ascii
    (List.map
       (fun j =>
          nth (rnd j mod String.length population)
            (list_ascii_of_string population) Ascii.zero)
       (seq 0 k)).

(** [r.get(key)] *)
Definition dict_get (r : Rec) (key : string) : Value :=
  default VNone (r !! key).

(** The dict literal [create_payload]; its values are evaluated in the
    order of the keys. *)
Definition ledger_entry (invoice_id coworker business : Value)
    (code : string) (credit : Value) : gmap string Value :=
  <["CoworkerInvoiceId" := invoice_id]>
    (<["CoworkerId" := coworker]>
       (<["BusinessId" := business]>
          (<["Code" := VStr code]>
             (<["Credit" := credit]>
                (<["Description" := VStr "Automatic USAePay payment"]> ∅))))).

(** The result is the pair [(result, message)].  The pretty-printer that
    is built and the flush of the standard output touch nothing that is
    modelled. *)
Definition mark_invoice_paid (remote : Remote) (ledger : Ledger)
    (rnd : nat -> nat) (invoice_id : Value) : P (bool * Value) :=
  let get_payload : gmap string Value :=
    <["CoworkerInvoice_Id" := invoice_id]> ∅ in
  let+ looked_up :=
    in_world
      (try_except
         (let* nexudus_invoice :=
            get_single remote "billing/coworkerinvoices" get_payload in
          ret (inr nexudus_invoice))
         is_MultipleResultsFoundException
         (fun e => ret (inl (false, VStr (str_exn e))))) in
  match looked_up with
  | inl early_return => retP early_return
  | inr nexudus_invoice =>
      let code := join_choices (ascii_uppercase +:+ digits) 10 rnd in
      let+ coworker := in_world (getitem nexudus_invoice "CoworkerId") in
      let+ business := in_world (getitem nexudus_invoice "BusinessId") in
      let+ credit := in_world (getitem nexudus_invoice "TotalAmount") in
      let create_payload :=
        ledger_entry invoice_id coworker business code credit in
      let+ r :=
        create_record ledger "billing/coworkerledgerentries" create_payload in
      if truthy (dict_get r "WasSuccessful") then
        retP (true, VStr "Successfully updated invoice in Nexudus.")
      else
        retP (false, dict_get r "Message")
  end.

(** ** [sync_table] and its two instances *)

(** The handler of [except KeyError as e] in the local [callback]. *)
Definition log_invalid_key (e : Exn) : M unit :=
  logging "invoicer_db" "ERROR" (invalid_key_message e).

(** The local function [callback] of [sync_table]. *)
Definition callback (sync_callback : Rec -> M unit) (records : list Rec)
    : M unit :=
  for_each records
    (fun record =>
       try_except (sync_callback record) is_KeyError log_invalid_key).

Definition sync_table (fuel : nat) (remote : Remote)
    (nexudus_space_id : Value) (sync_callback : Rec -> M unit)
    (payload : gmap string Value) (url_part : string)
    (business_var : string) (w : World) : option (Res unit * World) :=
  match sm w with
  | (Raise e, w1) => Some (Raise e, w1)
  | (Ok _, w1) =>
      let payload := <[business_var := nexudus_space_id]> payload in
      process_batch fuel remote url_part (callback sync_callback) payload w1
  end.

Definition sync_member_table (fuel : nat) (remote : Remote)
    (nexudus_space_id : Value) : World -> option (Res unit * World) :=
  let payload : gmap string Value :=
    <["Coworker_Active" := VStr "true"]> (<["size" := VInt 100]> ∅) in
  sync_table fuel remote nexudus_space_id add_or_overwrite_member payload
    "spaces/coworkers" "Coworker_InvoicingBusiness".

Definition sync_invoice_table (fuel : nat) (remote : Remote)
    (nexudus_space_id : Value) : World -> option (Res unit * World) :=
  let payload : gmap string Value :=
    <["CoworkerInvoice_Paid" := VStr "false"]> (<["size" := VInt 100]> ∅) in
  sync_table fuel remote nexudus_space_id add_or_overwrite_invoice payload
    "billing/coworkerinvoices" "CoworkerInvoice_Business".

(** * Reasoning about one Member reconciliation

    What [add_or_overwrite_member] does to a row is a sequence of attribute
    assignments that stops at the first exception.  [member_patch] computes
    that sequence and [member_result] the way the call ends; both depend on
    the record alone. *)

Inductive Field : Type :=
  | F_nexudus_user_id | F_fullname | F_billing_name | F_email
  | F_routing_number | F_account_number | F_process_automatically.

#[global] Instance Field_eq_dec : EqDecision Field.
Proof. solve_decision. Defined.

Definition get (f : Field) (m : Member.t) : Value :=
  match f with
  | F_nexudus_user_id => Member.nexudus_user_id m
  | F_fullname => Member.fullname m
  | F_billing_name => Member.billing_name m
  | F_email => Member.email m
  | F_routing_number => Member.routing_number m
  | F_account_number => Member.account_number m
  | F_process_automatically => Member.process_automatically m
  end.

Definition assign (a : Field * Value) (m : Member.t) : Member.t :=
  match fst a with
  | F_nexudus_user_id => Member.set_nexudus_user_id (snd a) m
  | F_fullname => Member.set_fullname (snd a) m
  | F_billing_name => Member.set_billing_name (snd a) m
  | F_email => Member.set_email (snd a) m
  | F_routing_number => Member.set_routing_number (snd a) m
  | F_account_number => Member.set_account_number (snd a) m
  | F_process_automatically => Member.set_process_automatically (snd a) m
  end.

(** A patch is a list of assignments, applied from left to right. *)
Definition overwrite (p : list (Field * Value)) (m : Member.t) : Member.t :=
  fold_left (fun m a => assign a m) p m.

(** [nstrip(routing) and nstrip(account)], as a truth value *)
Definition ach_populated (routing account : Value) : Exn + bool :=
  match nstrip routing with
  | inl e => inl e
  | inr sr =>
      if truthy sr then
        match nstrip account with
        | inl e => inl e
        | inr sa => inr (truthy sa)
        end
      else inr false
  end.

Definition member_patch (record : Rec) (already_stored : bool)
    : list (Field * Value) * Res unit :=
  match record !! "Id" with
  | None => ([], Raise (KeyError "Id"))
  | Some k =>
  let p := [(F_nexudus_user_id, k)] in
  match record !! "FullName" with
  | None => (p, Raise (KeyError "FullName"))
  | Some fn =>
  let p := p ++ [(F_fullname, fn)] in
  match record !! "BillingName" with
  | None => (p, Raise (KeyError "BillingName"))
  | Some bn =>
  let p := p ++ [(F_billing_name, if truthy bn then bn else fn)] in
  match record !! "Email" with
  | None => (p, Raise (KeyError "Email"))
  | Some em =>
  let p := p ++ [(F_email, em)] in
  match record !! "BankBranch" with
  | None => (p, Raise (KeyError "BankBranch"))
  | Some br =>
  let p := p ++ [(F_routing_number, br)] in
  match record !! "BankAccount" with
  | None => (p, Raise (KeyError "BankAccount"))
  | Some ba =>
  let p := p ++ [(F_account_number, ba)] in
  match ach_populated br ba with
  | inl e => (p, Raise e)
  | inr populated =>
  let p :=
    if populated then
      if already_stored then p
      else p ++ [(F_process_automatically, PROCESS_AUTOMATICALLY config)]
    else p ++ [(F_process_automatically, VBool false)] in
  match em with
  | VStr _ => (p, Ok tt)
  | _ => (p, Raise TypeError)
  end end end end end end end end.

Definition member_result (record : Rec) : Res unit :=
  snd (member_patch record true).

(** The rows of the session after one call. *)
Definition member_step (record : Rec) (rows : list Member.t)
    : list Member.t :=
  match record !! "Id" with
  | None => rows
  | Some k =>
      match find_all (member_has k) rows 0%nat with
      | [] => rows ++ [overwrite (fst (member_patch record false)) Member.new]
      | [i] => alter (overwrite (fst (member_patch record true))) i rows
      | _ =>
          List.filter (fun m => negb (member_has k m)) rows
          ++ [overwrite (fst (member_patch record false)) Member.new]
      end
  end.

(** ** Vocabulary of the specification *)

(** The rows a lookup by remote id matches. *)
Definition members_with (k : Value) (rows : list Member.t) : list Member.t :=
  List.filter (member_has k) rows.

Definition invoices_with (k : Value) (rows : list (Invoice.t Amount))
    : list (Invoice.t Amount) :=
  List.filter (invoice_has k) rows.

(** A bank field as the remote sends it: a string or [null]. *)
Definition is_text (v : Value) : Prop :=
  match v with
  | VNone | VStr _ => True
  | _ => False
  end.

(** The field after trimming; [null] trims to the empty string. *)
Definition trim (v : Value) : string :=
  match v with
  | VStr s => strip s
  | _ => ""
  end.

(** The spec's [bank_populated]: routing and account are both non-empty
    after trimming. *)
Definition bank_populated (routing account : Value) : bool :=
  negb (String.eqb (trim routing) "") && negb (String.eqb (trim account) "").

(** * Reasoning about one Invoice reconciliation *)

(** The first [try] block: [Ok true] is the short circuit ([return]). *)
Definition invoice_gate (record : Rec) (rows : list Member.t) : Res bool :=
  match record !! "CoworkerId" with
  | None => Raise (KeyError "CoworkerId")
  | Some uid =>
      match find_all (member_has uid) rows 0%nat with
      | [i] =>
          Ok (negb (truthy (default VNone
                              (Member.process_automatically <$> rows !! i))))
      | _ => Ok false
      end
  end.

(** The object the creation branch builds when the clock reads [t], or the
    exception that stops it. *)
Definition new_invoice (record : Rec) (t : Z) : Res (Invoice.t Amount) :=
  match record !! "Id" with
  | None => Raise (KeyError "Id")
  | Some id =>
  match record !! "CoworkerId" with
  | None => Raise (KeyError "CoworkerId")
  | Some uid =>
  match record !! "BusinessId" with
  | None => Raise (KeyError "BusinessId")
  | Some sid =>
  match record !! "TotalAmount" with
  | None => Raise (KeyError "TotalAmount")
  | Some total =>
  match pyfloat total with
  | inl e => Raise e
  | inr a =>
      Ok (Invoice.mk id uid sid t a (VBool false) VNone
                     (VStr "Not processed") VNone)
  end end end end end.

(** The Invoice rows of the session after one call, the way the call ends,
    and whether it committed. *)
Definition invoice_step (record : Rec) (t : Z) (mrows : list Member.t)
    (irows : list (Invoice.t Amount))
    : list (Invoice.t Amount) * Res unit * bool :=
  match invoice_gate record mrows with
  | Raise e => (irows, Raise e, false)
  | Ok true => (irows, Ok tt, false)
  | Ok false =>
      match record !! "Id" with
      | None => (irows, Raise (KeyError "Id"), false)
      | Some k =>
          match find_all (invoice_has k) irows 0%nat with
          | [_] => (irows, Ok tt, false)
          | hits =>
              let irows1 :=
                match hits with
                | [] => irows
                | _ => List.filter (fun i => negb (invoice_has k i)) irows
                end in
              match new_invoice record t with
              | Raise e => (irows1, Raise e, false)
              | Ok inv => (irows1 ++ [inv], Ok tt, true)
              end
          end
      end
  end.

(** * Reasoning about a whole run

    What a run does to the database is a fold of a pure step over the
    records the feed delivers, in order, up to the first failure that is
    not a caught [KeyError]. *)

(** The part of a failure that ends the run. *)
Definition fatal (r : Res unit) : option Exn :=
  match r with
  | Ok _ => None
  | Raise e => if is_KeyError e then None else Some e
  end.

Fixpoint run_list {S : Type} (step : Rec -> S -> S * option Exn)
    (records : list Rec) (s : S) : S * option Exn :=
  match records with
  | [] => (s, None)
  | record :: records' =>
      match step record s with
      | (s', None) => run_list step records' s'
      | (s', Some e) => (s', Some e)
      end
  end.

(** ** A Member run, on rows *)

(** The database a run works on: the rows of the session and the committed
    rows. *)
Definition db (w : World) : Store * Store := (sess w, durable w).

(** One record of a Member run. *)
Definition member_db_step (record : Rec) (s : Store * Store)
    : (Store * Store) * option Exn :=
  let session := set_members (member_step record (members (fst s))) (fst s) in
  match member_result record with
  | Ok _ => ((session, session), None)
  | Raise e => ((session, snd s), fatal (Raise e))
  end.

(** The rows of the session after the records of a list. *)
Definition member_steps (records : list Rec) (rows : list Member.t)
    : list Member.t :=
  fold_left (fun rows record => member_step record rows) records rows.

(** The value a patch leaves in a field, if it assigns the field. *)
Fixpoint final (p : list (Field * Value)) (f : Field) : option Value :=
  match p with
  | [] => None
  | a :: p' =>
      match final p' f with
      | Some v => Some v
      | None => if decide (f = fst a) then Some (snd a) else None
      end
  end.

(** The assignments the records of a list make to a row that is already
    stored under the remote id [k]. *)
Fixpoint key_patch (records : list Rec) (k : Value) : list (Field * Value) :=
  match records with
  | [] => []
  | record :: records' =>
      (if decide (record !! "Id" = Some k)
       then fst (member_patch record true) else [])
      ++ key_patch records' k
  end.

Definition settle (records : list Rec) (m : Member.t) : Member.t :=
  overwrite (key_patch records (Member.nexudus_user_id m)) m.

(** The records up to the last one that commits, which are the ones whose
    effect the committed rows show. *)
Fixpoint committed_prefix (records : list Rec) : list Rec :=
  match records with
  | [] => []
  | record :: records' =>
      match member_result record with
      | Ok _ => record :: committed_prefix records'
      | Raise e =>
          if is_KeyError e then
            match committed_prefix records' with
            | [] => []
            | l => record :: l
            end
          else []
      end
  end.

(** The row update of a record, as a function on any row. *)
Definition on_key (k : Value) (f : Member.t -> Member.t) (m : Member.t)
    : Member.t :=
  if member_has k m then f m else m.

(** The rows are settled for a list of records: every remote id of the list
    has one row, and replaying the list changes no row. *)
Definition steady (records : list Rec) (rows : list Member.t) : Prop :=
  (forall record k,
     In record records -> record !! "Id" = Some k ->
     length (members_with k rows) = 1%nat) /\
  (forall m, In m rows -> settle records m = m).

(** ** An Invoice run, on rows *)

(** The clock after one Invoice reconciliation: it is read once, on the
    creation branch, after ["BusinessId"] was found. *)
Definition invoice_clock (record : Rec) (t : Z) (mrows : list Member.t)
    (irows : list (Invoice.t Amount)) : Z :=
  match invoice_gate record mrows with
  | Ok false =>
      match record !! "Id" with
      | Some k =>
          match find_all (invoice_has k) irows 0%nat with
          | [_] => t
          | _ =>
              match record !! "BusinessId" with
              | Some _ => t + 1
              | None => t
              end
          end
      | None => t
      end
  | _ => t
  end.

(** The database of an Invoice run, with the clock the new rows are stamped
    with. *)
Definition db_clock (w : World) : Store * Store * Z :=
  (sess w, durable w, clock w).

(** One record of an Invoice run. *)
Definition invoice_db_step (record : Rec) (s : Store * Store * Z)
    : (Store * Store * Z) * option Exn :=
  let '(v, d, t) := s in
  let '(irows, res, committed) :=
    invoice_step record t (members v) (invoices v) in
  let v' := set_invoices irows v in
  ((v', if committed then v' else d,
    invoice_clock record t (members v) (invoices v)),
   fatal res).

(** The record passes the gate and looks up the remote id [k]. *)
Definition targets (mrows : list Member.t) (record : Rec) (k : Value)
    : Prop :=
  invoice_gate record mrows = Ok false /\ record !! "Id" = Some k.

(** How the creation branch ends for a record, whatever the clock reads. *)
Definition creation (record : Rec) : Res unit :=
  match new_invoice record 0 with
  | Ok _ => Ok tt
  | Raise e => Raise e
  end.

(** A record is settled in a store when reconciling it creates nothing and
    stops nothing: its remote id has one row, or its creation fails with a
    [KeyError]. *)
Definition settled (s : Store) (record : Rec) : Prop :=
  forall k,
    targets (members s) record k ->
    length (invoices_with k (invoices s)) = 1%nat
    \/ (exists e, creation record = Raise e /\ is_KeyError e = true).

(** A record is stuck in a store when reconciling it stops the run. *)
Definition stuck (s : Store) (record : Rec) (e : Exn) : Prop :=
  exists k,
    targets (members s) record k /\
    length (invoices_with k (invoices s)) <> 1%nat /\
    creation record = Raise e /\ is_KeyError e = false.

(** The session and the committed store agree on the members and on which
    remote invoice ids have exactly one row. *)
Definition coherent (v d : Store) : Prop :=
  members d = members v /\
  forall k,
    length (invoices_with k (invoices v)) = 1%nat
    <-> length (invoices_with k (invoices d)) = 1%nat.

(** ** Feeds *)

(** The remote serves the pages of a list: page [i + 1] of the collection
    answers with batch [i], and its continuation flag is true on every page
    but the last. *)
Definition feed_of (remote : Remote) (url_part : string)
    (payload : gmap string Value) (pages : list (list Rec)) : Prop :=
  forall (i : nat) batch,
    pages !! i = Some batch ->
    exists res h,
      remote (request_of url_part payload (Z.of_nat (i + 1))) = inr res /\
      HasNextPage res = Some h /\
      truthy h = bool_decide (i + 1 < length pages)%nat /\
      Records res = Some batch.

(** A suspended generator that has fetched [c] pages and has the pages
    [rest] still to fetch. *)
Definition serves (remote : Remote) (url_part : string)
    (payload : gmap string Value) (c : nat) (rest : list (list Rec))
    (g : Generator) : Prop :=
  single g = false /\
  finished g = false /\
  url g = NEXUDUS_API_URL config +:+ url_part /\
  creds g = (NEXUDUS_EMAIL config, NEXUDUS_PASS config) /\
  (forall v, <["page" := v]> (params g) = <["page" := v]> payload) /\
  current_page g = Z.of_nat c /\
  truthy (has_next_page g) = bool_decide (0 < length rest)%nat /\
  (forall (i : nat) batch,
     rest !! i = Some batch ->
     exists res h,
       remote (request_of url_part payload (Z.of_nat (c + i + 1))) = inr res /\
       HasNextPage res = Some h /\
       truthy h = bool_decide (i + 1 < length rest)%nat /\
       Records res = Some batch).

(** The queries of the two runs. *)
Definition member_query (nexudus_space_id : Value) : gmap string Value :=
  <["Coworker_InvoicingBusiness" := nexudus_space_id]>
    (<["Coworker_Active" := VStr "true"]> (<["size" := VInt 100]> ∅)).

Definition invoice_query (nexudus_space_id : Value) : gmap string Value :=
  <["CoworkerInvoice_Business" := nexudus_space_id]>
    (<["CoworkerInvoice_Paid" := VStr "false"]> (<["size" := VInt 100]> ∅)).

(** * Reasoning about a fetch of one record *)

(** The check [get_records] makes on a page when [single] is set. *)
Definition single_check (s : bool) (res : Response) : Res unit :=
  if s then
    match TotalItems res with
    | None => Raise (KeyError "TotalItems")
    | Some total =>
        match py_int total with
        | inl e => Raise e
        | inr n => if n =? 1 then Ok tt else Raise MultipleResultsFoundException
        end
    end
  else Ok tt.

(** What [next(g)[0]] on a fresh generator comes to. *)
Definition first_of_page (s : bool) (answer : Exn + Response) : Res Rec :=
  match answer with
  | inl e => Raise e
  | inr res =>
      match single_check s res with
      | Raise e => Raise e
      | Ok _ =>
          match HasNextPage res with
          | None => Raise (KeyError "HasNextPage")
          | Some _ =>
              match Records res with
              | None => Raise (KeyError "Records")
              | Some [] => Raise (OtherError "IndexError")
              | Some (record :: _) => Ok record
              end
          end
      end
  end.

(** * Reasoning about [mark_invoice_paid] *)

(** The request that looks the invoice up. *)
Definition lookup_request (invoice_id : Value) : Request :=
  request_of "billing/coworkerinvoices"
    (<["CoworkerInvoice_Id" := invoice_id]> ∅) 1.

(** The POST that carries a ledger entry. *)
Definition entry_request (data : gmap string Value) : PostRequest :=
  {| post_url := NEXUDUS_API_URL config +:+ "billing/coworkerledgerentries";
     post_data := data;
     post_auth := (NEXUDUS_EMAIL config, NEXUDUS_PASS config) |}.

(** The pair [mark_invoice_paid] returns for an answer of the ledger. *)
Definition outcome (answer : Rec) : bool * Value :=
  if truthy (dict_get answer "WasSuccessful") then
    (true, VStr "Successfully updated invoice in Nexudus.")
  else (false, dict_get answer "Message").

(** The code of the ledger entry. *)
Definition entry_code (rnd : nat -> nat) : string :=
  join_choices (ascii_uppercase +:+ digits) 10 rnd.

(** An upper-case letter or a digit. *)
Definition is_upper_or_digit (c : ascii) : Prop :=
  (65 <= nat_of_ascii c <= 90)%nat \/ (48 <= nat_of_ascii c <= 57)%nat.

(** * Reasoning about the pages of a run *)

(** A generator over the collection [url_part] with the query [payload]
    that has fetched [c] pages. *)
Definition tracks (url_part : string) (payload : gmap string Value)
    (c : nat) (g : Generator) : Prop :=
  url g = NEXUDUS_API_URL config +:+ url_part /\
  creds g = (NEXUDUS_EMAIL config, NEXUDUS_PASS config) /\
  (forall v, <["page" := v]> (params g) = <["page" := v]> payload) /\
  current_page g = Z.of_nat c.

(** The requests for the pages [c + 1], ..., [c + n] of a collection. *)
Definition page_requests (url_part : string) (payload : gmap string Value)
    (c n : nat) : list Request :=
  List.map (fun p => request_of url_part payload (Z.of_nat p)) (seq (c + 1) n).

(** A loop over the pages of a feed, from page [c + 1] on: each page is
    requested and then handed to the body; the first exception ends the
    loop. *)
Fixpoint over_pages (url_part : string) (payload : gmap string Value)
    (body : list Rec -> M unit) (c : nat) (pages : list (list Rec))
    : M unit :=
  match pages with
  | [] => ret tt
  | batch :: rest =>
      fun w =>
        let rq := request_of url_part payload (Z.of_nat (c + 1)) in
        match body batch (set_net (net w ++ [rq]) w) with
        | (Ok _, w1) => over_pages url_part payload body (S c) rest w1
        | (Raise e, w1) => (Raise e, w1)
        end
  end.

End Nexudus.

(** * Example data *)

Definition example_config : Config :=
  {| NEXUDUS_API_URL := "https://spaces.nexudus.com/api/";
     NEXUDUS_EMAIL := "admin@example.com";
     NEXUDUS_PASS := "secret";
     PROCESS_AUTOMATICALLY := VBool true |}.

(** The Member record of the spec's concrete scenario. *)
Definition jane_doe : Rec :=
  list_to_map
    [("Id", VInt 5); ("FullName", VStr "Jane Doe"); ("BillingName", VStr "");
     ("Email", VStr "a@b.com"); ("BankBranch", VStr " 123 ");
     ("BankAccount", VStr " 456 ")].

(** Amounts as integers and [float] on integers only, for the examples. *)
Definition example_float (v : Value) : Exn + Z :=
  match v with
  | VInt z => inr z
  | _ => inl ValueError
  end.

Definition empty_store : @Store Z := {| members := []; invoices := [] |}.

Definition world_of (s : @Store Z) : @World Z :=
  {| sess := s; durable := s; log := []; net := []; clock := 0 |}.

Definition jane_member : Member.t :=
  Member.mk (VInt 5) (VStr "Jane Doe") (VStr "Jane Doe") (VStr "a@b.com")
            (VStr " 123 ") (VStr " 456 ") (VBool true).

Definition jane_store : @Store Z :=
  {| members := [jane_member]; invoices := [] |}.

(** A second Member, without bank details. *)
Definition bob : Rec :=
  list_to_map
    [("Id", VInt 6); ("FullName", VStr "Bob Roe");
     ("BillingName", VStr "Roe Ltd");
     ("Email", VStr "bob@b.com"); ("BankBranch", VNone);
     ("BankAccount", VNone)].

(** A Member record whose e-mail is [null]: reconciling it raises a
    [TypeError]. *)
Definition no_email : Rec :=
  list_to_map
    [("Id", VInt 8); ("FullName", VStr "Ann Poe"); ("BillingName", VStr "");
     ("Email", VNone); ("BankBranch", VNone); ("BankAccount", VNone)].

(** Unpaid invoices of Jane Doe. *)
Definition invoice_9 : Rec :=
  list_to_map
    [("Id", VInt 9); ("CoworkerId", VInt 5); ("BusinessId", VInt 1);
     ("TotalAmount", VInt 42)].

Definition invoice_10 : Rec :=
  list_to_map
    [("Id", VInt 10); ("CoworkerId", VInt 5); ("BusinessId", VInt 1);
     ("TotalAmount", VInt 7)].

Definition member_feed : list (list Rec) := [[jane_doe]; [bob]].

Definition invoice_feed : list (list Rec) := [[invoice_9]; [invoice_10]].

(** A remote with two pages of Members and two pages of Invoices. *)
Definition example_remote : Remote :=
  fun rq =>
    let is_members :=
      String.eqb (req_url rq)
        (NEXUDUS_API_URL example_config +:+ "spaces/coworkers") in
    match req_params rq !! "page" with
    | Some (VInt 1) =>
        inr {| TotalItems := Some (VInt 2);
               HasNextPage := Some (VBool true);
               Records := Some (if is_members then [jane_doe]
                                else [invoice_9]) |}
    | Some (VInt 2) =>
        inr {| TotalItems := Some (VInt 2);
               HasNextPage := Some (VBool false);
               Records := Some (if is_members then [bob]
                                else [invoice_10]) |}
    | _ => inl (OtherError "HTTPError")
    end.

(** No string is read as an integer in the examples. *)
Definition example_int (s : string) : option Z := None.

(** Jane Doe with automatic processing switched off. *)
Definition jane_manual : Member.t :=
  Member.set_process_automatically (VBool false) jane_member.

Definition manual_store : @Store Z :=
  {| members := [jane_manual]; invoices := [] |}.

(** Two rows for the remote id 7, which the feed does not mention. *)
Definition stray : Member.t :=
  Member.mk (VInt 7) (VStr "Old Row") (VStr "Old Row") (VStr "old@b.com")
            VNone VNone (VBool false).

Definition duplicate_store : @Store Z :=
  {| members := [stray; stray; jane_member; jane_member]; invoices := [] |}.

(** A store that already holds invoice 9, with another amount. *)
Definition stored_invoice_9 : Invoice.t Z :=
  Invoice.mk (VInt 9) (VInt 5) (VInt 1) 0 10 (VBool false) VNone
             (VStr "Not processed") VNone.

Definition invoiced_store : @Store Z :=
  {| members := [jane_member]; invoices := [stored_invoice_9] |}.

(** A Member record that lacks the key ["BankAccount"]. *)
Definition no_bank_account : Rec :=
  list_to_map
    [("Id", VInt 4); ("FullName", VStr "Cy Moe"); ("BillingName", VStr "");
     ("Email", VStr "cy@b.com"); ("BankBranch", VStr "021000021")].

(** Two rows for invoice 9. *)
Definition duplicate_invoice_store : @Store Z :=
  {| members := [jane_member];
     invoices := [stored_invoice_9; stored_invoice_9] |}.

(** A remote whose collections have one page, holding the given records. *)
Definition one_page (records : list Rec) : Remote :=
  fun _ =>
    inr {| TotalItems := Some (VInt (Z.of_nat (length records)));
           HasNextPage := Some (VBool false);
           Records := Some records |}.

(** Jane Doe's record without the key ["BankAccount"]. *)
Definition jane_no_bank_account : Rec := delete "BankAccount" jane_doe.

(** Invoice 9 twice, owned by a Member whose invoices are not processed. *)
Definition gated_store : @Store Z :=
  {| members := [jane_manual];
     invoices := [stored_invoice_9; stored_invoice_9] |}.

(** A ledger that accepts every entry. *)
Definition accepting_ledger : Ledger :=
  fun _ => inr (list_to_map [("WasSuccessful", VBool true)]).

(** A ledger that refuses every entry, with a message. *)
Definition refusing_ledger : Ledger :=
  fun _ =>
    inr (list_to_map [("WasSuccessful", VBool false);
                      ("Message", VStr "Invoice already paid")]).

(** The numbers a random generator might supply. *)
Definition example_rnd (j : nat) : nat := (7 * j + 3)%nat.

Definition empty_outbox : @Outbox Z :=
  {| world := world_of empty_store; posted := [] |}.

(** Invoice 9 as the remote sends it when the total amount is missing, when
    the space is missing, and when the total amount is not a number. *)
Definition invoice_9_no_total : Rec := delete "TotalAmount" invoice_9.

Definition invoice_9_no_space : Rec := delete "BusinessId" invoice_9.

Definition invoice_9_bad_total : Rec :=
  <["TotalAmount" := VStr "n/a"]> invoice_9.

(** A remote that reports a next page on every page, and holds nothing. *)
Definition endless_remote : Remote :=
  fun _ =>
    inr {| TotalItems := Some (VInt 0);
           HasNextPage := Some (VBool true);
           Records := Some [] |}.

(** A remote whose pages come without the continuation flag. *)
Definition flagless_remote : Remote :=
  fun _ =>
    inr {| TotalItems := Some (VInt 1);
           HasNextPage := None;
           Records := Some [jane_doe] |}.

(** Jane Doe's record with the bank routing as a JSON number. *)
Definition jane_numeric_routing : Rec :=
  <["BankBranch" := VInt 21000021]> jane_doe.

(** Jane Doe's record under a new name, without the key ["BillingName"]. *)
Definition jane_renamed : Rec :=
  list_to_map [("Id", VInt 5); ("FullName", VStr "Jane Roe")].

(** A remote that reports one item and sends none. *)
Definition hollow_remote : Remote :=
  fun _ =>
    inr {| TotalItems := Some (VInt 1);
           HasNextPage := Some (VBool false);
           Records := Some [] |}.

(** * Proofs *)

(** ** Lists and references *)

Lemma find_all_lookup {A} (p : A -> bool) l o i :
  In i (find_all p l o) ->
  exists x, l !! (i - o)%nat = Some x /\ p x = true /\ (o <= i)%nat.
Proof.
  revert o. induction l as [|x l IH]; intros o; simpl.
  - intros [].
  - assert (Hrec : In i (find_all p l (S o)) ->
      exists y, (x :: l) !! (i - o)%nat = Some y /\ p y = true /\ (o <= i)%nat).
    { intros H. apply IH in H as (y & Hy & Hpy & Hle).
      exists y. replace (i - o)%nat with (S (i - S o)) by lia.
      split; [exact Hy|]. split; [exact Hpy|lia]. }
    destruct (p x) eqn:Hp; [|exact Hrec].
    intros [<-|H]; [|auto].
    exists x. rewrite Nat.sub_diag. auto.
Qed.

Lemma find_all_single {A} (p : A -> bool) l i :
  find_all p l 0%nat = [i] -> exists x, l !! i = Some x /\ p x = true.
Proof.
  intros H. destruct (find_all_lookup p l 0%nat i) as (x & Hx & Hp & _).
  - rewrite H. left. reflexivity.
  - exists x. rewrite Nat.sub_0_r in Hx. auto.
Qed.

Lemma alter_snoc {A} (f : A -> A) (l : list A) (x : A) :
  alter f (length l) (l ++ [x]) = l ++ [f x].
Proof.
  induction l as [|y l IH]; simpl; [reflexivity|].
  f_equal. exact IH.
Qed.

Lemma lookup_snoc {A} (l : list A) (x : A) :
  (l ++ [x]) !! length l = Some x.
Proof. induction l; simpl; auto. Qed.

Lemma find_all_filter {A} (p : A -> bool) (l : list A) o :
  Forall2 (fun i x => l !! (i - o)%nat = Some x /\ (o <= i)%nat)
    (find_all p l o) (List.filter p l).
Proof.
  revert o. induction l as [|x l IH]; intros o; simpl; [constructor|].
  assert (Hrec : Forall2
            (fun i y => (x :: l) !! (i - o)%nat = Some y /\ (o <= i)%nat)
            (find_all p l (S o)) (List.filter p l)).
  { eapply Forall2_impl; [apply IH|]. intros i y [Hy Hle]. cbv beta.
    replace (i - o)%nat with (S (i - S o)) by lia. split; [exact Hy|lia]. }
  destruct (p x); [|exact Hrec].
  constructor; [|exact Hrec]. rewrite Nat.sub_diag. split; [reflexivity|lia].
Qed.

Lemma find_all_none {A} (p : A -> bool) (l : list A) :
  List.filter p l = [] -> find_all p l 0%nat = [].
Proof.
  intros H. pose proof (find_all_filter p l 0%nat) as HF. rewrite H in HF.
  inversion HF. reflexivity.
Qed.

Lemma find_all_one {A} (p : A -> bool) (l : list A) x :
  List.filter p l = [x] ->
  exists i, find_all p l 0%nat = [i] /\ l !! i = Some x.
Proof.
  intros H. pose proof (find_all_filter p l 0%nat) as HF. rewrite H in HF.
  inversion HF as [|i y il yl [Hi _] Hrest]; subst. inversion Hrest; subst.
  exists i. rewrite Nat.sub_0_r in Hi. auto.
Qed.

Lemma find_all_length {A} (p : A -> bool) (l : list A) o :
  length (find_all p l o) = length (List.filter p l).
Proof. eapply Forall2_length, find_all_filter. Qed.

Lemma alter_insert {A} (f : A -> A) (l : list A) i x :
  l !! i = Some x -> alter f i l = <[i := f x]> l.
Proof.
  revert i. induction l as [|y l IH]; intros [|i] H; simpl in *;
    try discriminate.
  - injection H as ->. reflexivity.
  - f_equal. apply IH, H.
Qed.

(** Symbolic execution of the monadic code. *)

Ltac exec :=
  cbv beta iota zeta delta
    [bind ret raise try_except lift getitem setattr getattr logging commit
     add_member add_invoice query_member_delete query_member_one_or_none
     query_invoice_delete query_invoice_one_or_none now
     one_or_none concat_str set_sess set_members set_invoices
     set_durable set_log set_clock is_MultipleResultsFound];
  cbn [sess members invoices durable log net clock].

Ltac use_lookups :=
  repeat match goal with
         | H : _ !! _ = _ |- _ => rewrite H
         | H : find_all _ _ _ = _ |- _ => rewrite H
         end.

Ltac mexec :=
  repeat (progress
    (exec; use_lookups;
     rewrite ?alter_snoc, ?lookup_snoc, ?list_alter_alter_eq,
       ?list_lookup_alter_eq;
     use_lookups;
     cbn [negb fmap option_fmap option_map default from_option id compose
          Member.nexudus_user_id Member.fullname Member.billing_name
          Member.email Member.routing_number Member.account_number
          Member.process_automatically
          Member.set_nexudus_user_id Member.set_fullname
          Member.set_billing_name Member.set_email Member.set_routing_number
          Member.set_account_number Member.set_process_automatically])).

Ltac fin := mexec; repeat split; reflexivity.

Ltac member_cases record :=
  destruct (record !! "FullName") as [fn|] eqn:HFn; [mexec|fin];
  destruct (record !! "BillingName") as [bn|] eqn:HBn; [mexec|fin];
  destruct (truthy bn) eqn:Hbn; mexec;
  (destruct (record !! "Email") as [em|] eqn:HEm; [mexec|fin];
   destruct (record !! "BankBranch") as [br|] eqn:HBr; [mexec|fin];
   destruct (record !! "BankAccount") as [ba|] eqn:HBa; [mexec|fin];
   destruct (nstrip br) as [e|sr]; [fin|mexec];
   destruct (truthy sr); mexec;
   [destruct (nstrip ba) as [e|sa]; [fin|mexec]; destruct (truthy sa); mexec|];
   destruct em; fin).

Ltac iexec :=
  repeat (progress
    (exec; use_lookups;
     cbn [negb fmap option_fmap option_map default from_option id])).

Ltac ifin := iexec; repeat split; reflexivity.

Ltac invoice_tail pyfloat record :=
  destruct (record !! "BusinessId") as [sid|] eqn:HSid; [iexec|ifin];
  destruct (record !! "TotalAmount") as [total|] eqn:HTot; [iexec|ifin];
  destruct (pyfloat total) as [e|a]; ifin.

Section Properties.

Context {Amount : Type}.
Variable pyfloat : Value -> Exn + Amount.
Variable int_of_str : string -> option Z.
Variable config : Config.

Implicit Types (w : @World Amount) (record : Rec) (k : Value).
Implicit Types (rows : list Member.t) (m : Member.t).

(** The monadic reconciler and its pure reading agree. *)
Lemma add_or_overwrite_member_sound record w :
  let '(res, w') := add_or_overwrite_member config record w in
  res = member_result config record /\
  members (sess w') = member_step config record (members (sess w)) /\
  invoices (sess w') = invoices (sess w) /\
  durable w' = match res with Ok _ => sess w' | Raise _ => durable w end /\
  net w' = net w /\ clock w' = clock w.
Proof.
  unfold add_or_overwrite_member, member_result, member_step, member_patch,
    ach_populated.
  destruct (record !! "Id") as [k|] eqn:HId.
  2:{ mexec. simpl. auto 10. }
  destruct (find_all (member_has k) (members (sess w)) 0%nat)
    as [|i [|j hits]] eqn:Hfind.
  - member_cases record.
  - destruct (find_all_single _ _ _ Hfind) as (m0 & Hm0 & _).
    member_cases record. 
  - member_cases record. 
Qed.

Lemma nstrip_text v :
  is_text v ->
  exists s, nstrip v = inr s /\ truthy s = negb (String.eqb (trim v) "").
Proof.
  destruct v as [| | |s]; simpl; try contradiction; intros _.
  - exists VNone. auto.
  - unfold nstrip. destruct s as [|c s].
    + exists VNone. auto.
    + cbn [truthy]. exists (VStr (strip (String c s))). split; [reflexivity|].
      destruct (strip (String c s)); reflexivity.
Qed.

Lemma ach_populated_text br ba :
  is_text br -> is_text ba -> ach_populated br ba = inr (bank_populated br ba).
Proof.
  intros Hr Ha. unfold ach_populated, bank_populated.
  destruct (nstrip_text br Hr) as (sr & -> & ->).
  destruct (nstrip_text ba Ha) as (sa & -> & ->).
  destruct (negb (String.eqb (trim br) "")); reflexivity.
Qed.

(** What a well-formed record assigns.  *)
Lemma member_patch_text record stored k fn bn em br ba :
  record !! "Id" = Some k ->
  record !! "FullName" = Some fn ->
  record !! "BillingName" = Some bn ->
  record !! "Email" = Some (VStr em) ->
  record !! "BankBranch" = Some br ->
  record !! "BankAccount" = Some ba ->
  is_text br -> is_text ba ->
  member_patch config record stored =
    ([(F_nexudus_user_id, k); (F_fullname, fn);
      (F_billing_name, if truthy bn then bn else fn); (F_email, VStr em);
      (F_routing_number, br); (F_account_number, ba)]
     ++ (if bank_populated br ba then
           if stored then []
           else [(F_process_automatically, PROCESS_AUTOMATICALLY config)]
         else [(F_process_automatically, VBool false)]),
     Ok tt).
Proof.
  intros HId HFn HBn HEm HBr HBa Hr Ha. unfold member_patch.
  rewrite HId, HFn, HBn, HEm, HBr, HBa, (ach_populated_text br ba Hr Ha).
  destruct (bank_populated br ba), stored; reflexivity.
Qed.

(** C4. A remote Member record with no matching local row creates a Member
    whose auto_process is the configured default when both bank fields are
    non-empty after trimming, and false when either is blank or
    whitespace-only; unless the default is itself false, the Member has the
    default exactly when the bank fields are populated. *)
Theorem new_member_auto_process record w k fn bn em br ba :
  record !! "Id" = Some k ->
  record !! "FullName" = Some fn ->
  record !! "BillingName" = Some bn ->
  record !! "Email" = Some (VStr em) ->
  record !! "BankBranch" = Some br ->
  record !! "BankAccount" = Some ba ->
  is_text br -> is_text ba ->
  members_with k (members (sess w)) = [] ->
  exists m w',
    add_or_overwrite_member config record w = (Ok tt, w') /\
    members (sess w') = members (sess w) ++ [m] /\
    durable w' = sess w' /\
    Member.nexudus_user_id m = k /\
    (bank_populated br ba = true ->
     Member.process_automatically m = PROCESS_AUTOMATICALLY config) /\
    (bank_populated br ba = false ->
     Member.process_automatically m = VBool false) /\
    (PROCESS_AUTOMATICALLY config <> VBool false ->
     (Member.process_automatically m = PROCESS_AUTOMATICALLY config
      <-> bank_populated br ba = true)).
Proof.
  intros HId HFn HBn HEm HBr HBa Hr Ha Hnone.
  pose proof (add_or_overwrite_member_sound record w) as H.
  destruct (add_or_overwrite_member config record w) as [res w'].
  destruct H as (Hres & Hmem & _ & Hdur & _).
  unfold member_result in Hres. unfold member_step in Hmem.
  rewrite (member_patch_text _ true _ _ _ _ _ _ HId HFn HBn HEm HBr HBa Hr Ha)
    in Hres.
  rewrite (member_patch_text _ false _ _ _ _ _ _ HId HFn HBn HEm HBr HBa Hr Ha)
    in Hmem.
  rewrite HId, (find_all_none _ _ Hnone) in Hmem.
  cbn [fst snd] in Hres, Hmem. subst res.
  eexists _, w'. split; [reflexivity|]. split; [exact Hmem|].
  split; [exact Hdur|].
  destruct (bank_populated br ba); cbn; repeat split;
    intros; congruence.
Qed.

(** C3. For a Member already stored (the lookup by remote id returns it)
    with auto_process = true, reconciling a record whose bank fields are
    both non-blank after trimming leaves auto_process = true, and
    reconciling a record whose bank fields are blank after trimming sets
    auto_process = false. *)
Theorem stored_member_auto_process record w k fn bn em br ba m :
  record !! "Id" = Some k ->
  record !! "FullName" = Some fn ->
  record !! "BillingName" = Some bn ->
  record !! "Email" = Some (VStr em) ->
  record !! "BankBranch" = Some br ->
  record !! "BankAccount" = Some ba ->
  is_text br -> is_text ba ->
  members_with k (members (sess w)) = [m] ->
  Member.process_automatically m = VBool true ->
  exists i m' w',
    members (sess w) !! i = Some m /\
    add_or_overwrite_member config record w = (Ok tt, w') /\
    members (sess w') = <[i := m']> (members (sess w)) /\
    durable w' = sess w' /\
    Member.nexudus_user_id m' = k /\
    (bank_populated br ba = true ->
     Member.process_automatically m' = VBool true) /\
    (bank_populated br ba = false ->
     Member.process_automatically m' = VBool false).
Proof.
  intros HId HFn HBn HEm HBr HBa Hr Ha Hone Hauto.
  destruct (find_all_one _ _ _ Hone) as (i & Hfind & Hi).
  pose proof (add_or_overwrite_member_sound record w) as H.
  destruct (add_or_overwrite_member config record w) as [res w'].
  destruct H as (Hres & Hmem & _ & Hdur & _).
  unfold member_result in Hres. unfold member_step in Hmem.
  rewrite (member_patch_text _ true _ _ _ _ _ _ HId HFn HBn HEm HBr HBa Hr Ha)
    in Hres, Hmem.
  rewrite HId, Hfind, (alter_insert _ _ _ _ Hi) in Hmem.
  cbn [fst snd] in Hres, Hmem. subst res.
  eexists i, _, w'. split; [exact Hi|]. split; [reflexivity|].
  split; [exact Hmem|]. split; [exact Hdur|].
  destruct (bank_populated br ba); cbn; repeat split;
    intros; congruence.
Qed.

Lemma jane_doe_patch stored :
  member_patch config jane_doe stored =
    ([(F_nexudus_user_id, VInt 5); (F_fullname, VStr "Jane Doe");
      (F_billing_name, VStr "Jane Doe"); (F_email, VStr "a@b.com");
      (F_routing_number, VStr " 123 "); (F_account_number, VStr " 456 ")]
     ++ (if stored then []
         else [(F_process_automatically, PROCESS_AUTOMATICALLY config)]),
     Ok tt).
Proof. destruct stored; vm_compute; reflexivity. Qed.

(** C10, as the code has it.  Reconciling the record of the scenario
    against a store with no Member for id 5 creates a Member with billing
    name "Jane Doe", auto_process equal to the configured default, and the
    bank routing " 123 " and bank account " 456 " exactly as received: the
    stored bank fields are not trimmed. *)
Theorem jane_doe_created w :
  members_with (VInt 5) (members (sess w)) = [] ->
  exists w',
    add_or_overwrite_member config jane_doe w = (Ok tt, w') /\
    members (sess w') =
      members (sess w)
      ++ [Member.mk (VInt 5) (VStr "Jane Doe") (VStr "Jane Doe")
            (VStr "a@b.com") (VStr " 123 ") (VStr " 456 ")
            (PROCESS_AUTOMATICALLY config)] /\
    durable w' = sess w'.
Proof.
  intros Hnone.
  pose proof (add_or_overwrite_member_sound jane_doe w) as H.
  destruct (add_or_overwrite_member config jane_doe w) as [res w'].
  destruct H as (Hres & Hmem & _ & Hdur & _).
  unfold member_result in Hres. unfold member_step in Hmem.
  rewrite jane_doe_patch in Hres. rewrite jane_doe_patch in Hmem.
  change (jane_doe !! "Id") with (Some (VInt 5)) in Hmem.
  cbv beta iota in Hmem. rewrite (find_all_none _ _ Hnone) in Hmem.
  cbn [fst snd] in Hres, Hmem. subst res.
  exists w'. split; [reflexivity|]. split; [exact Hmem|exact Hdur].
Qed.

Lemma add_or_overwrite_invoice_sound record w :
  let '(res, w') := add_or_overwrite_invoice pyfloat record w in
  let '(irows, r, committed) :=
    invoice_step pyfloat record (clock w) (members (sess w))
      (invoices (sess w)) in
  res = r /\
  invoices (sess w') = irows /\
  members (sess w') = members (sess w) /\
  durable w' = (if committed then sess w' else durable w) /\
  net w' = net w /\
  clock w' =
    invoice_clock record (clock w) (members (sess w)) (invoices (sess w)).
Proof.
  unfold add_or_overwrite_invoice, invoice_step, invoice_clock, invoice_gate,
    new_invoice.
  destruct (record !! "CoworkerId") as [uid|] eqn:HUid; [|ifin].
  destruct (find_all (member_has uid) (members (sess w)) 0%nat)
    as [|i [|j hits]] eqn:Hm; iexec.
  2:{ destruct (truthy (default VNone
                 (Member.process_automatically <$> members (sess w) !! i)));
      iexec; [|repeat split; reflexivity].
      destruct (record !! "Id") as [k|] eqn:HId; [iexec|ifin].
      destruct (find_all (invoice_has k) (invoices (sess w)) 0%nat)
        as [|i' [|j' hits']] eqn:Hi; iexec;
        [invoice_tail pyfloat record|repeat split; reflexivity|
         invoice_tail pyfloat record]. }
  all: destruct (record !! "Id") as [k|] eqn:HId; [iexec|ifin];
    destruct (find_all (invoice_has k) (invoices (sess w)) 0%nat)
      as [|i' [|j' hits']] eqn:Hi; iexec;
      [invoice_tail pyfloat record|repeat split; reflexivity|
         invoice_tail pyfloat record].
Qed.

Lemma store_eq (s1 s2 : @Store Amount) :
  members s1 = members s2 -> invoices s1 = invoices s2 -> s1 = s2.
Proof. destruct s1, s2; simpl; intros -> ->; reflexivity. Qed.

(** C5. When the lookup of the record's owner id returns a Member whose
    auto_process is false, the invoice reconciler returns at once: no
    error, and nothing changes (no Invoice row created or modified, nothing
    committed, nothing logged). *)
Theorem invoice_gate_short_circuits record w uid m :
  record !! "CoworkerId" = Some uid ->
  members_with uid (members (sess w)) = [m] ->
  Member.process_automatically m = VBool false ->
  add_or_overwrite_invoice pyfloat record w = (Ok tt, w).
Proof.
  intros HUid Hone Hauto.
  destruct (find_all_one _ _ _ Hone) as (i & Hfind & Hi).
  unfold add_or_overwrite_invoice. iexec. rewrite Hauto. reflexivity.
Qed.

(** C6. When the record's remote_invoice_id matches exactly one local
    Invoice, the reconciler changes no row at all, whatever the record's
    amount: the session and the committed store are as before, and the
    call raises nothing once the owner id is present. *)
Theorem existing_invoice_untouched record w k inv :
  record !! "Id" = Some k ->
  invoices_with k (invoices (sess w)) = [inv] ->
  exists res w',
    add_or_overwrite_invoice pyfloat record w = (res, w') /\
    sess w' = sess w /\ durable w' = durable w /\
    invoices_with k (invoices (sess w')) = [inv] /\
    (is_Some (record !! "CoworkerId") -> res = Ok tt).
Proof.
  intros HId Hone.
  destruct (find_all_one _ _ _ Hone) as (i & Hfind & Hi).
  pose proof (add_or_overwrite_invoice_sound record w) as H.
  destruct (add_or_overwrite_invoice pyfloat record w) as [res w'].
  exists res, w'. split; [reflexivity|].
  unfold invoice_step in H. rewrite HId, Hfind in H.
  assert (Hg : match invoice_gate record (members (sess w)) with
               | Ok _ => is_Some (record !! "CoworkerId")
               | Raise _ => record !! "CoworkerId" = None
               end).
  { unfold invoice_gate.
    destruct (record !! "CoworkerId") as [uid|]; [|reflexivity].
    destruct (find_all (member_has uid) (members (sess w)) 0%nat)
      as [|? [|? ?]]; eexists; reflexivity. }
  destruct (invoice_gate record (members (sess w))) as [[|]|e];
    destruct H as (-> & Hinv & Hmem & Hdur & _);
    assert (Hs : sess w' = sess w) by (apply store_eq; assumption);
    rewrite Hs; repeat split; auto.
  intros [v Hv]. rewrite Hv in Hg. discriminate.
Qed.

(** C8. With the exactly-one flag set, a page whose reported total item
    count is not 1 makes that call of the generator raise
    [MultipleResultsFoundException]: nothing is yielded, and a consumer of
    the sequence gets no batch from that call on. *)
Theorem single_fetch_rejects_other_counts remote (g : Generator) w res total n
    fuel :
  single g = true ->
  finished g = false ->
  truthy (has_next_page g) = true ->
  remote (page_request g) = inr res ->
  TotalItems res = Some total ->
  py_int int_of_str total = inr n ->
  n <> 1 ->
  exists w',
    next int_of_str remote g w = (Raise MultipleResultsFoundException, w') /\
    collect int_of_str (S fuel) remote g w
      = Some ([], Raise MultipleResultsFoundException, w') /\
    net w' = net w ++ [page_request g] /\
    sess w' = sess w /\ durable w' = durable w.
Proof.
  intros Hs Hf Hh Hr Ht Hi Hn.
  assert (Hnext : exists w',
    next int_of_str remote g w = (Raise MultipleResultsFoundException, w') /\
    net w' = net w ++ [page_request g] /\
    sess w' = sess w /\ durable w' = durable w).
  { unfold next. rewrite Hf, Hh, Hs.
    unfold bind at 1, requests_get_json. fold (page_request g). rewrite Hr.
    unfold bind at 1, bind at 1, getkey at 1. rewrite Ht.
    unfold ret at 1, bind at 1, lift. rewrite Hi. unfold ret at 1.
    destruct (n =? 1) eqn:E; [apply Z.eqb_eq in E; contradiction|].
    cbn [negb]. unfold raise at 1. eexists. split; [reflexivity|].
    cbn. auto. }
  destruct Hnext as (w' & Hnext & Hrest). exists w'.
  split; [exact Hnext|]. split; [|exact Hrest].
  cbn [collect]. rewrite Hnext. reflexivity.
Qed.

(** One successful iteration of the loop of [get_records]. *)
Lemma next_yields remote (g : Generator) w res h batch :
  single g = false ->
  finished g = false ->
  truthy (has_next_page g) = true ->
  remote (page_request g) = inr res ->
  HasNextPage res = Some h ->
  Records res = Some batch ->
  next int_of_str remote g w =
    (Ok (Some batch,
         {| url := url g; creds := creds g;
            params := <["page" := VInt (current_page g + 1)]> (params g);
            single := false; has_next_page := h;
            current_page := current_page g + 1; finished := false |}),
     set_net (net w ++ [page_request g]) w).
Proof.
  intros Hs Hf Hh Hr HH HR. unfold next. rewrite Hf, Hh, Hs.
  unfold bind at 1, requests_get_json. fold (page_request g). rewrite Hr.
  unfold bind at 1, ret at 1, bind at 1, getkey at 1. rewrite HH.
  unfold ret at 1, bind at 1, getkey at 1. rewrite HR. reflexivity.
Qed.

Lemma next_stops remote (g : Generator) w :
  finished g = false ->
  truthy (has_next_page g) = false ->
  exists g', next int_of_str remote g w = (Ok (None, g'), w).
Proof.
  intros Hf Hh. unfold next. rewrite Hf, Hh. eexists. reflexivity.
Qed.

Lemma serves_init remote url_part payload pages :
  (1 <= length pages)%nat ->
  feed_of config remote url_part payload pages ->
  serves config remote url_part payload 0 pages
    (get_records config url_part payload false).
Proof.
  intros Hlen Hfeed. unfold serves, get_records.
  cbn [single finished url creds params current_page has_next_page truthy].
  repeat split; auto.
  symmetry. apply bool_decide_eq_true. lia.
Qed.

Lemma serves_nil remote url_part payload c (g : Generator) :
  serves config remote url_part payload c [] g ->
  exists g', forall w : @World Amount,
    next int_of_str remote g w = (Ok (None, g'), w).
Proof.
  intros (_ & Hf & _ & _ & _ & _ & Hh & _).
  unfold next. rewrite Hf, Hh. eexists. intros w. reflexivity.
Qed.

Lemma serves_cons remote url_part payload c batch rest (g : Generator) :
  serves config remote url_part payload c (batch :: rest) g ->
  exists g',
    (forall w : @World Amount,
       next int_of_str remote g w
       = (Ok (Some batch, g'),
          set_net (net w ++ [request_of config url_part payload
                               (Z.of_nat (c + 1))]) w)) /\
    serves config remote url_part payload (S c) rest g'.
Proof.
  intros (Hs & Hf & Hu & Hc & Hp & Hpage & Hh & Hrem).
  destruct (Hrem 0%nat batch eq_refl) as (res & h & Hr & HH & Hth & HR).
  assert (Hreq : page_request g
                 = request_of config url_part payload (Z.of_nat (c + 1))).
  { unfold page_request, request_of. rewrite Hu, Hc, Hp, Hpage.
    do 3 f_equal. lia. }
  replace (c + 0 + 1)%nat with (c + 1)%nat in Hr by lia.
  rewrite <- Hreq in Hr.
  eexists. split.
  - intros w. rewrite <- Hreq.
    apply (next_yields remote g w res h batch Hs Hf Hh Hr HH HR).
  - unfold serves. cbn [single finished url creds params current_page
                        has_next_page].
    repeat split; auto.
    + intros v. rewrite insert_insert_eq. apply Hp.
    + rewrite Hpage. lia.
    + rewrite Hth. cbn [length]. apply bool_decide_ext. lia.
    + intros i b Hi.
      destruct (Hrem (S i) b Hi) as (res' & h' & Hr' & HH' & Hth' & HR').
      exists res', h'. replace (S c + i + 1)%nat with (c + S i + 1)%nat by lia.
      split; [exact Hr'|]. split; [exact HH'|]. split; [|exact HR'].
      rewrite Hth'. cbn [length]. apply bool_decide_ext. lia.
Qed.

(** Consuming the generator to its end. *)
Lemma collect_pages remote url_part payload (rest : list (list Rec)) :
  forall (g : Generator) w (c fuel : nat),
    serves config remote url_part payload c rest g ->
    (length rest < fuel)%nat ->
    collect int_of_str fuel remote g w =
      Some (rest, Ok tt,
            set_net (net w
                     ++ List.map
                          (fun p => request_of config url_part payload
                                      (Z.of_nat p))
                          (seq (c + 1) (length rest))) w).
Proof.
  induction rest as [|batch rest IH]; intros g w c fuel Hsv Hfuel;
    (destruct fuel as [|fuel]; [simpl in Hfuel; lia|]); cbn [collect].
  - destruct (serves_nil _ _ _ _ _ Hsv) as (g' & Hnext). rewrite Hnext.
    cbn [length seq List.map]. rewrite app_nil_r. destruct w; reflexivity.
  - destruct (serves_cons _ _ _ _ _ _ _ Hsv) as (g' & Hnext & Hsv').
    rewrite Hnext, (IH _ _ (S c) fuel Hsv') by (simpl in Hfuel; lia).
    cbn [length seq List.map]. unfold set_net.
    cbn [net sess durable log clock]. rewrite <- app_assoc. cbn [app].
    replace (c + 1)%nat with (S c) by lia.
    replace (S c + 1)%nat with (S (S c)) by lia. reflexivity.
Qed.

(** C7. Over a feed of N >= 1 pages whose continuation flag is true on
    pages 1..N-1 and false on page N, the sequence of [get_records] yields
    exactly the N batches, requests pages 1, 2, ..., N in this order and
    then stops normally; any bound above N on the number of iterations is
    enough. *)
Theorem fetch_yields_every_page remote url_part payload
    (pages : list (list Rec)) w (fuel : nat) :
  (1 <= length pages)%nat ->
  feed_of config remote url_part payload pages ->
  (length pages < fuel)%nat ->
  exists w',
    collect int_of_str fuel remote (get_records config url_part payload false) w
      = Some (pages, Ok tt, w') /\
    net w' =
      net w
      ++ List.map (fun p => request_of config url_part payload (Z.of_nat p))
           (seq 1 (length pages)) /\
    sess w' = sess w /\ durable w' = durable w /\ log w' = log w.
Proof.
  intros Hlen Hfeed Hfuel. eexists. split.
  - apply (collect_pages remote url_part payload pages _ w 0%nat fuel
             (serves_init _ _ _ _ Hlen Hfeed) Hfuel).
  - cbn. auto.
Qed.

(** The local [callback] never lets a [KeyError] of the reconciler out. *)
Lemma callback_absorbs_KeyError (sync_callback : Rec -> M unit) records :
  forall w e w',
    callback sync_callback records w = (Raise e, w') -> is_KeyError e = false.
Proof.
  induction records as [|record records IH]; intros w e w' H.
  - discriminate H.
  - unfold callback in H. cbn [for_each] in H. unfold bind at 1 in H.
    unfold try_except in H.
    destruct (sync_callback record w) as [[[]|e1] w1].
    + apply (IH _ _ _ H).
    + destruct (is_KeyError e1) eqn:Hk.
      * unfold log_invalid_key, logging in H. apply (IH _ _ _ H).
      * injection H as <- _. exact Hk.
Qed.

(** C9. During a sync run, a [KeyError] raised while reconciling one
    record is caught and logged with the name of the failing key, and the
    remaining records of the batch are processed; a failure of any other
    kind ends the batch with that failure, which, like a failure of the
    fetch, is what the run then returns, without another request. *)
Theorem sync_table_isolates_missing_fields (sync_callback : Rec -> M unit) :
  (forall record records w,
     callback sync_callback (record :: records) w =
       match sync_callback record w with
       | (Ok _, w1) => callback sync_callback records w1
       | (Raise (KeyError key), w1) =>
           callback sync_callback records
             (set_log
                (log w1
                 ++ [{| logger := "invoicer_db"; level := "ERROR";
                        message :=
                          "Attempted to access an invalid key for a "
                          +:+ "Nexudus record! Error: '" +:+ key +:+ "'" |}])
                w1)
       | (Raise e, w1) => (Raise e, w1)
       end) /\
  (forall records w e w',
     callback sync_callback records w = (Raise e, w') ->
     is_KeyError e = false) /\
  (forall fuel remote space payload url_part business_var w,
     sync_table int_of_str config (S fuel) remote space sync_callback payload
       url_part business_var w =
       let g :=
         get_records config url_part (<[business_var := space]> payload)
           false in
       match next int_of_str remote g (set_sess (durable w) w) with
       | (Raise e, w1) => Some (Raise e, w1)
       | (Ok (None, _), w1) => Some (Ok tt, w1)
       | (Ok (Some records, g1), w1) =>
           match callback sync_callback records w1 with
           | (Raise e, w2) => Some (Raise e, w2)
           | (Ok _, w2) =>
               for_in int_of_str fuel remote g1 (callback sync_callback) w2
           end
       end).
Proof.
  split; [|split].
  - intros record records w. unfold callback. cbn [for_each].
    unfold bind at 1, try_except.
    destruct (sync_callback record w) as [[[]|e] w1]; [reflexivity|].
    destruct e; reflexivity.
  - intros records w e w'. apply callback_absorbs_KeyError.
  - intros. reflexivity.
Qed.

Lemma callback_cons (sync_callback : Rec -> @M Amount unit) record records w :
  callback sync_callback (record :: records) w =
    match sync_callback record w with
    | (Ok _, w1) => callback sync_callback records w1
    | (Raise e, w1) =>
        if is_KeyError e then
          callback sync_callback records
            (set_log (log w1 ++ [{| logger := "invoicer_db"; level := "ERROR";
                                    message := invalid_key_message e |}]) w1)
        else (Raise e, w1)
    end.
Proof.
  unfold callback. cbn [for_each]. unfold bind at 1, try_except.
  destruct (sync_callback record w) as [[[]|e] w1]; [reflexivity|].
  destruct (is_KeyError e); reflexivity.
Qed.

(** The generator reads the remote and records its requests; its answer
    does not depend on the world. *)
Lemma next_frame remote (g : Generator) :
  exists res reqs, forall w : @World Amount,
    next int_of_str remote g w = (res, set_net (net w ++ reqs) w).
Proof.
  assert (Hid : forall w : @World Amount, w = set_net (net w ++ []) w).
  { intros w. rewrite app_nil_r. destruct w; reflexivity. }
  unfold next. destruct (finished g).
  { eexists _, []. intros w. rewrite <- Hid. reflexivity. }
  destruct (truthy (has_next_page g)).
  2:{ eexists _, []. intros w. rewrite <- Hid. reflexivity. }
  unfold bind at 1, requests_get_json. fold (page_request g).
  destruct (remote (page_request g)) as [e|res].
  { eexists _, [_]. intros w. reflexivity. }
  assert (Hchk : exists r : Res unit, forall w : @World Amount,
    (if single g
     then bind (getkey (TotalItems res) "TotalItems")
            (fun total => bind (lift (py_int int_of_str total))
               (fun n => if negb (n =? 1)
                         then raise MultipleResultsFoundException
                         else ret tt))
     else ret tt) w = (r, w)).
  { destruct (single g); [|eexists; intros; reflexivity].
    destruct (TotalItems res) as [total|]; [|eexists; intros; reflexivity].
    cbv [bind getkey lift ret raise].
    destruct (py_int int_of_str total) as [e|n];
      [eexists; intros; reflexivity|].
    destruct (negb (n =? 1)); eexists; intros w; reflexivity. }
  destruct Hchk as (r & Hr).
  destruct r as [[]|e].
  2:{ eexists _, [_]. intros w. unfold bind at 1. rewrite Hr. reflexivity. }
  destruct (HasNextPage res) as [h|].
  2:{ eexists _, [_]. intros w. unfold bind at 1. rewrite Hr. reflexivity. }
  destruct (Records res) as [records|].
  2:{ eexists _, [_]. intros w. unfold bind at 1. rewrite Hr. reflexivity. }
  eexists _, [_]. intros w. unfold bind at 1. rewrite Hr. reflexivity.
Qed.

Section Run.

Context {S : Type}.
Variable view : @World Amount -> S.
Variable sync_callback : Rec -> @M Amount unit.
Variable step : Rec -> S -> S * option Exn.

Hypothesis view_log : forall l w, view (set_log l w) = view w.
Hypothesis view_net : forall n w, view (set_net n w) = view w.
Hypothesis step_sound : forall record w,
  step record (view w)
  = (view (snd (sync_callback record w)), fatal (fst (sync_callback record w))).

Lemma callback_run_list records : forall w,
  run_list step records (view w)
  = (view (snd (callback sync_callback records w)),
     fatal (fst (callback sync_callback records w))) /\
  (forall e, fst (callback sync_callback records w) = Raise e ->
             fatal (fst (callback sync_callback records w)) = Some e).
Proof.
  induction records as [|record records IH]; intros w.
  - split; [reflexivity|]. intros e H. discriminate H.
  - cbn [run_list]. rewrite step_sound, callback_cons.
    destruct (sync_callback record w) as [[[]|e] w1]; cbn [fst snd fatal].
    + apply IH.
    + destruct (is_KeyError e) eqn:Hk.
      * specialize (IH (set_log (log w1 ++ [{| logger := "invoicer_db";
                                  level := "ERROR";
                                  message := invalid_key_message e |}]) w1)).
        rewrite view_log in IH. apply IH.
      * cbn [fst snd fatal]. rewrite Hk. split; [reflexivity|].
        intros e' [= <-]. reflexivity.
Qed.

Lemma run_list_app l1 l2 s :
  run_list step (l1 ++ l2) s =
    match run_list step l1 s with
    | (s', None) => run_list step l2 s'
    | (s', Some e) => (s', Some e)
    end.
Proof.
  revert s. induction l1 as [|r l1 IH]; intros s; cbn [run_list app].
  - reflexivity.
  - destruct (step r s) as [s' [e|]]; [reflexivity|apply IH].
Qed.

(** A run processes a list of records; a second run over the same feed
    processes the same list, as long as it does not go on where the first
    one was stopped. *)
Lemma for_in_trace remote fuel : forall (g : Generator) w r w',
  for_in int_of_str fuel remote g (callback sync_callback) w = Some (r, w') ->
  exists records ab,
    run_list step records (view w) = (view w', ab) /\
    forall w2 s2 ab2,
      run_list step records (view w2) = (s2, ab2) ->
      ab = None \/ ab2 <> None ->
      exists r2 w2',
        for_in int_of_str fuel remote g (callback sync_callback) w2
          = Some (r2, w2') /\
        view w2' = s2.
Proof.
  induction fuel as [|fuel IH]; intros g w r w' H; [discriminate H|].
  cbn [for_in] in H.
  destruct (next_frame remote g) as (res & reqs & Hnext).
  rewrite Hnext in H.
  destruct res as [[[batch|] g1]|e].
  - pose proof (callback_run_list batch (set_net (net w ++ reqs) w))
      as [Hb Hraise].
    rewrite view_net in Hb.
    destruct (callback sync_callback batch (set_net (net w ++ reqs) w))
      as [[[]|e] w1] eqn:Hcb; cbn [fst snd fatal] in Hb, Hraise.
    + destruct (IH _ _ _ _ H) as (records & ab & Hrun & Hreplay).
      exists (batch ++ records), ab. split.
      * rewrite run_list_app, Hb. exact Hrun.
      * intros w2 s2 ab2 H2 Hab. cbn [for_in]. rewrite Hnext.
        pose proof (callback_run_list batch (set_net (net w2 ++ reqs) w2))
          as [Hb2 Hraise2].
        rewrite view_net in Hb2. rewrite run_list_app, Hb2 in H2.
        destruct (callback sync_callback batch (set_net (net w2 ++ reqs) w2))
          as [[[]|e2] w21]; cbn [fst snd fatal] in *.
        -- apply (Hreplay _ _ _ H2 Hab).
        -- specialize (Hraise2 e2 eq_refl). rewrite Hraise2 in H2.
           injection H2 as <- <-. eexists _, _. split; reflexivity.
    + injection H as <- <-.
      specialize (Hraise e eq_refl). rewrite Hraise in Hb.
      exists batch, (Some e). split; [exact Hb|].
      intros w2 s2 ab2 H2 [Hab|Hab]; [discriminate Hab|].
      cbn [for_in]. rewrite Hnext.
      pose proof (callback_run_list batch (set_net (net w2 ++ reqs) w2))
        as [Hb2 Hraise2].
      rewrite view_net, H2 in Hb2.
      destruct (callback sync_callback batch (set_net (net w2 ++ reqs) w2))
        as [[[]|e2] w21]; cbn [fst snd fatal] in *.
      * injection Hb2 as _ ->. contradiction.
      * injection Hb2 as -> _. eexists _, _. split; reflexivity.
  - injection H as <- <-. exists [], None. split.
    + cbn [run_list]. rewrite view_net. reflexivity.
    + intros w2 s2 ab2 H2 _. cbn [run_list] in H2. injection H2 as <- <-.
      cbn [for_in]. rewrite Hnext. eexists _, _. split; [reflexivity|].
      apply view_net.
  - injection H as <- <-. exists [], None. split.
    + cbn [run_list]. rewrite view_net. reflexivity.
    + intros w2 s2 ab2 H2 _. cbn [run_list] in H2. injection H2 as <- <-.
      cbn [for_in]. rewrite Hnext. eexists _, _. split; [reflexivity|].
      apply view_net.
Qed.

(** A run that ends normally over a feed has gone through every record of
    every page. *)
Lemma for_in_feed remote url_part payload pages :
  forall (g : Generator) (c fuel : nat) w w',
    serves config remote url_part payload c pages g ->
    for_in int_of_str fuel remote g (callback sync_callback) w
      = Some (Ok tt, w') ->
    run_list step (concat pages) (view w) = (view w', None).
Proof.
  induction pages as [|batch pages IH]; intros g c fuel w w' Hsv H;
    (destruct fuel as [|fuel]; [discriminate H|]); cbn [for_in] in H.
  - destruct (serves_nil _ _ _ _ _ Hsv) as (g' & Hnext).
    rewrite Hnext in H. injection H as <-. reflexivity.
  - destruct (serves_cons _ _ _ _ _ _ _ Hsv) as (g' & Hnext & Hsv').
    rewrite Hnext in H. cbn [concat]. rewrite run_list_app.
    match type of H with
    | context [callback sync_callback batch ?w0] =>
        pose proof (callback_run_list batch w0) as [Hb _];
        rewrite view_net in Hb;
        destruct (callback sync_callback batch w0) as [[[]|e] w1]
    end; [|discriminate H].
    cbn [fst snd fatal] in Hb. rewrite Hb. apply (IH _ _ _ _ _ Hsv' H).
Qed.

End Run.

(** ** Patches *)

Lemma member_ext m1 m2 : (forall f, get f m1 = get f m2) -> m1 = m2.
Proof.
  intros H. destruct m1, m2.
  pose proof (H F_nexudus_user_id). pose proof (H F_fullname).
  pose proof (H F_billing_name). pose proof (H F_email).
  pose proof (H F_routing_number). pose proof (H F_account_number).
  pose proof (H F_process_automatically). simpl in *. congruence.
Qed.

Lemma get_assign f a m :
  get f (assign a m) = if decide (f = fst a) then snd a else get f m.
Proof. destruct a as [f' v], m, f, f'; reflexivity. Qed.

Lemma get_overwrite p : forall f m,
  get f (overwrite p m) = default (get f m) (final p f).
Proof.
  induction p as [|a p IH]; intros f m; [reflexivity|].
  unfold overwrite in *. cbn [fold_left final]. rewrite IH.
  destruct (final p f); [reflexivity|].
  rewrite get_assign. destruct (decide (f = fst a)); reflexivity.
Qed.

Lemma overwrite_app p q m :
  overwrite (p ++ q) m = overwrite q (overwrite p m).
Proof. unfold overwrite. apply fold_left_app. Qed.

Lemma final_app p q f :
  final (p ++ q) f =
    match final q f with Some v => Some v | None => final p f end.
Proof.
  induction p as [|a p IH]; cbn [app final].
  - destruct (final q f); reflexivity.
  - rewrite IH. destruct (final q f); reflexivity.
Qed.

(** Re-applying a patch after a patch that left the row alone. *)
Lemma overwrite_stable p q m :
  overwrite q m = m ->
  overwrite p (overwrite q (overwrite p m)) = overwrite p m.
Proof.
  intros Hq. apply member_ext. intros f. rewrite !get_overwrite.
  destruct (final p f) as [c|]; [reflexivity|]. cbn [default from_option].
  rewrite <- get_overwrite, Hq. reflexivity.
Qed.

(** A patch all of whose assignments another patch makes last changes
    nothing after it. *)
Lemma overwrite_absorbed p q m :
  (forall f c, final p f = Some c -> final q f = Some c) ->
  overwrite p (overwrite q m) = overwrite q m.
Proof.
  intros Hsub. apply member_ext. intros f. rewrite !get_overwrite.
  destruct (final p f) as [c|] eqn:Hp; [|reflexivity].
  rewrite (Hsub _ _ Hp). reflexivity.
Qed.

Ltac patch_cases record :=
  unfold member_patch;
  destruct (record !! "Id") as [?k|]; [|try discriminate];
  try (destruct (record !! "FullName") as [fn|];
       [destruct (record !! "BillingName") as [bn|];
        [destruct (record !! "Email") as [em|];
         [destruct (record !! "BankBranch") as [br|];
          [destruct (record !! "BankAccount") as [ba|];
           [destruct (ach_populated br ba) as [?e|[|]]; [|destruct em..]
           |]|]|]|]|]).

Lemma member_patch_key record stored k :
  record !! "Id" = Some k ->
  final (fst (member_patch config record stored)) F_nexudus_user_id = Some k.
Proof.
  intros H. revert H. patch_cases record; intros [= ->]; destruct stored;
    reflexivity.
Qed.

Lemma member_patch_stored_sub record f c :
  final (fst (member_patch config record true)) f = Some c ->
  final (fst (member_patch config record false)) f = Some c.
Proof.
  patch_cases record; cbn [fst]; try (intros H; exact H);
    destruct f; cbv; intros H; try exact H; try discriminate H.
Qed.

(** ** Rows under one reconciliation *)

Lemma find_all_nil_filter {A} (p : A -> bool) (l : list A) o :
  find_all p l o = [] -> List.filter p l = [].
Proof.
  intros H. apply length_zero_iff_nil.
  rewrite <- (find_all_length p l o), H. reflexivity.
Qed.

Lemma filter_nil_map_if {A} (p : A -> bool) (f : A -> A) (l : list A) :
  List.filter p l = [] -> List.map (fun x => if p x then f x else x) l = l.
Proof.
  induction l as [|x l IH]; cbn [List.filter List.map]; [reflexivity|].
  destruct (p x); [discriminate|]. intros H. f_equal. apply IH, H.
Qed.

Lemma filter_nil_negb {A} (p : A -> bool) (l : list A) :
  List.filter p l = [] -> List.filter (fun x => negb (p x)) l = l.
Proof.
  induction l as [|x l IH]; cbn [List.filter]; [reflexivity|].
  destruct (p x); [discriminate|]. intros H. cbn [negb]. f_equal. apply IH, H.
Qed.

(** Updating the only match through its reference is a map over the
    table. *)
Lemma alter_only_match {A} (p : A -> bool) (f : A -> A) (l : list A) :
  forall o i,
    find_all p l o = [i] ->
    alter f (i - o)%nat l = List.map (fun x => if p x then f x else x) l.
Proof.
  induction l as [|x l IH]; intros o i H; [discriminate H|].
  cbn [find_all] in H. cbn [List.map]. destruct (p x) eqn:Hp.
  - injection H as <- Hnil. rewrite Nat.sub_diag. cbn.
    f_equal. symmetry. apply filter_nil_map_if.
    apply (find_all_nil_filter _ _ _ Hnil).
  - assert (Hle : (S o <= i)%nat).
    { destruct (find_all_lookup p l (S o) i) as (_ & _ & _ & Hle);
        [rewrite H; left; reflexivity|exact Hle]. }
    replace (i - o)%nat with (S (i - S o)) by lia. cbn. f_equal.
    apply IH, H.
Qed.

Lemma filter_map_same {A} (p : A -> bool) (f : A -> A) (l : list A) :
  (forall x, p (f x) = p x) ->
  List.filter p (List.map f l) = List.map f (List.filter p l).
Proof.
  intros Hf. induction l as [|x l IH]; cbn [List.map List.filter];
    [reflexivity|].
  rewrite Hf. destruct (p x); cbn [List.map]; [f_equal|]; exact IH.
Qed.

Lemma member_has_key k m :
  member_has k m = true <-> Member.nexudus_user_id m = k.
Proof. unfold member_has. apply bool_decide_eq_true. Qed.

Lemma overwrite_key record stored k m :
  record !! "Id" = Some k ->
  Member.nexudus_user_id (overwrite (fst (member_patch config record stored)) m)
  = k.
Proof.
  intros H. change (get F_nexudus_user_id
                      (overwrite (fst (member_patch config record stored)) m)
                    = k).
  rewrite get_overwrite, (member_patch_key _ _ _ H). reflexivity.
Qed.

Lemma on_key_has record k k' m :
  record !! "Id" = Some k ->
  member_has k'
    (on_key k (overwrite (fst (member_patch config record true))) m)
  = member_has k' m.
Proof.
  intros H. unfold on_key. destruct (member_has k m) eqn:Hk; [|reflexivity].
  apply member_has_key in Hk. unfold member_has.
  rewrite (overwrite_key _ _ _ _ H), Hk. reflexivity.
Qed.

Lemma member_step_found record k rows :
  record !! "Id" = Some k ->
  length (members_with k rows) = 1%nat ->
  member_step config record rows =
    List.map (on_key k (overwrite (fst (member_patch config record true))))
      rows.
Proof.
  intros HId Hc. unfold member_step. rewrite HId.
  unfold members_with in Hc. rewrite <- (find_all_length _ _ 0%nat) in Hc.
  destruct (find_all (member_has k) rows 0%nat) as [|i [|j l]] eqn:Hf;
    try discriminate Hc.
  unfold on_key.
  rewrite <- (alter_only_match _ _ _ 0%nat i Hf), Nat.sub_0_r. reflexivity.
Qed.

Lemma member_step_fresh record k rows :
  record !! "Id" = Some k ->
  length (members_with k rows) <> 1%nat ->
  member_step config record rows =
    List.filter (fun m => negb (member_has k m)) rows
    ++ [overwrite (fst (member_patch config record false)) Member.new].
Proof.
  intros HId Hc. unfold member_step. rewrite HId.
  unfold members_with in Hc. rewrite <- (find_all_length _ _ 0%nat) in Hc.
  destruct (find_all (member_has k) rows 0%nat) as [|i [|j l]] eqn:Hf.
  - rewrite (filter_nil_negb _ _ (find_all_nil_filter _ _ _ Hf)). reflexivity.
  - contradiction Hc. reflexivity.
  - reflexivity.
Qed.

Lemma filter_has_negb k rows :
  List.filter (member_has k) (List.filter (fun m => negb (member_has k m)) rows)
  = [].
Proof.
  induction rows as [|m rows IH]; cbn [List.filter]; [reflexivity|].
  destruct (member_has k m) eqn:Hm; cbn [negb List.filter]; [exact IH|].
  rewrite Hm. exact IH.
Qed.

Lemma filter_has_other k k' rows :
  k' <> k ->
  List.filter (member_has k')
    (List.filter (fun m => negb (member_has k m)) rows)
  = List.filter (member_has k') rows.
Proof.
  intros Hne. induction rows as [|m rows IH]; cbn [List.filter];
    [reflexivity|].
  destruct (member_has k m) eqn:Hm; cbn [negb List.filter].
  - apply member_has_key in Hm.
    assert (Hm' : member_has k' m = false).
    { unfold member_has. apply bool_decide_eq_false. congruence. }
    rewrite Hm'. exact IH.
  - destruct (member_has k' m); [f_equal|]; exact IH.
Qed.

(** After a record is reconciled its remote id has exactly one row. *)
Lemma member_step_count record k rows :
  record !! "Id" = Some k ->
  length (members_with k (member_step config record rows)) = 1%nat.
Proof.
  intros HId.
  destruct (Nat.eq_dec (length (members_with k rows)) 1%nat) as [Hc|Hc].
  - rewrite (member_step_found _ _ _ HId Hc). unfold members_with.
    rewrite filter_map_same by (intros; apply (on_key_has _ _ _ _ HId)).
    rewrite length_map. exact Hc.
  - rewrite (member_step_fresh _ _ _ HId Hc). unfold members_with.
    rewrite List.filter_app, filter_has_negb. cbn [List.filter app].
    assert (H : member_has k
              (overwrite (fst (member_patch config record false)) Member.new)
              = true).
    { apply member_has_key, overwrite_key, HId. }
    rewrite H. reflexivity.
Qed.

(** The rows of every other remote id are as many as before. *)
Lemma member_step_count_other record k k' rows :
  record !! "Id" = Some k -> k' <> k ->
  length (members_with k' (member_step config record rows))
  = length (members_with k' rows).
Proof.
  intros HId Hne.
  destruct (Nat.eq_dec (length (members_with k rows)) 1%nat) as [Hc|Hc].
  - rewrite (member_step_found _ _ _ HId Hc). unfold members_with.
    rewrite filter_map_same by (intros; apply (on_key_has _ _ _ _ HId)).
    apply length_map.
  - rewrite (member_step_fresh _ _ _ HId Hc). unfold members_with.
    rewrite List.filter_app, (filter_has_other _ _ _ Hne). cbn [List.filter].
    assert (H : member_has k'
              (overwrite (fst (member_patch config record false)) Member.new)
              = false).
    { unfold member_has. apply bool_decide_eq_false.
      rewrite (overwrite_key _ _ _ _ HId). congruence. }
    rewrite H, app_nil_r. reflexivity.
Qed.

(** ** Replaying a list of Member records *)

Lemma member_steps_snoc records record rows :
  member_steps config (records ++ [record]) rows
  = member_step config record (member_steps config records rows).
Proof. unfold member_steps. rewrite fold_left_app. reflexivity. Qed.

Lemma member_steps_cons record records rows :
  member_steps config (record :: records) rows
  = member_steps config records (member_step config record rows).
Proof. reflexivity. Qed.

Lemma member_step_no_key record rows :
  record !! "Id" = None -> member_step config record rows = rows.
Proof. intros H. unfold member_step. rewrite H. reflexivity. Qed.

Lemma key_patch_app l1 l2 k :
  key_patch config (l1 ++ l2) k
  = key_patch config l1 k ++ key_patch config l2 k.
Proof.
  induction l1 as [|r l1 IH]; cbn [app key_patch]; [reflexivity|].
  rewrite IH, app_assoc. reflexivity.
Qed.

Lemma key_patch_key records k c :
  final (key_patch config records k) F_nexudus_user_id = Some c -> c = k.
Proof.
  induction records as [|r records IH]; cbn [key_patch final];
    [discriminate|].
  rewrite final_app.
  destruct (final (key_patch config records k) F_nexudus_user_id) as [c'|].
  - intros [= <-]. apply IH. reflexivity.
  - destruct (decide (r !! "Id" = Some k)) as [Hk|Hk]; [|discriminate].
    rewrite (member_patch_key _ _ _ Hk). intros [= <-]. reflexivity.
Qed.

Lemma key_patch_nil records k :
  (forall record, In record records -> record !! "Id" <> Some k) ->
  key_patch config records k = [].
Proof.
  induction records as [|r records IH]; intros H; cbn [key_patch];
    [reflexivity|].
  destruct (decide (r !! "Id" = Some k)) as [Hk|Hk].
  - exfalso. apply (H r); [left; reflexivity|exact Hk].
  - apply IH. intros r' Hr'. apply H. right. exact Hr'.
Qed.

Lemma overwrite_key_patch_key records k m :
  Member.nexudus_user_id m = k ->
  Member.nexudus_user_id (overwrite (key_patch config records k) m) = k.
Proof.
  intros Hm.
  change (get F_nexudus_user_id (overwrite (key_patch config records k) m)
          = k).
  rewrite get_overwrite.
  destruct (final (key_patch config records k) F_nexudus_user_id) as [c|]
    eqn:Hc; [|exact Hm].
  apply (key_patch_key _ _ _ Hc).
Qed.

Lemma settle_cons_key record records k m :
  record !! "Id" = Some k ->
  settle config (record :: records) m
  = settle config records
      (on_key k (overwrite (fst (member_patch config record true))) m).
Proof.
  intros HId. unfold settle, on_key. cbn [key_patch].
  rewrite overwrite_app, HId.
  destruct (decide (Some k = Some (Member.nexudus_user_id m))) as [Hk|Hk].
  - injection Hk as Hk.
    assert (Hm : member_has k m = true) by (apply member_has_key; congruence).
    rewrite Hm, (overwrite_key _ _ _ _ HId), Hk. reflexivity.
  - assert (Hm : member_has k m = false).
    { unfold member_has. apply bool_decide_eq_false. congruence. }
    rewrite Hm. reflexivity.
Qed.

Lemma settle_cons_no_key record records m :
  record !! "Id" = None ->
  settle config (record :: records) m = settle config records m.
Proof.
  intros HId. unfold settle. cbn [key_patch]. rewrite HId.
  destruct (decide (None = Some (Member.nexudus_user_id m)));
    [discriminate|reflexivity].
Qed.

Lemma settle_snoc records record m :
  settle config (records ++ [record]) m =
    if decide (record !! "Id" = Some (Member.nexudus_user_id m))
    then overwrite (fst (member_patch config record true))
           (settle config records m)
    else settle config records m.
Proof.
  unfold settle. rewrite key_patch_app, overwrite_app. cbn [key_patch].
  rewrite app_nil_r.
  destruct (decide (record !! "Id" = Some (Member.nexudus_user_id m)));
    reflexivity.
Qed.

(** Once every remote id of the list has one row, the list acts row by
    row. *)
Lemma member_steps_settle records : forall rows,
  (forall record k,
     In record records -> record !! "Id" = Some k ->
     length (members_with k rows) = 1%nat) ->
  member_steps config records rows = List.map (settle config records) rows.
Proof.
  induction records as [|r records IH]; intros rows Hc.
  - cbn. symmetry. rewrite <- (map_id rows) at 2. apply map_ext.
    intros m. reflexivity.
  - rewrite member_steps_cons.
    destruct (r !! "Id") as [k|] eqn:HId.
    + rewrite (member_step_found _ _ _ HId (Hc r k (or_introl eq_refl) HId)).
      rewrite IH.
      * rewrite map_map. apply map_ext. intros m. symmetry.
        apply settle_cons_key, HId.
      * intros r' k' Hr' HId'. unfold members_with.
        rewrite filter_map_same by (intros; apply (on_key_has _ _ _ _ HId)).
        rewrite length_map. apply (Hc r' k'); [right; exact Hr'|exact HId'].
    + rewrite (member_step_no_key _ _ HId), IH.
      * apply map_ext. intros m. symmetry. apply settle_cons_no_key, HId.
      * intros r' k' Hr' HId'. apply (Hc r' k'); [right; exact Hr'|exact HId'].
Qed.

Lemma steady_snoc records record rows :
  steady config records rows ->
  steady config (records ++ [record]) (member_step config record rows).
Proof.
  intros [Hc Hs]. destruct (record !! "Id") as [k|] eqn:HId.
  2:{ rewrite (member_step_no_key _ _ HId). split.
      - intros r' k' Hr' HId'. apply in_app_or in Hr' as [Hr'|[<-|[]]].
        + apply (Hc r' k' Hr' HId').
        + congruence.
      - intros m Hm. rewrite settle_snoc, HId.
        destruct (decide (None = Some (Member.nexudus_user_id m)));
          [discriminate|]. apply Hs, Hm. }
  split.
  - intros r' k' Hr' HId'. destruct (decide (k' = k)) as [->|Hne].
    + apply member_step_count, HId.
    + rewrite (member_step_count_other _ _ _ _ HId Hne).
      apply in_app_or in Hr' as [Hr'|[<-|[]]].
      * apply (Hc r' k' Hr' HId').
      * congruence.
  - intros m' Hm'. rewrite settle_snoc, HId.
    destruct (Nat.eq_dec (length (members_with k rows)) 1%nat) as [Hk|Hk].
    + rewrite (member_step_found _ _ _ HId Hk) in Hm'.
      apply in_map_iff in Hm' as (m & <- & Hm). unfold on_key.
      destruct (member_has k m) eqn:Hhas.
      * apply member_has_key in Hhas.
        rewrite (overwrite_key _ _ _ _ HId).
        destruct (decide (Some k = Some k)) as [_|Hn]; [|contradiction].
        unfold settle. rewrite (overwrite_key _ _ _ _ HId).
        apply overwrite_stable.
        specialize (Hs m Hm). unfold settle in Hs. rewrite Hhas in Hs.
        exact Hs.
      * destruct (decide (Some k = Some (Member.nexudus_user_id m)))
          as [Heq|_]; [|apply Hs, Hm].
        injection Heq as Heq. symmetry in Heq.
        apply member_has_key in Heq. congruence.
    + rewrite (member_step_fresh _ _ _ HId Hk) in Hm'.
      apply in_app_or in Hm' as [Hm'|[<-|[]]].
      * apply filter_In in Hm' as [Hm' Hneg].
        destruct (decide (Some k = Some (Member.nexudus_user_id m')))
          as [Heq|_]; [|apply Hs, Hm'].
        injection Heq as Heq. symmetry in Heq.
        apply member_has_key in Heq. rewrite Heq in Hneg. discriminate.
      * rewrite (overwrite_key _ _ _ _ HId).
        destruct (decide (Some k = Some k)) as [_|Hn]; [|contradiction].
        unfold settle. rewrite (overwrite_key _ _ _ _ HId).
        rewrite key_patch_nil.
        -- cbn [overwrite fold_left]. apply overwrite_absorbed.
           apply member_patch_stored_sub.
        -- intros r' Hr' HId'. apply Hk. apply (Hc r' k Hr' HId').
Qed.

Lemma steady_member_steps records : forall rows,
  steady config records (member_steps config records rows).
Proof.
  induction records as [|r records IH] using rev_ind; intros rows.
  - split; [intros ? ? []|]. intros m _. reflexivity.
  - rewrite member_steps_snoc. apply steady_snoc, IH.
Qed.

(** Replaying a list of records over the rows it produced changes
    nothing. *)
Lemma member_steps_idempotent records rows :
  member_steps config records (member_steps config records rows)
  = member_steps config records rows.
Proof.
  destruct (steady_member_steps records rows) as [Hc Hs].
  rewrite (member_steps_settle _ _ Hc).
  rewrite <- (map_id (member_steps config records rows)) at 2.
  apply map_ext_in. exact Hs.
Qed.

(** ** A Member run on the database *)

Lemma member_db_step_sound record w :
  member_db_step config record (db w)
  = (db (snd (add_or_overwrite_member config record w)),
     fatal (fst (add_or_overwrite_member config record w))).
Proof.
  pose proof (add_or_overwrite_member_sound record w) as H.
  destruct (add_or_overwrite_member config record w) as [res w'].
  destruct H as (-> & Hmem & Hinv & Hdur & _).
  assert (Hs : sess w'
               = set_members (member_step config record (members (sess w)))
                   (sess w)).
  { apply store_eq; [exact Hmem|exact Hinv]. }
  unfold member_db_step, db. cbn [fst snd]. rewrite <- Hs.
  destruct (member_result config record) as [[]|e]; rewrite Hdur; reflexivity.
Qed.

(** Whether and how a Member run is cut short depends on the records
    alone. *)
Lemma member_run_fatal records :
  forall s1 s2 : @Store Amount * @Store Amount,
  snd (run_list (member_db_step config) records s1)
  = snd (run_list (member_db_step config) records s2).
Proof.
  induction records as [|r records IH]; intros s1 s2; [reflexivity|].
  cbn [run_list]. unfold member_db_step at 1 3.
  destruct (member_result config r) as [[]|e]; cbn [fatal].
  - apply IH.
  - destruct (is_KeyError e); [apply IH|reflexivity].
Qed.

(** The committed rows after a run are the session rows after the last
    record that committed. *)
Lemma member_run_durable records : forall v d : @Store Amount,
  snd (fst (run_list (member_db_step config) records (v, d))) =
    match committed_prefix config records with
    | [] => d
    | l => set_members (member_steps config l (members v)) v
    end.
Proof.
  induction records as [|r records IH]; intros v d; [reflexivity|].
  cbn [run_list committed_prefix]. unfold member_db_step at 1. cbn [fst snd].
  destruct (member_result config r) as [[]|e]; cbn [fatal].
  - rewrite IH. cbn [members]. rewrite member_steps_cons.
    destruct (committed_prefix config records); reflexivity.
  - destruct (is_KeyError e); [|reflexivity]. rewrite IH.
    cbn [members]. 
    destruct (committed_prefix config records); [reflexivity|].
    rewrite member_steps_cons. reflexivity.
Qed.

(** Idempotence of a Member run on the database. *)
Lemma member_run_idempotent records (d0 : @Store Amount) :
  let d1 := snd (fst (run_list (member_db_step config) records (d0, d0))) in
  snd (fst (run_list (member_db_step config) records (d1, d1))) = d1.
Proof.
  cbv zeta. rewrite !member_run_durable.
  destruct (committed_prefix config records) as [|r l]; [reflexivity|].
  cbn [members set_members]. rewrite member_steps_idempotent. reflexivity.
Qed.

Lemma member_sync_idempotent fuel remote space w r1 w1 :
  sync_member_table int_of_str config fuel remote space w = Some (r1, w1) ->
  exists r2 w2,
    sync_member_table int_of_str config fuel remote space w1 = Some (r2, w2) /\
    durable w2 = durable w1.
Proof.
  unfold sync_member_table, sync_table, sm, process_batch. intros H.
  destruct (for_in_trace db (add_or_overwrite_member config)
              (member_db_step config) (fun _ _ => eq_refl)
              (fun _ _ => eq_refl) member_db_step_sound _ _ _ _ _ _ H)
    as (records & ab & Hrun & Hreplay).
  unfold db at 1 in Hrun. cbn [sess durable set_sess] in Hrun.
  pose proof (member_run_idempotent records (durable w)) as Hidem.
  cbv zeta in Hidem. rewrite Hrun in Hidem. cbn [fst snd db] in Hidem.
  destruct (run_list (member_db_step config) records (durable w1, durable w1))
    as [s2 ab2] eqn:Hrun2.
  destruct (Hreplay (set_sess (durable w1) w1) s2 ab2) as (r2 & w2 & H2 & Hv).
  - exact Hrun2.
  - pose proof (member_run_fatal records (durable w, durable w)
                  (durable w1, durable w1)) as Hf.
    rewrite Hrun, Hrun2 in Hf. cbn [snd] in Hf. subst ab2.
    destruct ab; [right; discriminate|left; reflexivity].
  - exists r2, w2. split; [exact H2|].
    cbn [fst snd] in Hidem. rewrite <- Hidem, <- Hv. reflexivity.
Qed.

(** ** Invoice rows under one reconciliation *)

Lemma invoice_has_key k (i : Invoice.t Amount) :
  invoice_has k i = true <-> Invoice.nexudus_invoice_id i = k.
Proof. unfold invoice_has. apply bool_decide_eq_true. Qed.

Lemma filter_invoice_negb k (rows : list (Invoice.t Amount)) :
  List.filter (invoice_has k)
    (List.filter (fun i => negb (invoice_has k i)) rows) = [].
Proof.
  induction rows as [|i rows IH]; cbn [List.filter]; [reflexivity|].
  destruct (invoice_has k i) eqn:Hi; cbn [negb List.filter]; [exact IH|].
  rewrite Hi. exact IH.
Qed.

Lemma filter_invoice_other k k' (rows : list (Invoice.t Amount)) :
  k' <> k ->
  List.filter (invoice_has k')
    (List.filter (fun i => negb (invoice_has k i)) rows)
  = List.filter (invoice_has k') rows.
Proof.
  intros Hne. induction rows as [|i rows IH]; cbn [List.filter];
    [reflexivity|].
  destruct (invoice_has k i) eqn:Hi; cbn [negb List.filter].
  - apply invoice_has_key in Hi.
    assert (Hi' : invoice_has k' i = false).
    { unfold invoice_has. apply bool_decide_eq_false. congruence. }
    rewrite Hi'. exact IH.
  - destruct (invoice_has k' i); [f_equal|]; exact IH.
Qed.

Lemma new_invoice_creation record t :
  match new_invoice pyfloat record t with
  | Ok inv =>
      creation pyfloat record = Ok tt /\
      Invoice.nexudus_invoice_id inv = default VNone (record !! "Id")
  | Raise e => creation pyfloat record = Raise e
  end.
Proof.
  unfold creation, new_invoice.
  destruct (record !! "Id"); [|reflexivity].
  destruct (record !! "CoworkerId"); [|reflexivity].
  destruct (record !! "BusinessId"); [|reflexivity].
  destruct (record !! "TotalAmount") as [total|]; [|reflexivity].
  destruct (pyfloat total); [reflexivity|]. split; reflexivity.
Qed.

(** A record that does not reach the lookup changes nothing. *)
Lemma invoice_step_skip record t mrows irows :
  (forall k, ~ targets mrows record k) ->
  exists res,
    invoice_step pyfloat record t mrows irows = (irows, res, false) /\
    fatal res = None.
Proof.
  intros Hn. unfold invoice_step. unfold targets in Hn.
  assert (Hg : invoice_gate record mrows = Raise (KeyError "CoworkerId")
               \/ exists b, invoice_gate record mrows = Ok b).
  { unfold invoice_gate. destruct (record !! "CoworkerId"); [right|left; auto].
    destruct (find_all _ mrows 0%nat) as [|? [|? ?]]; eexists; reflexivity. }
  destruct Hg as [->|[[|] Hg]]; rewrite ?Hg.
  - eexists. split; reflexivity.
  - eexists. split; reflexivity.
  - destruct (record !! "Id") as [k|] eqn:HId.
    + exfalso. apply (Hn k). auto.
    + eexists. split; reflexivity.
Qed.

Lemma invoice_step_found record t mrows irows k :
  targets mrows record k ->
  length (invoices_with k irows) = 1%nat ->
  invoice_step pyfloat record t mrows irows = (irows, Ok tt, false).
Proof.
  intros [Hg HId] Hc. unfold invoice_step. rewrite Hg, HId.
  unfold invoices_with in Hc. rewrite <- (find_all_length _ _ 0%nat) in Hc.
  destruct (find_all (invoice_has k) irows 0%nat) as [|i [|j l]];
    try discriminate Hc. reflexivity.
Qed.

Lemma invoice_step_create record t mrows irows k :
  targets mrows record k ->
  length (invoices_with k irows) <> 1%nat ->
  invoice_step pyfloat record t mrows irows =
    let irows1 := List.filter (fun i => negb (invoice_has k i)) irows in
    match new_invoice pyfloat record t with
    | Raise e => (irows1, Raise e, false)
    | Ok inv => (irows1 ++ [inv], Ok tt, true)
    end.
Proof.
  intros [Hg HId] Hc. unfold invoice_step. rewrite Hg, HId.
  unfold invoices_with in Hc. rewrite <- (find_all_length _ _ 0%nat) in Hc.
  destruct (find_all (invoice_has k) irows 0%nat) as [|i [|j l]] eqn:Hf.
  - cbv zeta. rewrite (filter_nil_negb _ _ (find_all_nil_filter _ _ _ Hf)).
    reflexivity.
  - contradiction Hc. reflexivity.
  - reflexivity.
Qed.

Lemma targets_key mrows record k k' :
  targets mrows record k -> targets mrows record k' -> k' = k.
Proof. intros [_ H] [_ H']. congruence. Qed.

Lemma targets_dec mrows record :
  (exists k, targets mrows record k) \/ (forall k, ~ targets mrows record k).
Proof.
  unfold targets. destruct (invoice_gate record mrows) as [[|]|e].
  - right. intros k [H _]. discriminate H.
  - destruct (record !! "Id") as [k|].
    + left. exists k. auto.
    + right. intros k [_ H]. discriminate H.
  - right. intros k [H _]. discriminate H.
Qed.

Lemma set_invoices_same (v : @Store Amount) : set_invoices (invoices v) v = v.
Proof. destruct v; reflexivity. Qed.

(** The four ways one record of an Invoice run can go. *)
Lemma invoice_db_step_skip record (v d : @Store Amount) t :
  (forall k, ~ targets (members v) record k) ->
  exists t', invoice_db_step pyfloat record (v, d, t) = ((v, d, t'), None).
Proof.
  intros Hn. unfold invoice_db_step.
  destruct (invoice_step_skip record t _ (invoices v) Hn) as (res & -> & ->).
  rewrite set_invoices_same. eexists. reflexivity.
Qed.

Lemma invoice_db_step_found record (v d : @Store Amount) t k :
  targets (members v) record k ->
  length (invoices_with k (invoices v)) = 1%nat ->
  exists t', invoice_db_step pyfloat record (v, d, t) = ((v, d, t'), None).
Proof.
  intros Ht Hc. unfold invoice_db_step.
  rewrite (invoice_step_found _ t _ _ _ Ht Hc), set_invoices_same.
  eexists. reflexivity.
Qed.

Lemma invoice_db_step_create record (v d : @Store Amount) t k :
  targets (members v) record k ->
  length (invoices_with k (invoices v)) <> 1%nat ->
  creation pyfloat record = Ok tt ->
  exists inv t',
    Invoice.nexudus_invoice_id inv = k /\
    let v' :=
      set_invoices
        (List.filter (fun i => negb (invoice_has k i)) (invoices v) ++ [inv])
        v in
    invoice_db_step pyfloat record (v, d, t) = ((v', v', t'), None).
Proof.
  intros Ht Hc Hcr. unfold invoice_db_step.
  rewrite (invoice_step_create _ t _ _ _ Ht Hc). cbv zeta.
  pose proof (new_invoice_creation record t) as Hn.
  destruct (new_invoice pyfloat record t) as [inv|e].
  - destruct Hn as [_ Hk]. destruct Ht as [_ HId]. rewrite HId in Hk.
    exists inv. eexists. split; [exact Hk|reflexivity].
  - congruence.
Qed.

Lemma invoice_db_step_fail record (v d : @Store Amount) t k e :
  targets (members v) record k ->
  length (invoices_with k (invoices v)) <> 1%nat ->
  creation pyfloat record = Raise e ->
  exists t',
    invoice_db_step pyfloat record (v, d, t)
    = ((set_invoices
          (List.filter (fun i => negb (invoice_has k i)) (invoices v)) v,
        d, t'),
       if is_KeyError e then None else Some e).
Proof.
  intros Ht Hc Hcr. unfold invoice_db_step.
  rewrite (invoice_step_create _ t _ _ _ Ht Hc). cbv zeta.
  pose proof (new_invoice_creation record t) as Hn.
  destruct (new_invoice pyfloat record t) as [inv|e'].
  - destruct Hn as [Hn _]. congruence.
  - assert (e' = e) as -> by congruence. eexists. reflexivity.
Qed.

(** Counting rows after the creation branch. *)
Lemma count_created k k' (inv : Invoice.t Amount)
    (irows : list (Invoice.t Amount)) :
  Invoice.nexudus_invoice_id inv = k ->
  length (invoices_with k'
            (List.filter (fun i => negb (invoice_has k i)) irows ++ [inv]))
  = if decide (k' = k) then 1%nat else length (invoices_with k' irows).
Proof.
  intros Hk. unfold invoices_with. rewrite List.filter_app. cbn [List.filter].
  destruct (decide (k' = k)) as [->|Hne].
  - rewrite filter_invoice_negb.
    assert (H : invoice_has k inv = true) by (apply invoice_has_key, Hk).
    rewrite H. reflexivity.
  - rewrite (filter_invoice_other _ _ _ Hne).
    assert (H : invoice_has k' inv = false).
    { unfold invoice_has. apply bool_decide_eq_false. congruence. }
    rewrite H, app_nil_r. reflexivity.
Qed.

Lemma count_deleted k k' (rows : list (Invoice.t Amount)) :
  length (invoices_with k'
            (List.filter (fun i => negb (invoice_has k i)) rows))
  = if decide (k' = k) then 0%nat else length (invoices_with k' rows).
Proof.
  unfold invoices_with. destruct (decide (k' = k)) as [->|Hne].
  - rewrite filter_invoice_negb. reflexivity.
  - rewrite (filter_invoice_other _ _ _ Hne). reflexivity.
Qed.

(** What one step does to the counts, whatever the case. *)
Lemma invoice_db_step_facts record (v d : @Store Amount) t :
  coherent v d ->
  exists v' d' t' ab,
    invoice_db_step pyfloat record (v, d, t) = ((v', d', t'), ab) /\
    coherent v' d' /\
    members v' = members v /\
    (d' = d \/ d' = v') /\
    (forall k, length (invoices_with k (invoices v)) = 1%nat ->
               length (invoices_with k (invoices v')) = 1%nat) /\
    (forall k, (length (invoices_with k (invoices v)) <= 1)%nat ->
               (length (invoices_with k (invoices v')) <= 1)%nat) /\
    match ab with
    | None =>
        forall k, targets (members v) record k ->
          length (invoices_with k (invoices v')) = 1%nat
          \/ (exists e, creation pyfloat record = Raise e
                        /\ is_KeyError e = true)
    | Some e => d' = d /\ stuck pyfloat v' record e
    end.
Proof.
  intros [Hm Hc].
  destruct (targets_dec (members v) record) as [[k Ht]|Hn].
  2:{ destruct (invoice_db_step_skip record v d t Hn) as (t' & ->).
      exists v, d, t', None. repeat split; auto; try apply Hc.
      intros k Ht. destruct (Hn k Ht). }
  destruct (Nat.eq_dec (length (invoices_with k (invoices v))) 1%nat)
    as [H1|H1].
  { destruct (invoice_db_step_found record v d t k Ht H1) as (t' & ->).
    exists v, d, t', None. repeat split; auto; try apply Hc.
    intros k' Ht'. rewrite (targets_key _ _ _ _ Ht Ht'). auto. }
  destruct (creation pyfloat record) as [[]|e] eqn:Hcr.
  - destruct (invoice_db_step_create record v d t k Ht H1 Hcr)
      as (inv & t' & Hk & Hstep). cbv zeta in Hstep.
    eexists _, _, t', None. split; [exact Hstep|].
    cbn [members invoices set_invoices].
    split; [split; [reflexivity|tauto]|]. split; [reflexivity|].
    split; [right; reflexivity|].
    split; [|split].
    + intros k' Hk'. rewrite (count_created _ _ _ _ Hk).
      destruct (decide (k' = k)); [reflexivity|exact Hk'].
    + intros k' Hk'. rewrite (count_created _ _ _ _ Hk).
      destruct (decide (k' = k)); [lia|exact Hk'].
    + intros k' Ht'. rewrite (targets_key _ _ _ _ Ht Ht'). left.
      rewrite (count_created _ _ _ _ Hk).
      destruct (decide (k = k)); [reflexivity|contradiction].
  - destruct (invoice_db_step_fail record v d t k e Ht H1 Hcr)
      as (t' & Hstep).
    eexists _, _, t', _. split; [exact Hstep|].
    cbn [members invoices set_invoices].
    assert (Hco : coherent
              (set_invoices
                 (List.filter (fun i => negb (invoice_has k i)) (invoices v))
                 v) d).
    { split; [exact Hm|]. intros k'. cbn [invoices set_invoices].
      rewrite count_deleted. destruct (decide (k' = k)) as [->|Hne].
      - split; [discriminate|]. intros Hd. apply Hc in Hd. contradiction.
      - apply Hc. }
    split; [exact Hco|]. split; [reflexivity|]. split; [left; reflexivity|].
    split; [|split].
    + intros k' Hk'. rewrite count_deleted.
      destruct (decide (k' = k)) as [->|Hne]; [contradiction|exact Hk'].
    + intros k' Hk'. rewrite count_deleted.
      destruct (decide (k' = k)); [lia|exact Hk'].
    + destruct (is_KeyError e) eqn:Hke.
      * intros k' _. right. exists e. auto.
      * split; [reflexivity|]. exists k. cbn [members invoices set_invoices].
        split; [exact Ht|]. split; [|auto].
        rewrite count_deleted.
        destruct (decide (k = k)); [discriminate|contradiction].
Qed.

(** ** An Invoice run on the database *)

Lemma settled_coherent (v d : @Store Amount) record :
  coherent v d -> settled pyfloat v record -> settled pyfloat d record.
Proof.
  intros [Hm Hc] Hs k Ht. rewrite Hm in Ht.
  destruct (Hs k Ht) as [H|H]; [left; apply Hc, H|right; exact H].
Qed.

Lemma stuck_coherent (v d : @Store Amount) record e :
  coherent v d -> stuck pyfloat v record e -> stuck pyfloat d record e.
Proof.
  intros [Hm Hc] (k & Ht & Hn & Hcr). exists k. rewrite Hm.
  split; [exact Ht|]. split; [|exact Hcr]. intros H. apply Hn, Hc, H.
Qed.

Lemma coherent_refl (d : @Store Amount) : coherent d d.
Proof. split; [reflexivity|tauto]. Qed.

(** What a run establishes: the records it went through are settled in the
    session it leaves, and the record that stopped it, if any, is stuck. *)
Lemma invoice_run_facts records : forall (v d : @Store Amount) t s' ab,
  coherent v d ->
  run_list (invoice_db_step pyfloat) records (v, d, t) = (s', ab) ->
  exists v' d' t',
    s' = (v', d', t') /\
    coherent v' d' /\
    members v' = members v /\
    (forall k, length (invoices_with k (invoices v)) = 1%nat ->
               length (invoices_with k (invoices v')) = 1%nat) /\
    (forall k, (length (invoices_with k (invoices v)) <= 1)%nat ->
               (length (invoices_with k (invoices d)) <= 1)%nat ->
               (length (invoices_with k (invoices v')) <= 1)%nat /\
               (length (invoices_with k (invoices d')) <= 1)%nat) /\
    match ab with
    | None => Forall (settled pyfloat v') records
    | Some e =>
        exists l1 record l2,
          records = l1 ++ record :: l2 /\
          Forall (settled pyfloat v') l1 /\
          stuck pyfloat v' record e
    end.
Proof.
  induction records as [|r records IH]; intros v d t s' ab Hco Hrun.
  - cbn [run_list] in Hrun. injection Hrun as <- <-.
    exists v, d, t. split; [reflexivity|]. split; [exact Hco|].
    split; [reflexivity|]. split; [auto|]. split; [auto|]. constructor.
  - cbn [run_list] in Hrun.
    destruct (invoice_db_step_facts r v d t Hco)
      as (v1 & d1 & t1 & ab1 & Hstep & Hco1 & Hm1 & Hd1 & Habs1 & Hle1 & Hout).
    rewrite Hstep in Hrun. destruct ab1 as [e|].
    + injection Hrun as <- <-. destruct Hout as [-> Hstuck].
      exists v1, d, t1. repeat split; auto; try apply Hco1.
      exists [], r, records. repeat split; auto.
    + destruct (IH v1 d1 t1 s' ab Hco1 Hrun)
        as (v' & d' & t' & -> & Hco' & Hm' & Habs' & Hle' & Hout').
      exists v', d', t'. split; [reflexivity|]. split; [exact Hco'|].
      split; [congruence|]. split; [auto|]. split.
      { intros k Hv Hd. apply Hle'; [apply Hle1, Hv|].
        destruct Hd1 as [->| ->]; [exact Hd|apply Hle1, Hv]. }
      assert (Hr : settled pyfloat v' r).
      { intros k Ht. rewrite Hm', Hm1 in Ht.
        destruct (Hout k Ht) as [H|H]; [left; apply Habs', H|right; exact H]. }
      destruct ab as [e|].
      * destruct Hout' as (l1 & r' & l2 & -> & Hl1 & Hst).
        exists (r :: l1), r', l2. repeat split; auto.
      * constructor; assumption.
Qed.

(** A run over records that are settled in the committed store commits
    nothing and is not stopped. *)
Lemma invoice_run_settled records : forall (v d : @Store Amount) t,
  coherent v d ->
  Forall (settled pyfloat d) records ->
  exists v' t',
    run_list (invoice_db_step pyfloat) records (v, d, t) = ((v', d, t'), None)
    /\ coherent v' d.
Proof.
  induction records as [|r records IH]; intros v d t Hco Hall.
  - exists v, t. split; [reflexivity|exact Hco].
  - inversion Hall as [|? ? Hr Hrest]; subst. cbn [run_list].
    destruct (invoice_db_step_facts r v d t Hco)
      as (v1 & d1 & t1 & ab1 & Hstep & Hco1 & Hm1 & Hd1 & Habs1 & Hle1 & Hout).
    rewrite Hstep.
    assert (Hsame : ab1 = None /\ d1 = d).
    { destruct (targets_dec (members v) r) as [[k Ht]|Hn].
      - destruct Hco as [Hm Hc].
        assert (Ht' : targets (members d) r k) by (rewrite Hm; exact Ht).
        destruct (Hr k Ht') as [H1|(e & Hcr & Hke)].
        + apply Hc in H1.
          destruct (invoice_db_step_found r v d t k Ht H1) as (t2 & H2).
          rewrite H2 in Hstep. injection Hstep as <- <- <- <-. auto.
        + destruct (Nat.eq_dec (length (invoices_with k (invoices v))) 1%nat)
            as [H1|H1].
          * destruct (invoice_db_step_found r v d t k Ht H1)
              as (t2 & H2).
            rewrite H2 in Hstep. injection Hstep as <- <- <- <-. auto.
          * destruct (invoice_db_step_fail r v d t k e Ht H1 Hcr)
              as (t2 & H2).
            rewrite H2, Hke in Hstep. injection Hstep as <- <- <- <-. auto.
      - destruct (invoice_db_step_skip r v d t Hn) as (t2 & H2).
        rewrite H2 in Hstep. injection Hstep as <- <- <- <-. auto. }
    destruct Hsame as [-> ->]. apply IH; assumption.
Qed.

(** A record that is stuck in the committed store stops the run again. *)
Lemma invoice_run_stuck l1 record l2 (v d : @Store Amount) t e :
  coherent v d ->
  Forall (settled pyfloat d) l1 ->
  stuck pyfloat d record e ->
  exists v' t',
    run_list (invoice_db_step pyfloat) (l1 ++ record :: l2) (v, d, t)
    = ((v', d, t'), Some e).
Proof.
  intros Hco Hall (k & Ht & Hn & Hcr & Hke).
  destruct (invoice_run_settled l1 v d t Hco Hall) as (v1 & t1 & Hrun & Hco1).
  rewrite run_list_app, Hrun. cbn [run_list].
  destruct Hco1 as [Hm Hc]. rewrite Hm in Ht.
  assert (H1 : length (invoices_with k (invoices v1)) <> 1%nat).
  { intros H. apply Hn, Hc, H. }
  destruct (invoice_db_step_fail record v1 d t1 k e Ht H1 Hcr)
    as (t2 & H2).
  rewrite H2, Hke. eexists _, _. reflexivity.
Qed.

(** Idempotence of an Invoice run on the database. *)
Lemma invoice_run_idempotent records (d0 : @Store Amount) t0 v1 d1 t1 ab :
  run_list (invoice_db_step pyfloat) records (d0, d0, t0)
  = ((v1, d1, t1), ab) ->
  forall t, exists v2 t2,
    run_list (invoice_db_step pyfloat) records (d1, d1, t)
    = ((v2, d1, t2), ab).
Proof.
  intros Hrun t.
  destruct (invoice_run_facts records d0 d0 t0 _ _ (coherent_refl d0) Hrun)
    as (v' & d' & t' & [= <- <- <-] & Hco & _ & _ & _ & Hout).
  destruct ab as [e|].
  - destruct Hout as (l1 & r & l2 & -> & Hl1 & Hst).
    apply invoice_run_stuck.
    + apply coherent_refl.
    + eapply Forall_impl; [exact Hl1|]. intros r'.
      apply settled_coherent, Hco.
    + apply (stuck_coherent _ _ _ _ Hco Hst).
  - destruct (invoice_run_settled records d1 d1 t (coherent_refl d1))
      as (v2 & t2 & H2 & _).
    + eapply Forall_impl; [exact Hout|]. intros r'.
      apply settled_coherent, Hco.
    + exists v2, t2. exact H2.
Qed.

Lemma invoice_db_step_sound record w :
  invoice_db_step pyfloat record (db_clock w)
  = (db_clock (snd (add_or_overwrite_invoice pyfloat record w)),
     fatal (fst (add_or_overwrite_invoice pyfloat record w))).
Proof.
  pose proof (add_or_overwrite_invoice_sound record w) as H.
  destruct (add_or_overwrite_invoice pyfloat record w) as [res w'].
  unfold invoice_db_step, db_clock. cbn [fst snd].
  destruct (invoice_step pyfloat record (clock w) (members (sess w))
              (invoices (sess w))) as [[irows r] committed].
  destruct H as (-> & Hinv & Hmem & Hdur & _ & Hclock).
  assert (Hs : sess w' = set_invoices irows (sess w)).
  { apply store_eq; [exact Hmem|exact Hinv]. }
  rewrite <- Hs, <- Hclock, Hdur. reflexivity.
Qed.

Lemma invoice_sync_idempotent fuel remote space w r1 w1 :
  sync_invoice_table pyfloat int_of_str config fuel remote space w
    = Some (r1, w1) ->
  exists r2 w2,
    sync_invoice_table pyfloat int_of_str config fuel remote space w1
      = Some (r2, w2) /\
    durable w2 = durable w1.
Proof.
  unfold sync_invoice_table, sync_table, sm, process_batch. intros H.
  destruct (for_in_trace db_clock (add_or_overwrite_invoice pyfloat)
              (invoice_db_step pyfloat) (fun _ _ => eq_refl)
              (fun _ _ => eq_refl) invoice_db_step_sound _ _ _ _ _ _ H)
    as (records & ab & Hrun & Hreplay).
  unfold db_clock at 1 2 in Hrun. cbn [sess durable clock set_sess] in Hrun.
  destruct (invoice_run_idempotent _ _ _ _ _ _ _ Hrun (clock w1))
    as (v2 & t2 & Hrun2).
  destruct (Hreplay (set_sess (durable w1) w1) _ _ Hrun2)
    as (r2 & w2 & H2 & Hv).
  - destruct ab; [right; discriminate|left; reflexivity].
  - exists r2, w2. split; [exact H2|].
    unfold db_clock in Hv. congruence.
Qed.

(** C2. Running the Member sync, or the Invoice sync, twice in succession
    against the same remote feed leaves the local store (the committed
    rows) after the second run equal to the store after the first run: the
    second run terminates within the same bound, adds no row and changes no
    attribute. *)
Theorem sync_twice_same_store fuel remote space w :
  (forall r1 w1,
     sync_member_table int_of_str config fuel remote space w = Some (r1, w1) ->
     exists r2 w2,
       sync_member_table int_of_str config fuel remote space w1
         = Some (r2, w2) /\
       durable w2 = durable w1) /\
  (forall r1 w1,
     sync_invoice_table pyfloat int_of_str config fuel remote space w
       = Some (r1, w1) ->
     exists r2 w2,
       sync_invoice_table pyfloat int_of_str config fuel remote space w1
         = Some (r2, w2) /\
       durable w2 = durable w1).
Proof.
  split; intros r1 w1 H.
  - apply (member_sync_idempotent _ _ _ _ _ _ H).
  - apply (invoice_sync_idempotent _ _ _ _ _ _ H).
Qed.


(** ** One row per remote id *)

Lemma member_step_count_cases record rows k :
  length (members_with k (member_step config record rows))
  = length (members_with k rows)
  \/ length (members_with k (member_step config record rows)) = 1%nat.
Proof.
  destruct (record !! "Id") as [k0|] eqn:HId.
  - destruct (decide (k = k0)) as [->|Hne].
    + right. apply member_step_count, HId.
    + left. apply (member_step_count_other _ _ _ _ HId Hne).
  - left. rewrite (member_step_no_key _ _ HId). reflexivity.
Qed.

Lemma member_db_step_shape record (v d : @Store Amount) :
  exists ab,
    member_db_step config record (v, d)
    = ((set_members (member_step config record (members v)) v,
        match member_result config record with
        | Ok _ => set_members (member_step config record (members v)) v
        | Raise _ => d
        end), ab).
Proof.
  unfold member_db_step. cbn [fst snd].
  destruct (member_result config record); eexists; reflexivity.
Qed.

(** A remote id with at most one row keeps at most one row. *)
Lemma member_run_unique_kept records k : forall (v d : @Store Amount) s' ab,
  run_list (member_db_step config) records (v, d) = (s', ab) ->
  (length (members_with k (members v)) <= 1)%nat ->
  (length (members_with k (members d)) <= 1)%nat ->
  (length (members_with k (members (fst s'))) <= 1)%nat /\
  (length (members_with k (members (snd s'))) <= 1)%nat.
Proof.
  induction records as [|r records IH]; intros v d s' ab Hrun Hv Hd.
  - injection Hrun as <- <-. auto.
  - cbn [run_list] in Hrun.
    destruct (member_db_step_shape r v d) as (ab1 & Hstep).
    rewrite Hstep in Hrun.
    assert (Hv1 : (length (members_with k
                     (member_step config r (members v))) <= 1)%nat).
    { destruct (member_step_count_cases r (members v) k) as [-> | ->]; lia. }
    assert (Hd1 : (length (members_with k (members
                     match member_result config r with
                     | Ok _ =>
                         set_members (member_step config r (members v)) v
                     | Raise _ => d
                     end)) <= 1)%nat).
    { destruct (member_result config r); [exact Hv1|exact Hd]. }
    destruct ab1 as [e|].
    + injection Hrun as <- <-. auto.
    + apply (IH _ _ _ _ Hrun); assumption.
Qed.

(** A remote id with one row, in the session and committed, keeps it. *)
Lemma member_run_one_kept records k : forall (v d : @Store Amount) s' ab,
  run_list (member_db_step config) records (v, d) = (s', ab) ->
  length (members_with k (members v)) = 1%nat ->
  length (members_with k (members d)) = 1%nat ->
  length (members_with k (members (fst s'))) = 1%nat /\
  length (members_with k (members (snd s'))) = 1%nat.
Proof.
  induction records as [|r records IH]; intros v d s' ab Hrun Hv Hd.
  - injection Hrun as <- <-. auto.
  - cbn [run_list] in Hrun.
    destruct (member_db_step_shape r v d) as (ab1 & Hstep).
    rewrite Hstep in Hrun.
    assert (Hv1 : length (members_with k
                    (member_step config r (members v))) = 1%nat).
    { destruct (member_step_count_cases r (members v) k) as [-> | ->]; auto. }
    assert (Hd1 : length (members_with k (members
                    match member_result config r with
                    | Ok _ =>
                        set_members (member_step config r (members v)) v
                    | Raise _ => d
                    end)) = 1%nat).
    { destruct (member_result config r); [exact Hv1|exact Hd]. }
    destruct ab1 as [e|].
    + injection Hrun as <- <-. auto.
    + apply (IH _ _ _ _ Hrun); assumption.
Qed.

(** After a run that was not stopped, the remote id of every record that
    was reconciled to completion has exactly one committed row. *)
Lemma member_run_reconciled records : forall (v d : @Store Amount) s',
  run_list (member_db_step config) records (v, d) = (s', None) ->
  forall record k,
    In record records ->
    record !! "Id" = Some k ->
    member_result config record = Ok tt ->
    length (members_with k (members (snd s'))) = 1%nat.
Proof.
  induction records as [|r records IH]; intros v d s' Hrun record k Hin HId Hok;
    [destruct Hin|].
  cbn [run_list] in Hrun.
  destruct (member_db_step_shape r v d) as (ab1 & Hstep).
  rewrite Hstep in Hrun. destruct ab1 as [e|]; [discriminate Hrun|].
  destruct Hin as [->|Hin].
  - rewrite Hok in Hrun.
    apply (member_run_one_kept _ k _ _ _ _ Hrun);
      cbn [members set_members]; apply member_step_count, HId.
  - apply (IH _ _ _ Hrun record k Hin HId Hok).
Qed.

(** The same for an Invoice run: the record must pass the gate and carry
    what an Invoice needs. *)
Lemma invoice_run_reconciled records (d0 : @Store Amount) t0 v1 d1 t1 :
  run_list (invoice_db_step pyfloat) records (d0, d0, t0)
  = ((v1, d1, t1), None) ->
  forall record k,
    In record records ->
    targets (members d0) record k ->
    creation pyfloat record = Ok tt ->
    length (invoices_with k (invoices d1)) = 1%nat.
Proof.
  intros Hrun record k Hin Ht Hcr.
  destruct (invoice_run_facts records d0 d0 t0 _ _ (coherent_refl d0) Hrun)
    as (v' & d' & t' & [= <- <- <-] & Hco & Hm & _ & _ & Hall).
  rewrite List.Forall_forall in Hall. specialize (Hall record Hin k).
  rewrite Hm in Hall. destruct (Hall Ht) as [H|(e & He & _)].
  - apply Hco, H.
  - congruence.
Qed.

Lemma in_pages (pages : list (list Rec)) batch record :
  In batch pages -> In record batch ->
  In record (concat pages) /\ (1 <= length pages)%nat.
Proof.
  intros Hb Hr. split.
  - apply in_concat. exists batch. auto.
  - destruct pages; [destruct Hb|cbn; lia].
Qed.

(** The rows of every other remote id. *)
Lemma member_step_other record k k' rows :
  record !! "Id" = Some k -> k' <> k ->
  members_with k' (member_step config record rows) = members_with k' rows.
Proof.
  intros HId Hne.
  destruct (Nat.eq_dec (length (members_with k rows)) 1%nat) as [Hc|Hc].
  - rewrite (member_step_found _ _ _ HId Hc). unfold members_with.
    rewrite filter_map_same by (intros; apply (on_key_has _ _ _ _ HId)).
    rewrite <- (map_id (List.filter (member_has k') rows)) at 2.
    apply map_ext_in. intros m Hm. apply filter_In in Hm as [_ Hm].
    apply member_has_key in Hm. unfold on_key.
    assert (Hk : member_has k m = false).
    { unfold member_has. apply bool_decide_eq_false. congruence. }
    rewrite Hk. reflexivity.
  - rewrite (member_step_fresh _ _ _ HId Hc). unfold members_with.
    rewrite List.filter_app, (filter_has_other _ _ _ Hne). cbn [List.filter].
    assert (H : member_has k'
              (overwrite (fst (member_patch config record false)) Member.new)
              = false).
    { unfold member_has. apply bool_decide_eq_false.
      rewrite (overwrite_key _ _ _ _ HId). congruence. }
    rewrite H, app_nil_r. reflexivity.
Qed.

(** Records of other remote ids leave the rows of a remote id alone. *)
Lemma member_run_other_key records k (rows_k : list Member.t) :
  (forall r, In r records -> r !! "Id" <> Some k) ->
  forall (v d : @Store Amount) s' ab,
    run_list (member_db_step config) records (v, d) = (s', ab) ->
    members_with k (members v) = rows_k ->
    members_with k (members d) = rows_k ->
    members_with k (members (fst s')) = rows_k /\
    members_with k (members (snd s')) = rows_k.
Proof.
  induction records as [|r records IH]; intros Hother v d s' ab Hrun Hv Hd.
  - injection Hrun as <- <-. auto.
  - cbn [run_list] in Hrun.
    destruct (member_db_step_shape r v d) as (ab1 & Hstep).
    rewrite Hstep in Hrun.
    assert (Hv1 : members_with k (member_step config r (members v)) = rows_k).
    { destruct (r !! "Id") as [k0|] eqn:HId.
      - rewrite (member_step_other _ _ _ _ HId); [exact Hv|].
        intros ->. apply (Hother r); [left; reflexivity|exact HId].
      - rewrite (member_step_no_key _ _ HId). exact Hv. }
    assert (Hd1 : members_with k (members
                    match member_result config r with
                    | Ok _ =>
                        set_members (member_step config r (members v)) v
                    | Raise _ => d
                    end) = rows_k).
    { destruct (member_result config r); [exact Hv1|exact Hd]. }
    destruct ab1 as [e|].
    + injection Hrun as <- <-. auto.
    + apply (IH (fun r' Hr' => Hother r' (or_intror Hr')) _ _ _ _ Hrun);
        assumption.
Qed.

(** Records of other remote ids leave the Invoice rows of a remote id
    alone. *)
Lemma invoice_db_step_other_key record (v d : @Store Amount) t k
    (rows_k : list (Invoice.t Amount)) :
  record !! "Id" <> Some k ->
  invoices_with k (invoices v) = rows_k ->
  exists v' d' t' ab,
    invoice_db_step pyfloat record (v, d, t) = ((v', d', t'), ab) /\
    invoices_with k (invoices v') = rows_k /\
    members v' = members v /\
    (d' = d \/ d' = v').
Proof.
  intros Hother Hv.
  destruct (targets_dec (members v) record) as [[k0 Ht]|Hn].
  2:{ destruct (invoice_db_step_skip record v d t Hn) as (t' & ->).
      exists v, d, t', None. auto. }
  destruct (Nat.eq_dec (length (invoices_with k0 (invoices v))) 1%nat)
    as [H1|H1].
  { destruct (invoice_db_step_found record v d t k0 Ht H1) as (t' & ->).
    exists v, d, t', None. auto. }
  assert (Hne : k <> k0).
  { intros ->. apply Hother. apply Ht. }
  destruct (creation pyfloat record) as [[]|e] eqn:Hcr.
  - destruct (invoice_db_step_create record v d t k0 Ht H1 Hcr)
      as (inv0 & t' & Hk & Hstep). cbv zeta in Hstep.
    eexists _, _, t', None. split; [exact Hstep|].
    cbn [invoices members set_invoices].
    split; [|split; [reflexivity|right; reflexivity]].
    unfold invoices_with in *. rewrite List.filter_app.
    rewrite (filter_invoice_other _ _ _ Hne), Hv. cbn [List.filter].
    assert (H : invoice_has k inv0 = false).
    { unfold invoice_has. apply bool_decide_eq_false. congruence. }
    rewrite H. apply app_nil_r.
  - destruct (invoice_db_step_fail record v d t k0 e Ht H1 Hcr)
      as (t' & Hstep).
    eexists _, _, t', _. split; [exact Hstep|].
    cbn [invoices members set_invoices].
    split; [|split; [reflexivity|left; reflexivity]].
    unfold invoices_with in *.
    rewrite (filter_invoice_other _ _ _ Hne). exact Hv.
Qed.

Lemma invoice_run_other_key records k (rows_k : list (Invoice.t Amount)) :
  (forall r, In r records -> r !! "Id" <> Some k) ->
  forall (v d : @Store Amount) t v' d' t' ab,
    run_list (invoice_db_step pyfloat) records (v, d, t)
    = ((v', d', t'), ab) ->
    invoices_with k (invoices v) = rows_k ->
    invoices_with k (invoices d) = rows_k ->
    invoices_with k (invoices v') = rows_k /\
    invoices_with k (invoices d') = rows_k /\
    members v' = members v.
Proof.
  induction records as [|r records IH];
    intros Hother v d t v' d' t' ab Hrun Hv Hd.
  - injection Hrun as <- <- <- <-. auto.
  - cbn [run_list] in Hrun.
    destruct (invoice_db_step_other_key r v d t k rows_k
                (Hother r (or_introl eq_refl)) Hv)
      as (v1 & d1 & t1 & ab1 & Hstep & Hv1 & Hm1 & Hd1).
    rewrite Hstep in Hrun.
    assert (Hd1' : invoices_with k (invoices d1) = rows_k).
    { destruct Hd1 as [->| ->]; assumption. }
    destruct ab1 as [e|].
    + injection Hrun as <- <- <- <-. auto.
    + destruct (IH (fun r' Hr' => Hother r' (or_intror Hr'))
                  _ _ _ _ _ _ _ Hrun Hv1 Hd1') as (Hv' & Hd' & Hm').
      split; [exact Hv'|]. split; [exact Hd'|]. congruence.
Qed.

(** C1, as the code has it.  After a sync run, a key that had at most one
    local row before the run has at most one after it; and when the run
    ends normally over a feed, the key of every record of the feed that
    can be reconciled to completion (a Member record on which
    [add_or_overwrite_member] returns normally; an Invoice record that
    passes the auto_process gate and carries what a new Invoice needs) has
    exactly one local row, even if the store held several rows for it
    before, while the rows of a key that no record of the feed (of one
    page or more) carries are exactly the rows the store held for it
    before the run, duplicates included. *)
Theorem sync_one_row_per_reconciled_key fuel remote space w :
  (forall r1 w1,
     sync_member_table int_of_str config fuel remote space w = Some (r1, w1) ->
     (forall k,
        (length (members_with k (members (durable w))) <= 1)%nat ->
        (length (members_with k (members (durable w1))) <= 1)%nat) /\
     (forall pages batch record k,
        r1 = Ok tt ->
        feed_of config remote "spaces/coworkers" (member_query space) pages ->
        In batch pages -> In record batch ->
        record !! "Id" = Some k ->
        member_result config record = Ok tt ->
        length (members_with k (members (durable w1))) = 1%nat) /\
     (forall pages k,
        r1 = Ok tt ->
        (1 <= length pages)%nat ->
        feed_of config remote "spaces/coworkers" (member_query space) pages ->
        (forall batch record,
           In batch pages -> In record batch -> record !! "Id" <> Some k) ->
        members_with k (members (durable w1))
        = members_with k (members (durable w)))) /\
  (forall r1 w1,
     sync_invoice_table pyfloat int_of_str config fuel remote space w
       = Some (r1, w1) ->
     (forall k,
        (length (invoices_with k (invoices (durable w))) <= 1)%nat ->
        (length (invoices_with k (invoices (durable w1))) <= 1)%nat) /\
     (forall pages batch record k,
        r1 = Ok tt ->
        feed_of config remote "billing/coworkerinvoices"
          (invoice_query space) pages ->
        In batch pages -> In record batch ->
        targets (members (durable w)) record k ->
        creation pyfloat record = Ok tt ->
        length (invoices_with k (invoices (durable w1))) = 1%nat) /\
     (forall pages k,
        r1 = Ok tt ->
        (1 <= length pages)%nat ->
        feed_of config remote "billing/coworkerinvoices"
          (invoice_query space) pages ->
        (forall batch record,
           In batch pages -> In record batch -> record !! "Id" <> Some k) ->
        invoices_with k (invoices (durable w1))
        = invoices_with k (invoices (durable w)))).
Proof.
  assert (Hcarried : forall (pages : list (list Rec)) k,
    (forall batch record,
       In batch pages -> In record batch -> record !! "Id" <> Some k) ->
    forall r, In r (concat pages) -> r !! "Id" <> Some k).
  { intros pages k Hnone r Hr. apply in_concat in Hr as (batch & Hb & Hr).
    apply (Hnone batch r Hb Hr). }
  split; intros r1 w1 H.
  - unfold sync_member_table, sync_table, sm, process_batch in H.
    split; [|split].
    + intros k Hk.
      destruct (for_in_trace db (add_or_overwrite_member config)
                  (member_db_step config) (fun _ _ => eq_refl)
                  (fun _ _ => eq_refl) member_db_step_sound _ _ _ _ _ _ H)
        as (records & ab & Hrun & _).
      unfold db at 1 in Hrun. cbn [sess durable set_sess] in Hrun.
      apply (member_run_unique_kept _ k _ _ _ _ Hrun Hk Hk).
    + intros pages batch record k -> Hfeed Hb Hr HId Hok.
      destruct (in_pages _ _ _ Hb Hr) as [Hin Hlen].
      pose proof (for_in_feed db (add_or_overwrite_member config)
                    (member_db_step config) (fun _ _ => eq_refl)
                    (fun _ _ => eq_refl) member_db_step_sound
                    remote _ _ pages _ 0%nat fuel _ _
                    (serves_init _ _ _ _ Hlen Hfeed) H) as Hrun.
      unfold db at 1 in Hrun. cbn [sess durable set_sess] in Hrun.
      apply (member_run_reconciled _ _ _ _ Hrun record k Hin HId Hok).
    + intros pages k -> Hlen Hfeed Hnone.
      pose proof (for_in_feed db (add_or_overwrite_member config)
                    (member_db_step config) (fun _ _ => eq_refl)
                    (fun _ _ => eq_refl) member_db_step_sound
                    remote _ _ pages _ 0%nat fuel _ _
                    (serves_init _ _ _ _ Hlen Hfeed) H) as Hrun.
      unfold db at 1 in Hrun. cbn [sess durable set_sess] in Hrun.
      apply (member_run_other_key (concat pages) k _ (Hcarried _ _ Hnone)
               _ _ _ _ Hrun eq_refl eq_refl).
  - unfold sync_invoice_table, sync_table, sm, process_batch in H.
    split; [|split].
    + intros k Hk.
      destruct (for_in_trace db_clock (add_or_overwrite_invoice pyfloat)
                  (invoice_db_step pyfloat) (fun _ _ => eq_refl)
                  (fun _ _ => eq_refl) invoice_db_step_sound _ _ _ _ _ _ H)
        as (records & ab & Hrun & _).
      unfold db_clock at 1 2 in Hrun.
      cbn [sess durable clock set_sess] in Hrun.
      destruct (invoice_run_facts records _ _ _ _ _
                  (coherent_refl (durable w)) Hrun)
        as (v' & d' & t' & [= <- <- <-] & _ & _ & _ & Hle & _).
      apply (Hle k Hk Hk).
    + intros pages batch record k -> Hfeed Hb Hr Ht Hcr.
      destruct (in_pages _ _ _ Hb Hr) as [Hin Hlen].
      pose proof (for_in_feed db_clock (add_or_overwrite_invoice pyfloat)
                    (invoice_db_step pyfloat) (fun _ _ => eq_refl)
                    (fun _ _ => eq_refl) invoice_db_step_sound
                    remote _ _ pages _ 0%nat fuel _ _
                    (serves_init _ _ _ _ Hlen Hfeed) H) as Hrun.
      unfold db_clock at 1 2 in Hrun.
      cbn [sess durable clock set_sess] in Hrun.
      apply (invoice_run_reconciled _ _ _ _ _ _ Hrun record k Hin Ht Hcr).
    + intros pages k -> Hlen Hfeed Hnone.
      pose proof (for_in_feed db_clock (add_or_overwrite_invoice pyfloat)
                    (invoice_db_step pyfloat) (fun _ _ => eq_refl)
                    (fun _ _ => eq_refl) invoice_db_step_sound
                    remote _ _ pages _ 0%nat fuel _ _
                    (serves_init _ _ _ _ Hlen Hfeed) H) as Hrun.
      unfold db_clock at 1 2 in Hrun.
      cbn [sess durable clock set_sess] in Hrun.
      apply (invoice_run_other_key (concat pages) k _ (Hcarried _ _ Hnone)
               _ _ _ _ _ _ _ Hrun eq_refl eq_refl).
Qed.

(** * Further properties of the module *)
(** ** Fetching one record *)

Lemma first_of_fresh s remote url_part payload w :
  bind (next_value int_of_str remote (get_records config url_part payload s))
    first_item w
  = (first_of_page int_of_str s (remote (request_of config url_part payload 1)),
     set_net (net w ++ [request_of config url_part payload 1]) w).
Proof.
  unfold next_value, next, get_records, first_of_page, single_check.
  cbn [finished has_next_page truthy url creds params current_page single].
  change (0 + 1) with 1.
  unfold bind at 1 2 3, requests_get_json.
  change {| req_url := NEXUDUS_API_URL config +:+ url_part;
            req_params := <["page" := VInt 1]> payload;
            req_auth := (NEXUDUS_EMAIL config, NEXUDUS_PASS config) |}
    with (request_of config url_part payload 1).
  destruct (remote (request_of config url_part payload 1)) as [e|res];
    [reflexivity|].
  destruct s.
  - destruct (TotalItems res) as [total|]; [|reflexivity].
    cbv [bind getkey lift ret raise].
    destruct (py_int int_of_str total) as [e|n]; [reflexivity|].
    destruct (n =? 1); cbn [negb]; [|reflexivity].
    destruct (HasNextPage res) as [h|]; [|reflexivity].
    destruct (Records res) as [[|record rest]|]; reflexivity.
  - cbv [bind getkey lift ret raise].
    destruct (HasNextPage res) as [h|]; [|reflexivity].
    destruct (Records res) as [[|record rest]|]; reflexivity.
Qed.

(** X1. [get_first] sends exactly one request, for page 1 of the
    collection, whose parameters are the payload with ["page"] set to 1,
    and leaves the database, the log and the clock as they were; it returns
    a record exactly when that page carries the key ["HasNextPage"] and a
    non-empty ["Records"], and the record is then the first of the page,
    whatever the page says about its total and about a next page.  (The
    parameters sent are also what the caller's dict holds afterwards:
    [get_records] writes the page number into the dict it is given.  A
    payload is a value here, so this is not part of the statement.) *)
Theorem get_first_one_request remote url_part payload w :
  exists r w',
    get_first int_of_str config remote url_part payload w = (r, w') /\
    net w' =
      net w
      ++ [{| req_url := NEXUDUS_API_URL config +:+ url_part;
             req_params := <["page" := VInt 1]> payload;
             req_auth := (NEXUDUS_EMAIL config, NEXUDUS_PASS config) |}] /\
    sess w' = sess w /\ durable w' = durable w /\
    log w' = log w /\ clock w' = clock w /\
    forall record,
      r = Ok record <->
      exists res h rest,
        remote (request_of config url_part payload 1) = inr res /\
        HasNextPage res = Some h /\
        Records res = Some (record :: rest).
Proof.
  unfold get_first. rewrite first_of_fresh. eexists _, _.
  split; [reflexivity|]. cbn [net sess durable log clock set_net].
  do 5 (split; [reflexivity|]).
  intros record. unfold first_of_page, single_check. split.
  - destruct (remote _) as [e|res] eqn:Hr; [discriminate|].
    destruct (HasNextPage res) as [h|] eqn:Hh; [|discriminate].
    destruct (Records res) as [[|r0 rest]|] eqn:Hrec; try discriminate.
    intros [= ->]. exists res, h, rest. auto.
  - intros (res & h & rest & -> & -> & ->). reflexivity.
Qed.

(** X2. [get_single] sends exactly one request, for page 1, whose
    parameters are the payload with ["page"] set to 1, and leaves the
    database, the log and the clock as they were; it returns a record
    exactly when the page reports a total of 1 and carries ["HasNextPage"]
    and a non-empty ["Records"].  The record is the first of the page: how
    many records the page holds is not compared with the total.  (As for
    [get_first], the caller's dict gains the page number, which a payload
    that is a value does not show.) *)
Theorem get_single_one_item remote url_part payload w :
  exists r w',
    get_single int_of_str config remote url_part payload w = (r, w') /\
    net w' =
      net w
      ++ [{| req_url := NEXUDUS_API_URL config +:+ url_part;
             req_params := <["page" := VInt 1]> payload;
             req_auth := (NEXUDUS_EMAIL config, NEXUDUS_PASS config) |}] /\
    sess w' = sess w /\ durable w' = durable w /\
    log w' = log w /\ clock w' = clock w /\
    forall record,
      r = Ok record <->
      exists res total h rest,
        remote (request_of config url_part payload 1) = inr res /\
        TotalItems res = Some total /\
        py_int int_of_str total = inr 1 /\
        HasNextPage res = Some h /\
        Records res = Some (record :: rest).
Proof.
  unfold get_single. rewrite first_of_fresh. eexists _, _.
  split; [reflexivity|]. cbn [net sess durable log clock set_net].
  do 5 (split; [reflexivity|]).
  intros record. unfold first_of_page, single_check. split.
  - destruct (remote _) as [e|res] eqn:Hr; [discriminate|].
    destruct (TotalItems res) as [total|] eqn:Ht; [|discriminate].
    destruct (py_int int_of_str total) as [e|n] eqn:Hn; [discriminate|].
    destruct (n =? 1) eqn:E; [|discriminate]. apply Z.eqb_eq in E. subst n.
    destruct (HasNextPage res) as [h|] eqn:Hh; [|discriminate].
    destruct (Records res) as [[|r0 rest]|] eqn:Hrec; try discriminate.
    intros [= ->]. exists res, total, h, rest. auto.
  - intros (res & total & h & rest & -> & -> & -> & -> & ->). reflexivity.
Qed.

(** X3. A first page with no record makes [get_first] raise [IndexError];
    so does [get_single] when the page reports a total of 1 all the same. *)
Theorem first_of_empty_page_fails remote url_part payload w res h :
  remote (request_of config url_part payload 1) = inr res ->
  HasNextPage res = Some h ->
  Records res = Some [] ->
  fst (get_first int_of_str config remote url_part payload w)
  = Raise (OtherError "IndexError") /\
  (forall total,
     TotalItems res = Some total ->
     py_int int_of_str total = inr 1 ->
     fst (get_single int_of_str config remote url_part payload w)
     = Raise (OtherError "IndexError")).
Proof.
  intros Hr Hh Hrec. unfold get_first, get_single. rewrite !first_of_fresh.
  unfold first_of_page, single_check. rewrite Hr, Hh, Hrec.
  split; [reflexivity|]. intros total -> ->. reflexivity.
Qed.

Lemma mark_invoice_paid_unfold remote ledger rnd invoice_id
    (o : @Outbox Amount) :
  mark_invoice_paid int_of_str config remote ledger rnd invoice_id o =
    let w1 := set_net (net (world o) ++ [lookup_request config invoice_id])
                (world o) in
    let o1 := {| world := w1; posted := posted o |} in
    match first_of_page int_of_str true
            (remote (lookup_request config invoice_id)) with
    | Raise e =>
        if is_MultipleResultsFoundException e
        then (Ok (false, VStr (str_exn e)), o1)
        else (Raise e, o1)
    | Ok inv =>
        match inv !! "CoworkerId" with
        | None => (Raise (KeyError "CoworkerId"), o1)
        | Some coworker =>
        match inv !! "BusinessId" with
        | None => (Raise (KeyError "BusinessId"), o1)
        | Some business =>
        match inv !! "TotalAmount" with
        | None => (Raise (KeyError "TotalAmount"), o1)
        | Some credit =>
            let entry :=
              entry_request config
                (ledger_entry invoice_id coworker business (entry_code rnd)
                   credit) in
            let o2 := {| world := w1; posted := posted o ++ [entry] |} in
            match ledger entry with
            | inl e => (Raise e, o2)
            | inr answer => (Ok (outcome answer), o2)
            end
        end end end
    end.
Proof.
  unfold mark_invoice_paid, get_single.
  unfold bindP at 1, in_world at 1, try_except. unfold bind at 1.
  rewrite first_of_fresh. fold (lookup_request config invoice_id).
  destruct (first_of_page int_of_str true
              (remote (lookup_request config invoice_id))) as [inv|e].
  2:{ destruct (is_MultipleResultsFoundException e); reflexivity. }
  cbv beta iota zeta. unfold ret at 1.
  unfold bindP at 1, in_world at 1, getitem at 1. cbn [world posted].
  destruct (inv !! "CoworkerId") as [coworker|]; [|reflexivity].
  unfold ret at 1.
  unfold bindP at 1, in_world at 1, getitem at 1. cbn [world posted].
  destruct (inv !! "BusinessId") as [business|]; [|reflexivity].
  unfold ret at 1.
  unfold bindP at 1, in_world at 1, getitem at 1. cbn [world posted].
  destruct (inv !! "TotalAmount") as [credit|]; [|reflexivity].
  unfold ret at 1.
  unfold bindP at 1, create_record, requests_post_json. cbn [world posted].
  fold (entry_code rnd).
  fold (entry_request config
          (ledger_entry invoice_id coworker business (entry_code rnd) credit)).
  destruct (ledger _) as [e|answer]; [reflexivity|].
  unfold outcome, retP.
  destruct (truthy (dict_get answer "WasSuccessful")); reflexivity.
Qed.

(** ** Marking an invoice as paid *)

Lemma first_of_page_single answer inv :
  first_of_page int_of_str true answer = Ok inv ->
  exists res total h rest,
    answer = inr res /\
    TotalItems res = Some total /\
    py_int int_of_str total = inr 1 /\
    HasNextPage res = Some h /\
    Records res = Some (inv :: rest).
Proof.
  unfold first_of_page, single_check.
  destruct answer as [e|res]; [discriminate|].
  destruct (TotalItems res) as [total|] eqn:Ht; [|discriminate].
  destruct (py_int int_of_str total) as [e|n] eqn:Hn; [discriminate|].
  destruct (n =? 1) eqn:E; [|discriminate]. apply Z.eqb_eq in E. subst n.
  destruct (HasNextPage res) as [h|] eqn:Hh; [|discriminate].
  destruct (Records res) as [[|r0 rest]|] eqn:Hrec; try discriminate.
  intros [= ->]. exists res, total, h, rest. auto.
Qed.

(** X4. [mark_invoice_paid] never touches the database or the log and
    sends one GET, the lookup of the invoice.  It POSTs at most one ledger
    entry, and only when the lookup reported exactly one item: the entry
    then carries the invoice id it was called with, the member, the space
    and, as credit, the total amount of the first record of the page.  It
    reports success only when an entry was posted and the answer to it has
    a true ["WasSuccessful"]. *)
Theorem mark_invoice_paid_posts_for_one_invoice remote ledger rnd invoice_id
    (o : @Outbox Amount) :
  exists r o',
    mark_invoice_paid int_of_str config remote ledger rnd invoice_id o
    = (r, o') /\
    sess (world o') = sess (world o) /\
    durable (world o') = durable (world o) /\
    log (world o') = log (world o) /\
    net (world o') = net (world o) ++ [lookup_request config invoice_id] /\
    ((posted o' = posted o /\ forall msg, r <> Ok (true, msg))
     \/
     exists res total rest inv coworker business credit,
       remote (lookup_request config invoice_id) = inr res /\
       TotalItems res = Some total /\
       py_int int_of_str total = inr 1 /\
       Records res = Some (inv :: rest) /\
       inv !! "CoworkerId" = Some coworker /\
       inv !! "BusinessId" = Some business /\
       inv !! "TotalAmount" = Some credit /\
       let entry :=
         entry_request config
           (ledger_entry invoice_id coworker business (entry_code rnd)
              credit) in
       posted o' = posted o ++ [entry] /\
       forall msg,
         r = Ok (true, msg) ->
         exists answer,
           ledger entry = inr answer /\
           truthy (dict_get answer "WasSuccessful") = true).
Proof.
  rewrite mark_invoice_paid_unfold. cbv zeta.
  destruct (first_of_page int_of_str true
              (remote (lookup_request config invoice_id))) as [inv|e] eqn:Hp.
  2:{ destruct (is_MultipleResultsFoundException e);
        eexists _, _; (split; [reflexivity|]); cbn; repeat split; auto;
        left; split; auto; intros msg; discriminate. }
  destruct (first_of_page_single _ _ Hp)
    as (res & total & h & rest & Hr & Ht & Hi & Hh & Hrec).
  destruct (inv !! "CoworkerId") as [coworker|] eqn:Hc.
  2:{ eexists _, _; (split; [reflexivity|]); cbn; repeat split; auto;
        left; split; auto; intros msg; discriminate. }
  destruct (inv !! "BusinessId") as [business|] eqn:Hb.
  2:{ eexists _, _; (split; [reflexivity|]); cbn; repeat split; auto;
        left; split; auto; intros msg; discriminate. }
  destruct (inv !! "TotalAmount") as [credit|] eqn:Hcr.
  2:{ eexists _, _; (split; [reflexivity|]); cbn; repeat split; auto;
        left; split; auto; intros msg; discriminate. }
  destruct (ledger _) as [e|answer] eqn:Hl.
  - eexists _, _. split; [reflexivity|]. cbn [world posted]. cbn.
    repeat split; auto. right.
    exists res, total, rest, inv, coworker, business, credit.
    repeat split; auto. intros msg; discriminate.
  - eexists _, _. split; [reflexivity|]. cbn [world posted]. cbn.
    repeat split; auto. right.
    exists res, total, rest, inv, coworker, business, credit.
    repeat split; auto. intros msg. unfold outcome.
    destruct (truthy (dict_get answer "WasSuccessful")) eqn:Hs;
      [|discriminate].
    intros _. exists answer. split; [exact Hl|exact Hs].
Qed.

(** X5. When the lookup reports a number of items other than 1,
    [mark_invoice_paid] posts nothing and returns [(False, "")]: the
    message is the text of an exception raised without one. *)
Theorem mark_invoice_paid_not_single remote ledger rnd invoice_id
    (o : @Outbox Amount) res total n :
  remote (lookup_request config invoice_id) = inr res ->
  TotalItems res = Some total ->
  py_int int_of_str total = inr n ->
  n <> 1 ->
  mark_invoice_paid int_of_str config remote ledger rnd invoice_id o
  = (Ok (false, VStr ""),
     {| world := set_net (net (world o) ++ [lookup_request config invoice_id])
                   (world o);
        posted := posted o |}).
Proof.
  intros Hr Ht Hi Hn. rewrite mark_invoice_paid_unfold. cbv zeta.
  unfold first_of_page, single_check. rewrite Hr, Ht, Hi.
  destruct (n =? 1) eqn:E; [apply Z.eqb_eq in E; contradiction|].
  reflexivity.
Qed.

(** X6. When the one invoice found has the three fields the entry is made
    of, [mark_invoice_paid] posts the entry and returns what the answer to
    it says: [(True, "Successfully updated invoice in Nexudus.")] for a
    true ["WasSuccessful"], and otherwise [False] with the answer's
    ["Message"], which is [None] when the answer has none. *)
Theorem mark_invoice_paid_reports_answer remote ledger rnd invoice_id
    (o : @Outbox Amount) res total h inv rest coworker business credit
    answer :
  remote (lookup_request config invoice_id) = inr res ->
  TotalItems res = Some total ->
  py_int int_of_str total = inr 1 ->
  HasNextPage res = Some h ->
  Records res = Some (inv :: rest) ->
  inv !! "CoworkerId" = Some coworker ->
  inv !! "BusinessId" = Some business ->
  inv !! "TotalAmount" = Some credit ->
  ledger (entry_request config
            (ledger_entry invoice_id coworker business (entry_code rnd)
               credit)) = inr answer ->
  exists o',
    mark_invoice_paid int_of_str config remote ledger rnd invoice_id o
    = (Ok (if truthy (default VNone (answer !! "WasSuccessful"))
           then (true, VStr "Successfully updated invoice in Nexudus.")
           else (false, default VNone (answer !! "Message"))), o') /\
    posted o' =
      posted o
      ++ [entry_request config
            (ledger_entry invoice_id coworker business (entry_code rnd)
               credit)].
Proof.
  intros Hr Ht Hi Hh Hrec Hc Hb Hcr Hl. rewrite mark_invoice_paid_unfold.
  cbv zeta. unfold first_of_page, single_check.
  rewrite Hr, Ht, Hi, Hh, Hrec. cbn [Z.eqb Pos.eqb].
  rewrite Hc, Hb, Hcr, Hl. eexists. split; [reflexivity|]. reflexivity.
Qed.

(** X7. [mark_invoice_paid] catches nothing but the exception of the
    lookup: when the invoice found lacks one of the fields the entry is made
    of, a [KeyError] for a missing field reaches the caller and nothing is
    posted. *)
Theorem mark_invoice_paid_missing_field remote ledger rnd invoice_id
    (o : @Outbox Amount) res total h inv rest :
  remote (lookup_request config invoice_id) = inr res ->
  TotalItems res = Some total ->
  py_int int_of_str total = inr 1 ->
  HasNextPage res = Some h ->
  Records res = Some (inv :: rest) ->
  inv !! "CoworkerId" = None \/ inv !! "BusinessId" = None
  \/ inv !! "TotalAmount" = None ->
  exists key o',
    mark_invoice_paid int_of_str config remote ledger rnd invoice_id o
    = (Raise (KeyError key), o') /\
    inv !! key = None /\
    posted o' = posted o.
Proof.
  intros Hr Ht Hi Hh Hrec Hmiss. rewrite mark_invoice_paid_unfold.
  cbv zeta. unfold first_of_page, single_check.
  rewrite Hr, Ht, Hi, Hh, Hrec. cbn [Z.eqb Pos.eqb].
  destruct (inv !! "CoworkerId") as [coworker|] eqn:Hc.
  2:{ eexists _, _. split; [reflexivity|]. split; [exact Hc|reflexivity]. }
  destruct (inv !! "BusinessId") as [business|] eqn:Hb.
  2:{ eexists _, _. split; [reflexivity|]. split; [exact Hb|reflexivity]. }
  destruct (inv !! "TotalAmount") as [credit|] eqn:Hcr.
  2:{ eexists _, _. split; [reflexivity|]. split; [exact Hcr|reflexivity]. }
  destruct Hmiss as [H|[H|H]]; discriminate H.
Qed.

Lemma join_choices_length population (n : nat) rnd :
  String.length (join_choices population n rnd) = n.
Proof.
  unfold join_choices.
  assert (H : forall l, String.length (string_of_list_ascii l) = length l).
  { induction l as [|c l IH]; cbn; [reflexivity|]. rewrite IH. reflexivity. }
  rewrite H, length_map, length_seq. reflexivity.
Qed.

Lemma join_choices_in population (n : nat) rnd c :
  (0 < String.length population)%nat ->
  In c (list_ascii_of_string (join_choices population n rnd)) ->
  In c (list_ascii_of_string population).
Proof.
  intros Hpos. unfold join_choices.
  rewrite list_ascii_of_string_of_list_ascii, in_map_iff.
  intros (j & <- & _). apply nth_In.
  assert (H : forall s, length (list_ascii_of_string s) = String.length s).
  { induction s as [|a s IH]; cbn; [reflexivity|]. rewrite IH. reflexivity. }
  rewrite H. apply Nat.mod_upper_bound. lia.
Qed.

(** X8. Whatever the random generator supplies, the code of a ledger entry
    posted by [mark_invoice_paid] is made of ten characters, each an
    upper-case letter or a digit. *)
Theorem mark_invoice_paid_code remote ledger rnd invoice_id
    (o : @Outbox Amount) p :
  In p (posted (snd (mark_invoice_paid int_of_str config remote ledger rnd
                       invoice_id o))) ->
  In p (posted o) \/
  exists code,
    post_data p !! "Code" = Some (VStr code) /\
    String.length code = 10%nat /\
    forall c, In c (list_ascii_of_string code) -> is_upper_or_digit c.
Proof.
  rewrite mark_invoice_paid_unfold. cbv zeta.
  assert (Hcode : String.length (entry_code rnd) = 10%nat /\
            forall c, In c (list_ascii_of_string (entry_code rnd)) ->
                      is_upper_or_digit c).
  { split; [apply join_choices_length|]. intros c Hc. unfold entry_code in Hc.
    apply join_choices_in in Hc; [|vm_compute; lia].
    unfold is_upper_or_digit. vm_compute in Hc.
    repeat (destruct Hc as [<-|Hc]; [vm_compute; lia|]). destruct Hc. }
  destruct (first_of_page int_of_str true _) as [inv|e].
  2:{ destruct (is_MultipleResultsFoundException e); cbn [snd posted]; auto. }
  destruct (inv !! "CoworkerId") as [coworker|]; [|cbn [snd posted]; auto].
  destruct (inv !! "BusinessId") as [business|]; [|cbn [snd posted]; auto].
  destruct (inv !! "TotalAmount") as [credit|]; [|cbn [snd posted]; auto].
  assert (Hp : In p (posted o ++
                [entry_request config
                   (ledger_entry invoice_id coworker business (entry_code rnd)
                      credit)]) ->
               In p (posted o) \/
               exists code,
                 post_data p !! "Code" = Some (VStr code) /\
                 String.length code = 10%nat /\
                 forall c, In c (list_ascii_of_string code) ->
                           is_upper_or_digit c).
  { rewrite in_app_iff. intros [H|[<-|[]]]; [left; exact H|right].
    exists (entry_code rnd). split; [|exact Hcode].
    unfold entry_request, ledger_entry. cbn [post_data].
    rewrite lookup_insert_ne by discriminate.
    rewrite lookup_insert_ne by discriminate.
    rewrite lookup_insert_ne by discriminate.
    apply lookup_insert_eq. }
  destruct (ledger _); cbn [snd posted]; exact Hp.
Qed.

(** ** What one Member reconciliation does to the rows *)

Lemma filter_one {A} (p : A -> bool) (l : list A) x :
  List.filter p l = [x] -> p x = true.
Proof.
  intros H. assert (Hin : In x (List.filter p l)) by (rewrite H; left; auto).
  apply filter_In in Hin. apply Hin.
Qed.

(** The row the lookup returned, after the call. *)
Lemma member_step_row record k rows m0 :
  record !! "Id" = Some k ->
  members_with k rows = [m0] ->
  members_with k (member_step config record rows)
  = [overwrite (fst (member_patch config record true)) m0].
Proof.
  intros HId Hone.
  assert (Hc : length (members_with k rows) = 1%nat) by (rewrite Hone; auto).
  rewrite (member_step_found _ _ _ HId Hc). unfold members_with in *.
  rewrite filter_map_same by (intros; apply (on_key_has _ _ _ _ HId)).
  rewrite Hone. cbn [List.map]. unfold on_key.
  rewrite (filter_one _ _ _ Hone). reflexivity.
Qed.

(** The row that replaces none or several. *)
Lemma member_step_new_row record k rows :
  record !! "Id" = Some k ->
  length (members_with k rows) <> 1%nat ->
  members_with k (member_step config record rows)
  = [overwrite (fst (member_patch config record false)) Member.new].
Proof.
  intros HId Hc. rewrite (member_step_fresh _ _ _ HId Hc). unfold members_with.
  rewrite List.filter_app, filter_has_negb. cbn [List.filter app].
  assert (H : member_has k
            (overwrite (fst (member_patch config record false)) Member.new)
            = true).
  { apply member_has_key, overwrite_key, HId. }
  rewrite H. reflexivity.
Qed.

(** The fields a record that is reconciled to completion leaves in its
    row. *)
Lemma member_patch_fields record stored k fn bn em br ba m0 :
  record !! "Id" = Some k ->
  record !! "FullName" = Some fn ->
  record !! "BillingName" = Some bn ->
  record !! "Email" = Some em ->
  record !! "BankBranch" = Some br ->
  record !! "BankAccount" = Some ba ->
  member_result config record = Ok tt ->
  let m := overwrite (fst (member_patch config record stored)) m0 in
  Member.nexudus_user_id m = k /\
  Member.fullname m = fn /\
  Member.billing_name m = (if truthy bn then bn else fn) /\
  Member.email m = em /\
  Member.routing_number m = br /\
  Member.account_number m = ba.
Proof.
  intros HId HFn HBn HEm HBr HBa. unfold member_result, member_patch.
  rewrite HId, HFn, HBn, HEm, HBr, HBa.
  destruct (ach_populated br ba) as [e|[|]]; [discriminate| |];
    destruct em; try discriminate; intros _; destruct stored;
    cbn; repeat split; reflexivity.
Qed.

(** X9. A Member record that is reconciled to completion leaves exactly
    one row for its remote id, committed, whatever rows there were for the
    id before; the row has the record's full name, e-mail, bank routing and
    bank account as received, and as billing name the record's billing
    name, or the full name when the billing name is empty or null. *)
Theorem member_row_follows_record record w w' k fn bn em br ba :
  record !! "Id" = Some k ->
  record !! "FullName" = Some fn ->
  record !! "BillingName" = Some bn ->
  record !! "Email" = Some em ->
  record !! "BankBranch" = Some br ->
  record !! "BankAccount" = Some ba ->
  add_or_overwrite_member config record w = (Ok tt, w') ->
  exists m,
    members_with k (members (sess w')) = [m] /\
    durable w' = sess w' /\
    Member.nexudus_user_id m = k /\
    Member.fullname m = fn /\
    Member.billing_name m = (if truthy bn then bn else fn) /\
    Member.email m = em /\
    Member.routing_number m = br /\
    Member.account_number m = ba.
Proof.
  intros HId HFn HBn HEm HBr HBa Hrun.
  pose proof (add_or_overwrite_member_sound record w) as H.
  rewrite Hrun in H. destruct H as (Hres & Hmem & _ & Hdur & _).
  symmetry in Hres. rewrite Hmem.
  destruct (Nat.eq_dec (length (members_with k (members (sess w)))) 1%nat)
    as [Hc|Hc].
  - destruct (members_with k (members (sess w))) as [|m0 [|m1 l]] eqn:Hone;
      try discriminate Hc.
    rewrite (member_step_row _ _ _ _ HId Hone). eexists.
    split; [reflexivity|]. split; [exact Hdur|].
    apply (member_patch_fields record true k fn bn em br ba m0); assumption.
  - rewrite (member_step_new_row _ _ _ HId Hc). eexists.
    split; [reflexivity|]. split; [exact Hdur|].
    apply (member_patch_fields record false k fn bn em br ba Member.new);
      assumption.
Qed.

(** X10. Reconciling a Member record, however the call ends, leaves the
    rows of every other remote id as they were, in the same order, and
    leaves the Invoice table, the requests and the clock alone; a record
    without ["Id"] changes no row at all. *)
Theorem member_reconciliation_is_local record w :
  let w' := snd (add_or_overwrite_member config record w) in
  invoices (sess w') = invoices (sess w) /\
  net w' = net w /\
  clock w' = clock w /\
  (forall k k',
     record !! "Id" = Some k -> k' <> k ->
     members_with k' (members (sess w'))
     = members_with k' (members (sess w))) /\
  (record !! "Id" = None -> sess w' = sess w /\ durable w' = durable w).
Proof.
  pose proof (add_or_overwrite_member_sound record w) as H.
  destruct (add_or_overwrite_member config record w) as [res w'].
  destruct H as (Hres & Hmem & Hinv & Hdur & Hnet & Hclock). cbn [snd].
  split; [exact Hinv|]. split; [exact Hnet|]. split; [exact Hclock|]. split.
  - intros k k' HId Hne. rewrite Hmem.
    apply (member_step_other _ _ _ _ HId Hne).
  - intros HId. rewrite (member_step_no_key _ _ HId) in Hmem.
    split; [apply store_eq; assumption|].
    unfold member_result, member_patch in Hres. rewrite HId in Hres.
    cbn [snd] in Hres. subst res. exact Hdur.
Qed.

(** X11. When several rows share the remote id of a well-formed record, all
    of them are deleted and one new row is stored for the id; its
    auto_process is decided as for a new Member (the configured default
    when the bank fields are populated, false otherwise), whatever the
    deleted rows held. *)
Theorem duplicate_members_are_replaced record w k fn bn em br ba :
  record !! "Id" = Some k ->
  record !! "FullName" = Some fn ->
  record !! "BillingName" = Some bn ->
  record !! "Email" = Some (VStr em) ->
  record !! "BankBranch" = Some br ->
  record !! "BankAccount" = Some ba ->
  is_text br -> is_text ba ->
  (2 <= length (members_with k (members (sess w))))%nat ->
  exists w',
    add_or_overwrite_member config record w = (Ok tt, w') /\
    members (sess w') =
      List.filter (fun m => negb (member_has k m)) (members (sess w))
      ++ [Member.mk k fn (if truthy bn then bn else fn) (VStr em) br ba
            (if bank_populated br ba then PROCESS_AUTOMATICALLY config
             else VBool false)] /\
    durable w' = sess w'.
Proof.
  intros HId HFn HBn HEm HBr HBa Hr Ha Hmany.
  pose proof (add_or_overwrite_member_sound record w) as H.
  destruct (add_or_overwrite_member config record w) as [res w'].
  destruct H as (Hres & Hmem & _ & Hdur & _).
  unfold member_result in Hres.
  rewrite (member_patch_text _ true _ _ _ _ _ _ HId HFn HBn HEm HBr HBa Hr Ha)
    in Hres.
  cbn [snd] in Hres. subst res. exists w'. split; [reflexivity|].
  split; [|exact Hdur]. rewrite Hmem, (member_step_fresh _ k) by (auto; lia).
  rewrite (member_patch_text _ false _ _ _ _ _ _ HId HFn HBn HEm HBr HBa Hr Ha).
  cbn [fst]. destruct (bank_populated br ba); reflexivity.
Qed.

(** X12. A well-formed Member record whose e-mail is not a string (a JSON
    null, say) stops the batch it is in: the reconciler raises [TypeError]
    when it builds its log line, after the fields were assigned and before
    the commit, so nothing is committed for the record, and the local
    [callback] of [sync_table], which catches [KeyError] only, does not
    process the records after it. *)
Theorem member_without_email_stops_batch record records w k fn bn em br ba :
  record !! "Id" = Some k ->
  record !! "FullName" = Some fn ->
  record !! "BillingName" = Some bn ->
  record !! "Email" = Some em ->
  record !! "BankBranch" = Some br ->
  record !! "BankAccount" = Some ba ->
  is_text br -> is_text ba ->
  (forall s, em <> VStr s) ->
  exists w',
    callback (add_or_overwrite_member config) (record :: records) w
    = (Raise TypeError, w') /\
    durable w' = durable w /\
    exists m,
      members_with k (members (sess w')) = [m] /\ Member.email m = em.
Proof.
  intros HId HFn HBn HEm HBr HBa Hr Ha Hem. rewrite callback_cons.
  pose proof (add_or_overwrite_member_sound record w) as H.
  destruct (add_or_overwrite_member config record w) as [res w'].
  destruct H as (Hres & Hmem & _ & Hdur & _).
  assert (Hpatch : forall stored,
    exists p, member_patch config record stored = (p, Raise TypeError) /\
              final p F_email = Some em).
  { intros stored. unfold member_patch.
    rewrite HId, HFn, HBn, HEm, HBr, HBa, (ach_populated_text br ba Hr Ha).
    destruct em as [| | |s]; try (destruct (Hem s); reflexivity);
      destruct (bank_populated br ba), stored; eexists; split; reflexivity. }
  unfold member_result in Hres.
  destruct (Hpatch true) as (p & Hp & Hfin). rewrite Hp in Hres.
  cbn [snd] in Hres. subst res. cbn [is_KeyError].
  exists w'. split; [reflexivity|]. split; [exact Hdur|].
  rewrite Hmem.
  destruct (Nat.eq_dec (length (members_with k (members (sess w)))) 1%nat)
    as [Hc|Hc].
  - destruct (members_with k (members (sess w))) as [|m0 [|m1 l]] eqn:Hone;
      try discriminate Hc.
    rewrite (member_step_row _ _ _ _ HId Hone), Hp. eexists.
    split; [reflexivity|]. cbn [fst].
    change (get F_email (overwrite p m0) = em).
    rewrite get_overwrite, Hfin. reflexivity.
  - rewrite (member_step_new_row _ _ _ HId Hc).
    destruct (Hpatch false) as (p' & Hp' & Hfin'). rewrite Hp'. eexists.
    split; [reflexivity|]. cbn [fst].
    change (get F_email (overwrite p' Member.new) = em).
    rewrite get_overwrite, Hfin'. reflexivity.
Qed.

(** X13. A well-formed Member record whose bank routing is a true value
    that is not a string (a JSON number other than zero, or [true]) stops
    the batch it is in: the local [nstrip] calls [strip] on it, which
    raises [AttributeError]; nothing is committed for the record and the
    records after it are not processed. *)
Theorem member_with_numeric_routing_stops_batch record records w k fn bn em
    br ba :
  record !! "Id" = Some k ->
  record !! "FullName" = Some fn ->
  record !! "BillingName" = Some bn ->
  record !! "Email" = Some em ->
  record !! "BankBranch" = Some br ->
  record !! "BankAccount" = Some ba ->
  truthy br = true ->
  (forall s, br <> VStr s) ->
  exists w',
    callback (add_or_overwrite_member config) (record :: records) w
    = (Raise AttributeError, w') /\
    durable w' = durable w.
Proof.
  intros HId HFn HBn HEm HBr HBa Htrue Hbr. rewrite callback_cons.
  pose proof (add_or_overwrite_member_sound record w) as H.
  destruct (add_or_overwrite_member config record w) as [res w'].
  destruct H as (Hres & _ & _ & Hdur & _).
  unfold member_result, member_patch in Hres.
  rewrite HId, HFn, HBn, HEm, HBr, HBa in Hres.
  assert (Hach : ach_populated br ba = inl AttributeError).
  { unfold ach_populated, nstrip. rewrite Htrue.
    destruct br as [| | |s]; try reflexivity. destruct (Hbr s). reflexivity. }
  rewrite Hach in Hres. cbn [snd] in Hres. subst res. cbn [is_KeyError].
  exists w'. split; [reflexivity|exact Hdur].
Qed.

(** X14. A record that fails on a missing field has assigned the fields that
    come before it, and the next record that is reconciled to completion
    commits them with its own: after the record of a stored Member that
    lacks ["BillingName"], followed by a record of another Member that
    completes, the committed row of the first has the new full name and is
    otherwise as it was, although its record was set aside as invalid. *)
Theorem partial_update_is_committed_later r1 r2 w k1 k2 fn m :
  r1 !! "Id" = Some k1 ->
  r1 !! "FullName" = Some fn ->
  r1 !! "BillingName" = None ->
  r2 !! "Id" = Some k2 ->
  k2 <> k1 ->
  member_result config r2 = Ok tt ->
  members_with k1 (members (sess w)) = [m] ->
  exists w1 w',
    add_or_overwrite_member config r1 w
    = (Raise (KeyError "BillingName"), w1) /\
    durable w1 = durable w /\
    callback (add_or_overwrite_member config) [r1; r2] w = (Ok tt, w') /\
    members_with k1 (members (durable w'))
    = [Member.set_fullname fn (Member.set_nexudus_user_id k1 m)].
Proof.
  intros HId HFn HBn HId2 Hne Hok Hone. rewrite callback_cons.
  pose proof (add_or_overwrite_member_sound r1 w) as H1.
  destruct (add_or_overwrite_member config r1 w) as [res1 w1].
  destruct H1 as (Hres1 & Hmem1 & _ & Hdur1 & _).
  assert (Hp1 : member_patch config r1 true
                = ([(F_nexudus_user_id, k1); (F_fullname, fn)],
                   Raise (KeyError "BillingName"))).
  { unfold member_patch. rewrite HId, HFn, HBn. reflexivity. }
  unfold member_result in Hres1. rewrite Hp1 in Hres1. cbn [snd] in Hres1.
  subst res1. cbn [is_KeyError]. rewrite callback_cons.
  match goal with
  | |- context [add_or_overwrite_member config r2 ?w0] =>
      pose proof (add_or_overwrite_member_sound r2 w0) as H2;
      destruct (add_or_overwrite_member config r2 w0) as [res2 w2]
  end.
  destruct H2 as (Hres2 & Hmem2 & _ & Hdur2 & _).
  rewrite Hok in Hres2. subst res2. cbn [set_log sess members] in Hmem2.
  exists w1, w2. split; [reflexivity|]. split; [exact Hdur1|].
  split; [reflexivity|].
  rewrite Hdur2, Hmem2, (member_step_other _ _ _ _ HId2) by congruence.
  rewrite Hmem1, (member_step_row _ _ _ _ HId Hone), Hp1. reflexivity.
Qed.

(** ** What one Invoice reconciliation does to the rows *)

Lemma find_all_one_filter {A} (p : A -> bool) (l : list A) i :
  find_all p l 0%nat = [i] ->
  exists x, List.filter p l = [x] /\ l !! i = Some x.
Proof.
  intros H. pose proof (find_all_filter p l 0%nat) as HF. rewrite H in HF.
  inversion HF as [|i' x il xl [Hi _] Hrest]; subst.
  inversion Hrest; subst. exists x. rewrite Nat.sub_0_r in Hi. auto.
Qed.

(** The gate lets a record through unless the lookup of its owner returns
    a Member whose invoices are not processed automatically. *)
Lemma invoice_gate_open record rows uid :
  record !! "CoworkerId" = Some uid ->
  (forall m, members_with uid rows = [m] ->
             truthy (Member.process_automatically m) = true) ->
  invoice_gate record rows = Ok false.
Proof.
  intros HUid Hauto. unfold invoice_gate. rewrite HUid.
  destruct (find_all (member_has uid) rows 0%nat) as [|i [|j l]] eqn:Hf;
    try reflexivity.
  destruct (find_all_one_filter _ _ _ Hf) as (m & Hone & Hi).
  rewrite Hi. simpl. rewrite (Hauto m Hone). reflexivity.
Qed.

(** X15. An invoice record that passes the gate (its owner is not stored,
    is stored once with a true auto_process, or is stored several times)
    and whose remote id has no row, or several, is stored as one new row,
    committed at once: unfinalised, with the status "Not processed", no
    transaction id or status code, the amount converted from
    ["TotalAmount"] and the time of the call; the rows that shared its id
    are deleted, the other rows and the Member table are as before. *)
Theorem new_invoice_is_stored record w k uid sid total a :
  record !! "Id" = Some k ->
  record !! "CoworkerId" = Some uid ->
  record !! "BusinessId" = Some sid ->
  record !! "TotalAmount" = Some total ->
  pyfloat total = inr a ->
  (forall m, members_with uid (members (sess w)) = [m] ->
             truthy (Member.process_automatically m) = true) ->
  length (invoices_with k (invoices (sess w))) <> 1%nat ->
  exists w',
    add_or_overwrite_invoice pyfloat record w = (Ok tt, w') /\
    invoices (sess w') =
      List.filter (fun i => negb (invoice_has k i)) (invoices (sess w))
      ++ [Invoice.mk k uid sid (clock w) a (VBool false) VNone
            (VStr "Not processed") VNone] /\
    (invoices_with k (invoices (sess w)) = [] ->
     List.filter (fun i => negb (invoice_has k i)) (invoices (sess w))
     = invoices (sess w)) /\
    members (sess w') = members (sess w) /\
    durable w' = sess w'.
Proof.
  intros HId HUid HSid HTot Hfl Hauto Hc.
  pose proof (add_or_overwrite_invoice_sound record w) as H.
  destruct (add_or_overwrite_invoice pyfloat record w) as [res w'].
  assert (Ht : targets (members (sess w)) record k).
  { split; [apply (invoice_gate_open _ _ uid); assumption|exact HId]. }
  rewrite (invoice_step_create record (clock w) _ _ k Ht Hc) in H.
  cbv zeta in H. unfold new_invoice in H.
  rewrite HId, HUid, HSid, HTot, Hfl in H.
  destruct H as (-> & Hinv & Hmem & Hdur & _).
  exists w'. split; [reflexivity|]. split; [exact Hinv|].
  split; [apply filter_nil_negb|]. split; [exact Hmem|exact Hdur].
Qed.

(** X16. An invoice record that reaches the creation and whose
    ["TotalAmount"] cannot be converted stops the batch it is in with the
    exception of the conversion: no row is stored for it, nothing is
    committed, the rows that shared its id are gone from the session, and
    the records after it are not processed. *)
Theorem invoice_with_bad_amount_stops_batch record records w k uid sid total
    e :
  record !! "Id" = Some k ->
  record !! "CoworkerId" = Some uid ->
  record !! "BusinessId" = Some sid ->
  record !! "TotalAmount" = Some total ->
  pyfloat total = inl e ->
  is_KeyError e = false ->
  (forall m, members_with uid (members (sess w)) = [m] ->
             truthy (Member.process_automatically m) = true) ->
  length (invoices_with k (invoices (sess w))) <> 1%nat ->
  exists w',
    callback (add_or_overwrite_invoice pyfloat) (record :: records) w
    = (Raise e, w') /\
    durable w' = durable w /\
    invoices_with k (invoices (sess w')) = [].
Proof.
  intros HId HUid HSid HTot Hfl Hke Hauto Hc. rewrite callback_cons.
  pose proof (add_or_overwrite_invoice_sound record w) as H.
  destruct (add_or_overwrite_invoice pyfloat record w) as [res w'].
  assert (Ht : targets (members (sess w)) record k).
  { split; [apply (invoice_gate_open _ _ uid); assumption|exact HId]. }
  rewrite (invoice_step_create record (clock w) _ _ k Ht Hc) in H.
  cbv zeta in H. unfold new_invoice in H.
  rewrite HId, HUid, HSid, HTot, Hfl in H.
  destruct H as (-> & Hinv & Hmem & Hdur & _). rewrite Hke.
  exists w'. split; [reflexivity|]. split; [exact Hdur|].
  rewrite Hinv. apply filter_invoice_negb.
Qed.

(** X17. Rows that share a remote invoice id can be lost altogether: when
    the record of that id passes the gate but lacks ["BusinessId"], the
    rows are deleted before the [KeyError] is raised, and the next record
    that creates an invoice commits the deletion with its own row. *)
Theorem duplicate_invoices_can_be_lost r1 r2 w k1 uid1 k2 uid2 sid2 total2
    a2 :
  r1 !! "Id" = Some k1 ->
  r1 !! "CoworkerId" = Some uid1 ->
  r1 !! "BusinessId" = None ->
  (forall m, members_with uid1 (members (sess w)) = [m] ->
             truthy (Member.process_automatically m) = true) ->
  (2 <= length (invoices_with k1 (invoices (sess w))))%nat ->
  r2 !! "Id" = Some k2 ->
  r2 !! "CoworkerId" = Some uid2 ->
  r2 !! "BusinessId" = Some sid2 ->
  r2 !! "TotalAmount" = Some total2 ->
  pyfloat total2 = inr a2 ->
  (forall m, members_with uid2 (members (sess w)) = [m] ->
             truthy (Member.process_automatically m) = true) ->
  invoices_with k2 (invoices (sess w)) = [] ->
  exists w',
    callback (add_or_overwrite_invoice pyfloat) [r1; r2] w = (Ok tt, w') /\
    invoices_with k1 (invoices (durable w')) = [] /\
    length (invoices_with k2 (invoices (durable w'))) = 1%nat.
Proof.
  intros HId1 HUid1 HSid1 Hauto1 Hmany HId2 HUid2 HSid2 HTot2 Hfl2 Hauto2
    Hnone.
  assert (Hne : k2 <> k1).
  { intros ->. rewrite Hnone in Hmany. cbn in Hmany. lia. }
  rewrite callback_cons.
  pose proof (add_or_overwrite_invoice_sound r1 w) as H1.
  destruct (add_or_overwrite_invoice pyfloat r1 w) as [res1 w1].
  assert (Ht1 : targets (members (sess w)) r1 k1).
  { split; [apply (invoice_gate_open _ _ uid1); assumption|exact HId1]. }
  rewrite (invoice_step_create r1 (clock w) _ _ k1 Ht1) in H1 by lia.
  cbv zeta in H1. unfold new_invoice in H1.
  rewrite HId1, HUid1, HSid1 in H1.
  destruct H1 as (-> & Hinv1 & Hmem1 & Hdur1 & _). cbn [is_KeyError].
  rewrite callback_cons.
  match goal with
  | |- context [add_or_overwrite_invoice pyfloat r2 ?w0] =>
      pose proof (add_or_overwrite_invoice_sound r2 w0) as H2;
      destruct (add_or_overwrite_invoice pyfloat r2 w0) as [res2 w2]
  end.
  cbn [set_log sess members invoices clock] in H2.
  assert (Hnone1 : invoices_with k2 (invoices (sess w1)) = []).
  { rewrite Hinv1. unfold invoices_with.
    rewrite (filter_invoice_other _ _ _ Hne). exact Hnone. }
  rewrite (invoice_step_create r2 _ _ _ k2) in H2.
  2:{ split; [|exact HId2]. apply (invoice_gate_open _ _ uid2); [exact HUid2|].
      rewrite Hmem1. exact Hauto2. }
  2:{ rewrite Hnone1. discriminate. }
  cbv zeta in H2. unfold new_invoice in H2.
  rewrite HId2, HUid2, HSid2, HTot2, Hfl2 in H2.
  destruct H2 as (-> & Hinv2 & Hmem2 & Hdur2 & _).
  exists w2. split; [reflexivity|]. rewrite Hdur2, Hinv2.
  unfold invoices_with. rewrite !List.filter_app. cbn [List.filter].
  rewrite (filter_nil_negb _ _ Hnone1), Hinv1.
  rewrite filter_invoice_negb.
  rewrite (filter_invoice_other k1 k2) by exact Hne.
  fold (invoices_with k2 (invoices (sess w))). rewrite Hnone.
  unfold invoice_has. cbn [Invoice.nexudus_invoice_id].
  rewrite (bool_decide_eq_false_2 (k2 = k1)) by exact Hne.
  rewrite (bool_decide_eq_true_2 (k2 = k2)) by reflexivity.
  split; reflexivity.
Qed.

(** ** What a run leaves alone *)

Lemma member_run_invoices records : forall (v d : @Store Amount) s' ab,
  run_list (member_db_step config) records (v, d) = (s', ab) ->
  invoices d = invoices v ->
  invoices (fst s') = invoices v /\ invoices (snd s') = invoices v.
Proof.
  induction records as [|r records IH]; intros v d s' ab Hrun Hd.
  - injection Hrun as <- <-. auto.
  - cbn [run_list] in Hrun.
    destruct (member_db_step_shape r v d) as (ab1 & Hstep).
    rewrite Hstep in Hrun. destruct ab1 as [e|].
    + injection Hrun as <- <-. cbn [fst snd invoices set_members].
      split; [reflexivity|]. destruct (member_result config r); auto.
    + apply IH in Hrun; [exact Hrun|].
      destruct (member_result config r); cbn [invoices set_members]; auto.
Qed.

(** One step of an Invoice run keeps the row of a remote id that has one
    row. *)
Lemma invoice_db_step_keeps_row record (v d : @Store Amount) t k inv :
  invoices_with k (invoices v) = [inv] ->
  exists v' d' t' ab,
    invoice_db_step pyfloat record (v, d, t) = ((v', d', t'), ab) /\
    invoices_with k (invoices v') = [inv] /\
    (d' = d \/ d' = v').
Proof.
  intros Hone.
  assert (Hc : length (invoices_with k (invoices v)) = 1%nat)
    by (rewrite Hone; reflexivity).
  destruct (targets_dec (members v) record) as [[k0 Ht]|Hn].
  2:{ destruct (invoice_db_step_skip record v d t Hn) as (t' & ->).
      exists v, d, t', None. auto. }
  destruct (Nat.eq_dec (length (invoices_with k0 (invoices v))) 1%nat)
    as [H1|H1].
  { destruct (invoice_db_step_found record v d t k0 Ht H1) as (t' & ->).
    exists v, d, t', None. auto. }
  assert (Hne : k <> k0) by (intros ->; contradiction).
  destruct (creation pyfloat record) as [[]|e] eqn:Hcr.
  - destruct (invoice_db_step_create record v d t k0 Ht H1 Hcr)
      as (inv0 & t' & Hk & Hstep). cbv zeta in Hstep.
    eexists _, _, t', None. split; [exact Hstep|].
    cbn [invoices set_invoices]. split; [|right; reflexivity].
    unfold invoices_with in *. rewrite List.filter_app.
    rewrite (filter_invoice_other _ _ _ Hne), Hone. cbn [List.filter].
    assert (H : invoice_has k inv0 = false).
    { unfold invoice_has. apply bool_decide_eq_false. congruence. }
    rewrite H. reflexivity.
  - destruct (invoice_db_step_fail record v d t k0 e Ht H1 Hcr)
      as (t' & Hstep).
    eexists _, _, t', _. split; [exact Hstep|].
    cbn [invoices set_invoices]. split; [|left; reflexivity].
    unfold invoices_with in *.
    rewrite (filter_invoice_other _ _ _ Hne). exact Hone.
Qed.

Lemma invoice_run_keeps_row records k inv :
  forall (v d : @Store Amount) t v' d' t' ab,
    run_list (invoice_db_step pyfloat) records (v, d, t)
    = ((v', d', t'), ab) ->
    invoices_with k (invoices v) = [inv] ->
    invoices_with k (invoices d) = [inv] ->
    invoices_with k (invoices v') = [inv] /\
    invoices_with k (invoices d') = [inv].
Proof.
  induction records as [|r records IH]; intros v d t v' d' t' ab Hrun Hv Hd.
  - injection Hrun as <- <- <- <-. auto.
  - cbn [run_list] in Hrun.
    destruct (invoice_db_step_keeps_row r v d t k inv Hv)
      as (v1 & d1 & t1 & ab1 & Hstep & Hv1 & Hd1).
    rewrite Hstep in Hrun.
    assert (Hd1' : invoices_with k (invoices d1) = [inv]).
    { destruct Hd1 as [->| ->]; assumption. }
    destruct ab1 as [e|].
    + injection Hrun as <- <- <- <-. auto.
    + apply (IH _ _ _ _ _ _ _ Hrun Hv1 Hd1').
Qed.

(** X18. A sync run keeps to its table: whatever the remote answers and
    however the run ends, the committed Invoice rows are the same after a
    Member sync, and the committed Member rows are the same after an
    Invoice sync. *)
Theorem sync_keeps_to_its_table fuel remote space w :
  (forall r1 w1,
     sync_member_table int_of_str config fuel remote space w = Some (r1, w1) ->
     invoices (durable w1) = invoices (durable w)) /\
  (forall r1 w1,
     sync_invoice_table pyfloat int_of_str config fuel remote space w
       = Some (r1, w1) ->
     members (durable w1) = members (durable w)).
Proof.
  split; intros r1 w1 H.
  - unfold sync_member_table, sync_table, sm, process_batch in H.
    destruct (for_in_trace db (add_or_overwrite_member config)
                (member_db_step config) (fun _ _ => eq_refl)
                (fun _ _ => eq_refl) member_db_step_sound _ _ _ _ _ _ H)
      as (records & ab & Hrun & _).
    unfold db at 1 in Hrun. cbn [sess durable set_sess] in Hrun.
    apply member_run_invoices in Hrun; [|reflexivity].
    apply Hrun.
  - unfold sync_invoice_table, sync_table, sm, process_batch in H.
    destruct (for_in_trace db_clock (add_or_overwrite_invoice pyfloat)
                (invoice_db_step pyfloat) (fun _ _ => eq_refl)
                (fun _ _ => eq_refl) invoice_db_step_sound _ _ _ _ _ _ H)
      as (records & ab & Hrun & _).
    unfold db_clock at 1 2 in Hrun.
    cbn [sess durable clock set_sess] in Hrun.
    destruct (invoice_run_facts records _ _ _ _ _
                (coherent_refl (durable w)) Hrun)
      as (v' & d' & t' & [= <- <- <-] & [Hco _] & Hm & _).
    congruence.
Qed.

(** X19. An Invoice sync never modifies or deletes an invoice that is
    stored once: when the committed store holds exactly one row for a
    remote invoice id before the run, it holds that very row, and no other
    for the id, after the run, whatever the feed says about the invoice and
    however the run ends. *)
Theorem stored_invoice_survives_sync fuel remote space w r1 w1 k inv :
  sync_invoice_table pyfloat int_of_str config fuel remote space w
    = Some (r1, w1) ->
  invoices_with k (invoices (durable w)) = [inv] ->
  invoices_with k (invoices (durable w1)) = [inv].
Proof.
  intros H Hone.
  unfold sync_invoice_table, sync_table, sm, process_batch in H.
  destruct (for_in_trace db_clock (add_or_overwrite_invoice pyfloat)
              (invoice_db_step pyfloat) (fun _ _ => eq_refl)
              (fun _ _ => eq_refl) invoice_db_step_sound _ _ _ _ _ _ H)
    as (records & ab & Hrun & _).
  unfold db_clock at 1 2 in Hrun.
  cbn [sess durable clock set_sess] in Hrun.
  apply (invoice_run_keeps_row _ k inv _ _ _ _ _ _ _ Hrun Hone Hone).
Qed.

(** ** The requests of a run *)

Lemma tracks_init url_part payload s :
  tracks config url_part payload 0 (get_records config url_part payload s).
Proof. repeat split. Qed.

(** One call of [next] sends at most one request, the one for the next
    page, and a generator that yields goes on tracking the collection. *)
Lemma next_tracks remote url_part payload (c : nat) (g : Generator) w :
  tracks config url_part payload c g ->
  exists res reqs,
    next int_of_str remote g w = (res, set_net (net w ++ reqs) w) /\
    (reqs = []
     \/ reqs = [request_of config url_part payload (Z.of_nat (c + 1))]) /\
    forall batch g1,
      res = Ok (Some batch, g1) ->
      reqs = [request_of config url_part payload (Z.of_nat (c + 1))] /\
      tracks config url_part payload (S c) g1.
Proof.
  intros (Hu & Hc & Hp & Hpage).
  assert (Hid : w = set_net (net w ++ []) w).
  { rewrite app_nil_r. destruct w; reflexivity. }
  assert (Hreq : page_request g
                 = request_of config url_part payload (Z.of_nat (c + 1))).
  { unfold page_request, request_of. rewrite Hu, Hc, Hp, Hpage.
    do 3 f_equal. lia. }
  unfold next. destruct (finished g).
  { eexists _, []. split; [rewrite <- Hid; reflexivity|].
    split; [left; reflexivity|]. intros batch g1 [=]. }
  destruct (truthy (has_next_page g)).
  2:{ eexists _, []. split; [rewrite <- Hid; reflexivity|].
      split; [left; reflexivity|]. intros batch g1 [=]. }
  unfold bind at 1, requests_get_json. fold (page_request g). rewrite Hreq.
  destruct (remote _) as [e|res].
  { eexists _, [_]. split; [reflexivity|]. split; [right; reflexivity|].
    intros batch g1 [=]. }
  assert (Hchk : exists r : Res unit, forall w : @World Amount,
    (if single g
     then bind (getkey (TotalItems res) "TotalItems")
            (fun total => bind (lift (py_int int_of_str total))
               (fun n => if negb (n =? 1)
                         then raise MultipleResultsFoundException
                         else ret tt))
     else ret tt) w = (r, w)).
  { destruct (single g); [|eexists; intros; reflexivity].
    destruct (TotalItems res) as [total|]; [|eexists; intros; reflexivity].
    cbv [bind getkey lift ret raise].
    destruct (py_int int_of_str total) as [e|n];
      [eexists; intros; reflexivity|].
    destruct (negb (n =? 1)); eexists; intros w0; reflexivity. }
  destruct Hchk as (r & Hr).
  destruct r as [[]|e].
  2:{ eexists _, [_]. split; [unfold bind at 1; rewrite Hr; reflexivity|].
      split; [right; reflexivity|]. intros batch g1 [=]. }
  destruct (HasNextPage res) as [h|].
  2:{ eexists _, [_]. split; [unfold bind at 1; rewrite Hr; reflexivity|].
      split; [right; reflexivity|]. intros batch g1 [=]. }
  destruct (Records res) as [records|].
  2:{ eexists _, [_]. split; [unfold bind at 1; rewrite Hr; reflexivity|].
      split; [right; reflexivity|]. intros batch g1 [=]. }
  eexists _, [_]. split; [unfold bind at 1; rewrite Hr; reflexivity|].
  split; [right; reflexivity|]. intros batch g1 [= <- <-].
  split; [reflexivity|]. unfold tracks.
  cbn [url creds params current_page]. repeat split; auto.
  - intros v. rewrite insert_insert_eq. apply Hp.
  - rewrite Hpage. lia.
Qed.

Lemma callback_net (sync_callback : Rec -> @M Amount unit) :
  (forall record w, net (snd (sync_callback record w)) = net w) ->
  forall records w, net (snd (callback sync_callback records w)) = net w.
Proof.
  intros Hcb. induction records as [|record records IH]; intros w;
    [reflexivity|].
  rewrite callback_cons. specialize (Hcb record w).
  destruct (sync_callback record w) as [[[]|e] w1]; cbn [snd] in Hcb.
  - rewrite IH. exact Hcb.
  - destruct (is_KeyError e); [|exact Hcb]. rewrite IH. exact Hcb.
Qed.

(** The requests of a loop over the generator are those for consecutive
    pages, when the body sends none. *)
Lemma for_in_requests remote url_part payload
    (body : list Rec -> @M Amount unit) :
  (forall l w, net (snd (body l w)) = net w) ->
  forall fuel (g : Generator) (c : nat) w r w',
    tracks config url_part payload c g ->
    for_in int_of_str fuel remote g body w = Some (r, w') ->
    exists n, net w' = net w ++ page_requests config url_part payload c n.
Proof.
  intros Hbody. induction fuel as [|fuel IH]; intros g c w r w' Htr H;
    [discriminate H|].
  cbn [for_in] in H.
  destruct (next_tracks remote url_part payload c g w Htr)
    as (res & reqs & Hnext & Hreqs & Hyield).
  rewrite Hnext in H.
  assert (Hstop : exists n,
    net (set_net (net w ++ reqs) w)
    = net w ++ page_requests config url_part payload c n).
  { destruct Hreqs as [-> | ->]; [exists 0%nat|exists 1%nat]; reflexivity. }
  destruct res as [[[batch|] g1]|e];
    [|injection H as <- <-; exact Hstop..].
  destruct (Hyield batch g1 eq_refl) as [-> Htr1].
  pose proof (Hbody batch (set_net
    (net w ++ [request_of config url_part payload (Z.of_nat (c + 1))]) w))
    as Hb.
  destruct (body batch _) as [[[]|e] w1]; cbn [snd net set_net] in Hb.
  - destruct (IH _ _ _ _ _ Htr1 H) as (n & Hn). exists (S n).
    rewrite Hn, Hb, <- app_assoc. unfold page_requests.
    cbn [seq List.map app]. replace (S c + 1)%nat with (S (c + 1)) by lia.
    reflexivity.
  - injection H as <- <-. exists 1%nat. exact Hb.
Qed.

(** X20. Every request of a sync run is for the collection of the run and
    carries the restriction to the space the run is for: a Member sync sends
    requests for consecutive pages 1, 2, ... of "spaces/coworkers" with
    [Coworker_InvoicingBusiness] set to the space, an Invoice sync for
    consecutive pages of "billing/coworkerinvoices" with
    [CoworkerInvoice_Business] set to the space, and neither sends anything
    else. *)
Theorem sync_requests_stay_in_space fuel remote space w :
  (forall r1 w1,
     sync_member_table int_of_str config fuel remote space w = Some (r1, w1) ->
     exists n,
       net w1 =
         net w
         ++ List.map
              (fun p =>
                 {| req_url := NEXUDUS_API_URL config +:+ "spaces/coworkers";
                    req_params :=
                      <["page" := VInt (Z.of_nat p)]>
                        (<["Coworker_InvoicingBusiness" := space]>
                           (<["Coworker_Active" := VStr "true"]>
                              (<["size" := VInt 100]> ∅)));
                    req_auth := (NEXUDUS_EMAIL config, NEXUDUS_PASS config) |})
              (seq 1 n)) /\
  (forall r1 w1,
     sync_invoice_table pyfloat int_of_str config fuel remote space w
       = Some (r1, w1) ->
     exists n,
       net w1 =
         net w
         ++ List.map
              (fun p =>
                 {| req_url :=
                      NEXUDUS_API_URL config +:+ "billing/coworkerinvoices";
                    req_params :=
                      <["page" := VInt (Z.of_nat p)]>
                        (<["CoworkerInvoice_Business" := space]>
                           (<["CoworkerInvoice_Paid" := VStr "false"]>
                              (<["size" := VInt 100]> ∅)));
                    req_auth := (NEXUDUS_EMAIL config, NEXUDUS_PASS config) |})
              (seq 1 n)).
Proof.
  split; intros r1 w1 H.
  - unfold sync_member_table, sync_table, sm, process_batch in H.
    apply (for_in_requests remote "spaces/coworkers" (member_query space))
      with (c := 0%nat) in H.
    + exact H.
    + apply callback_net. intros record w0.
      pose proof (add_or_overwrite_member_sound record w0) as Hs.
      destruct (add_or_overwrite_member config record w0) as [res w'].
      apply Hs.
    + apply tracks_init.
  - unfold sync_invoice_table, sync_table, sm, process_batch in H.
    apply (for_in_requests remote "billing/coworkerinvoices"
             (invoice_query space)) with (c := 0%nat) in H.
    + exact H.
    + apply callback_net. intros record w0.
      pose proof (add_or_overwrite_invoice_sound record w0) as Hs.
      destruct (add_or_overwrite_invoice pyfloat record w0) as [res w'].
      destruct (invoice_step pyfloat record (clock w0) (members (sess w0))
                  (invoices (sess w0))) as [[irows r] committed].
      apply Hs.
    + apply tracks_init.
Qed.

(** X21. The generator stops only when a page reports no next page: against
    a remote that answers every request with a page whose continuation flag
    is true, the sequence of batches has no end, whatever the pages hold
    (empty pages included), so that no bound on the number of iterations
    lets the consumption of the generator, or [process_batch] with a body
    that returns normally, come to an end. *)
Theorem endless_feed_never_ends remote url_part payload
    (body : list Rec -> @M Amount unit) :
  (forall rq, exists res h records,
     remote rq = inr res /\ HasNextPage res = Some h /\ truthy h = true /\
     Records res = Some records) ->
  (forall l w, exists w', body l w = (Ok tt, w')) ->
  forall fuel w,
    collect int_of_str fuel remote (get_records config url_part payload false) w
    = None /\
    process_batch int_of_str config fuel remote url_part body payload w = None.
Proof.
  intros Hremote Hbody fuel. unfold process_batch.
  assert (Hinit :
    single (get_records config url_part payload false) = false /\
    finished (get_records config url_part payload false) = false /\
    truthy (has_next_page (get_records config url_part payload false))
    = true) by (repeat split).
  revert Hinit. generalize (get_records config url_part payload false).
  induction fuel as [|fuel IH]; intros g (Hs & Hf & Hh) w;
    [split; reflexivity|].
  destruct (Hremote (page_request g))
    as (res & h & records & Hr & HH & Hth & HR).
  cbn [collect for_in].
  rewrite (next_yields remote g w res h records Hs Hf Hh Hr HH HR).
  match goal with
  | |- context [collect _ fuel remote ?g1 ?w1] =>
      destruct (IH g1 (conj eq_refl (conj eq_refl Hth)) w1) as [Hc _];
      rewrite Hc
  end.
  split; [reflexivity|].
  match goal with
  | |- context [body records ?w1] =>
      destruct (Hbody records w1) as (w2 & ->)
  end.
  match goal with
  | |- for_in _ fuel remote ?g1 body ?w1 = None =>
      apply (IH g1 (conj eq_refl (conj eq_refl Hth)) w1)
  end.
Qed.

(** X22. A [KeyError] of the fetch is not one of a record: when the page a
    sync run asks for first comes without ["HasNextPage"], or without
    ["Records"], [sync_table] ends with the [KeyError] for that key, having
    processed no record (those of the page included) and logged nothing. *)
Theorem page_without_key_stops_sync fuel remote space
    (sync_callback : Rec -> @M Amount unit) payload url_part business_var w
    res :
  remote (request_of config url_part (<[business_var := space]> payload) 1)
  = inr res ->
  HasNextPage res = None \/ Records res = None ->
  sync_table int_of_str config (S fuel) remote space sync_callback payload
    url_part business_var w
  = Some (Raise (KeyError (match HasNextPage res with
                           | None => "HasNextPage"
                           | Some _ => "Records"
                           end)),
          set_net
            (net w
             ++ [request_of config url_part (<[business_var := space]> payload)
                   1])
            (set_sess (durable w) w)).
Proof.
  intros Hr Hmiss. unfold sync_table, sm, process_batch. cbn [for_in].
  unfold next, get_records.
  cbn [finished has_next_page truthy url creds params current_page single].
  change (0 + 1) with 1.
  unfold bind at 1, requests_get_json.
  change {| req_url := NEXUDUS_API_URL config +:+ url_part;
            req_params :=
              <["page" := VInt 1]> (<[business_var := space]> payload);
            req_auth := (NEXUDUS_EMAIL config, NEXUDUS_PASS config) |}
    with (request_of config url_part (<[business_var := space]> payload) 1).
  rewrite Hr. cbv [bind getkey lift ret raise].
  destruct (HasNextPage res) as [h|]; [|reflexivity].
  destruct Hmiss as [Hm|Hm]; [discriminate Hm|]. rewrite Hm. reflexivity.
Qed.

(** ** Loops over a feed *)

Lemma for_in_over_pages remote url_part payload
    (body : list Rec -> @M Amount unit) pages :
  forall (g : Generator) (c fuel : nat) w,
    serves config remote url_part payload c pages g ->
    (length pages < fuel)%nat ->
    for_in int_of_str fuel remote g body w
    = Some (over_pages config url_part payload body c pages w).
Proof.
  induction pages as [|batch pages IH]; intros g c fuel w Hsv Hfuel;
    (destruct fuel as [|fuel]; [cbn in Hfuel; lia|]); cbn [for_in over_pages].
  - destruct (serves_nil _ _ _ _ _ Hsv) as (g' & Hnext).
    rewrite Hnext. reflexivity.
  - destruct (serves_cons _ _ _ _ _ _ _ Hsv) as (g' & Hnext & Hsv').
    rewrite Hnext. cbv zeta.
    destruct (body batch _) as [[[]|e] w1]; [|reflexivity].
    apply (IH _ _ _ _ Hsv'). cbn in Hfuel. lia.
Qed.

(** X23. Over a feed of N >= 1 pages, [process_batch] and [process_onebyone]
    come to an end within any bound above N, and what they do is a plain
    loop over the pages in order: page i is requested only once the pages
    before it have been processed, its batch (for [process_onebyone] its
    records, one after the other) is handed to the callback, and the first
    exception of the callback ends the loop before any further request. *)
Theorem process_over_feed remote url_part payload pages (fuel : nat) w
    (on_batch : list Rec -> @M Amount unit)
    (on_record : Rec -> @M Amount unit) :
  (1 <= length pages)%nat ->
  feed_of config remote url_part payload pages ->
  (length pages < fuel)%nat ->
  process_batch int_of_str config fuel remote url_part on_batch payload w
  = Some (over_pages config url_part payload on_batch 0 pages w) /\
  process_onebyone int_of_str config fuel remote url_part on_record payload w
  = Some (over_pages config url_part payload
            (fun record_list => for_each record_list on_record) 0 pages w).
Proof.
  intros Hlen Hfeed Hfuel. unfold process_batch, process_onebyone.
  split; apply for_in_over_pages; auto using serves_init.
Qed.

(** ** Reconciling a record again *)

(** X24. Reconciling a record a second time, right after a call that
    returned normally, returns normally again and changes no row: the
    session and the committed store are as the first call left them.  This
    holds for Member records and for Invoice records. *)
Theorem reconciling_again_changes_nothing record w w1 :
  (add_or_overwrite_member config record w = (Ok tt, w1) ->
   exists w2,
     add_or_overwrite_member config record w1 = (Ok tt, w2) /\
     sess w2 = sess w1 /\ durable w2 = durable w1) /\
  (add_or_overwrite_invoice pyfloat record w = (Ok tt, w1) ->
   exists w2,
     add_or_overwrite_invoice pyfloat record w1 = (Ok tt, w2) /\
     sess w2 = sess w1 /\ durable w2 = durable w1).
Proof.
  split; intros Hrun.
  - pose proof (add_or_overwrite_member_sound record w) as H1.
    rewrite Hrun in H1. destruct H1 as (Hres1 & Hmem1 & Hinv1 & Hdur1 & _).
    pose proof (add_or_overwrite_member_sound record w1) as H2.
    destruct (add_or_overwrite_member config record w1) as [res2 w2].
    destruct H2 as (Hres2 & Hmem2 & Hinv2 & Hdur2 & _).
    rewrite <- Hres1 in Hres2. subst res2. exists w2.
    split; [reflexivity|].
    assert (Hs : sess w2 = sess w1).
    { apply store_eq; [|exact Hinv2]. rewrite Hmem2, Hmem1.
      apply (member_steps_idempotent [record]). }
    split; [exact Hs|]. rewrite Hdur2, Hdur1. exact Hs.
  - pose proof (add_or_overwrite_invoice_sound record w) as H1.
    rewrite Hrun in H1.
    pose proof (add_or_overwrite_invoice_sound record w1) as H2.
    destruct (add_or_overwrite_invoice pyfloat record w1) as [res2 w2].
    destruct (targets_dec (members (sess w)) record) as [[k Ht]|Hn].
    2:{ unfold invoice_step in H1, H2. unfold targets in Hn.
        destruct (invoice_gate record (members (sess w))) as [[|]|e] eqn:Hg.
        - destruct H1 as (_ & Hinv1 & Hmem1 & Hdur1 & _).
          rewrite Hmem1, Hg in H2.
          destruct H2 as (-> & Hinv2 & Hmem2 & Hdur2 & _).
          exists w2. split; [reflexivity|].
          split; [apply store_eq; congruence|exact Hdur2].
        - destruct (record !! "Id") as [k|] eqn:HId.
          + destruct (Hn k). auto.
          + destruct H1 as (H1 & _). discriminate H1.
        - destruct H1 as (H1 & _). discriminate H1. }
    destruct (Nat.eq_dec (length (invoices_with k (invoices (sess w)))) 1%nat)
      as [Hc|Hc].
    + rewrite (invoice_step_found _ _ _ _ _ Ht Hc) in H1.
      destruct H1 as (_ & Hinv1 & Hmem1 & Hdur1 & _).
      rewrite Hmem1, Hinv1, (invoice_step_found _ _ _ _ _ Ht Hc) in H2.
      destruct H2 as (-> & Hinv2 & Hmem2 & Hdur2 & _).
      exists w2. split; [reflexivity|].
      split; [apply store_eq; congruence|exact Hdur2].
    + rewrite (invoice_step_create _ _ _ _ _ Ht Hc) in H1. cbv zeta in H1.
      pose proof (new_invoice_creation record (clock w)) as Hnew.
      destruct (new_invoice pyfloat record (clock w)) as [inv|e].
      2:{ destruct H1 as (H1 & _). discriminate H1. }
      destruct H1 as (_ & Hinv1 & Hmem1 & Hdur1 & _).
      destruct Hnew as [_ Hk]. destruct Ht as [Hg HId]. rewrite HId in Hk.
      cbn [default from_option id] in Hk.
      assert (Hc1 : length (invoices_with k (invoices (sess w1))) = 1%nat).
      { rewrite Hinv1, (count_created _ _ _ _ Hk).
        destruct (decide (k = k)); [reflexivity|contradiction]. }
      rewrite Hmem1 in H2.
      rewrite (invoice_step_found _ _ _ _ k (conj Hg HId) Hc1) in H2.
      destruct H2 as (-> & Hinv2 & Hmem2 & Hdur2 & _).
      exists w2. split; [reflexivity|].
      split; [apply store_eq; congruence|exact Hdur2].
Qed.

(** ** The switch for automatic processing *)

Lemma member_patch_stored_switch record v :
  final (fst (member_patch config record true)) F_process_automatically
  = Some v ->
  v = VBool false.
Proof.
  patch_cases record; cbn [fst]; cbv; congruence.
Qed.

(** One step keeps a Member that is stored once and switched off. *)
Lemma member_step_keeps_manual record rows k m :
  members_with k rows = [m] ->
  truthy (Member.process_automatically m) = false ->
  exists m',
    members_with k (member_step config record rows) = [m'] /\
    truthy (Member.process_automatically m') = false.
Proof.
  intros Hone Hoff. destruct (record !! "Id") as [k0|] eqn:HId.
  2:{ rewrite (member_step_no_key _ _ HId). eauto. }
  destruct (decide (k = k0)) as [->|Hne].
  2:{ rewrite (member_step_other _ _ _ _ HId Hne). eauto. }
  rewrite (member_step_row _ _ _ _ HId Hone). eexists. split; [reflexivity|].
  change (truthy (get F_process_automatically
                    (overwrite (fst (member_patch config record true)) m))
          = false).
  rewrite get_overwrite.
  destruct (final (fst (member_patch config record true))
              F_process_automatically) as [v|] eqn:Hv; [|exact Hoff].
  rewrite (member_patch_stored_switch _ _ Hv). reflexivity.
Qed.

Lemma member_run_keeps_manual records k :
  forall (v d : @Store Amount) s' ab m1 m2,
    run_list (member_db_step config) records (v, d) = (s', ab) ->
    members_with k (members v) = [m1] ->
    truthy (Member.process_automatically m1) = false ->
    members_with k (members d) = [m2] ->
    truthy (Member.process_automatically m2) = false ->
    exists m',
      members_with k (members (snd s')) = [m'] /\
      truthy (Member.process_automatically m') = false.
Proof.
  induction records as [|r records IH];
    intros v d s' ab m1 m2 Hrun Hv Hv' Hd Hd'.
  - injection Hrun as <- <-. eauto.
  - cbn [run_list] in Hrun.
    destruct (member_db_step_shape r v d) as (ab1 & Hstep).
    rewrite Hstep in Hrun.
    destruct (member_step_keeps_manual r (members v) k m1 Hv Hv')
      as (m1' & Hv1 & Hv1').
    assert (Hd1 : exists m2',
      members_with k (members
         match member_result config r with
         | Ok _ => set_members (member_step config r (members v)) v
         | Raise _ => d
         end) = [m2'] /\
      truthy (Member.process_automatically m2') = false).
    { destruct (member_result config r); cbn [members set_members]; eauto. }
    destruct Hd1 as (m2' & Hd1 & Hd1').
    destruct ab1 as [e|].
    + injection Hrun as <- <-. cbn [snd]. eauto.
    + apply (IH _ _ _ _ m1' m2' Hrun); assumption.
Qed.

(** X25. A Member sync never switches automatic processing on for a Member
    that is stored: when the committed store holds exactly one row for a
    remote id and its auto_process is false (or was never set), then after
    the run, whatever the feed says and however the run ends, the store
    still holds exactly one row for the id, with a false auto_process. *)
Theorem manual_member_stays_manual fuel remote space w r1 w1 k m :
  sync_member_table int_of_str config fuel remote space w = Some (r1, w1) ->
  members_with k (members (durable w)) = [m] ->
  truthy (Member.process_automatically m) = false ->
  exists m',
    members_with k (members (durable w1)) = [m'] /\
    truthy (Member.process_automatically m') = false.
Proof.
  intros H Hone Hoff.
  unfold sync_member_table, sync_table, sm, process_batch in H.
  destruct (for_in_trace db (add_or_overwrite_member config)
              (member_db_step config) (fun _ _ => eq_refl)
              (fun _ _ => eq_refl) member_db_step_sound _ _ _ _ _ _ H)
    as (records & ab & Hrun & _).
  unfold db at 1 in Hrun. cbn [sess durable set_sess] in Hrun.
  apply (member_run_keeps_manual _ k _ _ _ _ m m Hrun); assumption.
Qed.

(** The owner of an invoice allows it: the lookup of the owner does not
    return a Member with a false auto_process. *)
Lemma invoice_gate_passed record rows uid :
  record !! "CoworkerId" = Some uid ->
  invoice_gate record rows = Ok false ->
  forall m, members_with uid rows = [m] ->
            truthy (Member.process_automatically m) = true.
Proof.
  intros HUid. unfold invoice_gate. rewrite HUid. intros Hg m Hone.
  destruct (find_all_one _ _ _ Hone) as (i & Hf & Hi).
  rewrite Hf, Hi in Hg. simpl in Hg.
  destruct (truthy (Member.process_automatically m)); [reflexivity|].
  discriminate Hg.
Qed.

Lemma invoice_db_step_rows record (v d : @Store Amount) t :
  exists v' d' t' ab,
    invoice_db_step pyfloat record (v, d, t) = ((v', d', t'), ab) /\
    members v' = members v /\
    (d' = d \/ d' = v') /\
    forall inv,
      In inv (invoices v') ->
      In inv (invoices v) \/
      forall m,
        members_with (Invoice.nexudus_user_id inv) (members v) = [m] ->
        truthy (Member.process_automatically m) = true.
Proof.
  destruct (targets_dec (members v) record) as [[k Ht]|Hn].
  2:{ destruct (invoice_db_step_skip record v d t Hn) as (t' & ->).
      exists v, d, t', None. auto. }
  destruct (Nat.eq_dec (length (invoices_with k (invoices v))) 1%nat)
    as [H1|H1].
  { destruct (invoice_db_step_found record v d t k Ht H1) as (t' & ->).
    exists v, d, t', None. auto. }
  unfold invoice_db_step.
  rewrite (invoice_step_create _ t _ _ _ Ht H1). cbv zeta.
  assert (Hold : forall inv,
    In inv (List.filter (fun i => negb (invoice_has k i)) (invoices v)) ->
    In inv (invoices v)).
  { intros inv Hin. apply filter_In in Hin. apply Hin. }
  unfold new_invoice. destruct Ht as [Hg HId]. rewrite HId.
  destruct (record !! "CoworkerId") as [uid|] eqn:HUid.
  2:{ eexists _, _, _, _. split; [reflexivity|].
      cbn [members invoices set_invoices]. auto. }
  destruct (record !! "BusinessId") as [sid|].
  2:{ eexists _, _, _, _. split; [reflexivity|].
      cbn [members invoices set_invoices]. auto. }
  destruct (record !! "TotalAmount") as [total|].
  2:{ eexists _, _, _, _. split; [reflexivity|].
      cbn [members invoices set_invoices]. auto. }
  destruct (pyfloat total) as [e|a].
  { eexists _, _, _, _. split; [reflexivity|].
    cbn [members invoices set_invoices]. auto. }
  eexists _, _, _, _. split; [reflexivity|].
  cbn [members invoices set_invoices]. split; [reflexivity|].
  split; [right; reflexivity|].
  intros inv Hin. apply in_app_iff in Hin as [Hin|[<-|[]]]; [auto|].
  right. cbn [Invoice.nexudus_user_id].
  apply (invoice_gate_passed _ _ _ HUid Hg).
Qed.

Lemma invoice_run_rows records (mrows : list Member.t)
    (old : list (Invoice.t Amount)) :
  forall (v d : @Store Amount) t v' d' t' ab,
    run_list (invoice_db_step pyfloat) records (v, d, t)
    = ((v', d', t'), ab) ->
    members v = mrows ->
    (forall inv, In inv (invoices v) ->
       In inv old \/
       forall m, members_with (Invoice.nexudus_user_id inv) mrows = [m] ->
                 truthy (Member.process_automatically m) = true) ->
    (forall inv, In inv (invoices d) ->
       In inv old \/
       forall m, members_with (Invoice.nexudus_user_id inv) mrows = [m] ->
                 truthy (Member.process_automatically m) = true) ->
    forall inv, In inv (invoices d') ->
      In inv old \/
      forall m, members_with (Invoice.nexudus_user_id inv) mrows = [m] ->
                truthy (Member.process_automatically m) = true.
Proof.
  induction records as [|r records IH];
    intros v d t v' d' t' ab Hrun Hm Hv Hd.
  - injection Hrun as <- <- <- <-. exact Hd.
  - cbn [run_list] in Hrun.
    destruct (invoice_db_step_rows r v d t)
      as (v1 & d1 & t1 & ab1 & Hstep & Hm1 & Hd1 & Hrows).
    rewrite Hstep in Hrun.
    assert (Hv1 : forall inv, In inv (invoices v1) ->
       In inv old \/
       forall m, members_with (Invoice.nexudus_user_id inv) mrows = [m] ->
                 truthy (Member.process_automatically m) = true).
    { intros inv Hin. destruct (Hrows inv Hin) as [H|H]; [auto|].
      right. rewrite <- Hm. exact H. }
    assert (Hd1' : forall inv, In inv (invoices d1) ->
       In inv old \/
       forall m, members_with (Invoice.nexudus_user_id inv) mrows = [m] ->
                 truthy (Member.process_automatically m) = true).
    { destruct Hd1 as [->| ->]; assumption. }
    destruct ab1 as [e|].
    + injection Hrun as <- <- <- <-. exact Hd1'.
    + apply (IH _ _ _ _ _ _ _ Hrun); [congruence|assumption..].
Qed.

(** X26. An Invoice sync stores no invoice for a Member whose automatic
    processing is switched off: every committed Invoice row after the run
    was there before it, or belongs to an owner that the lookup does not
    return with a false auto_process (the owner is stored once with a true
    auto_process, is not stored, or is stored several times). *)
Theorem sync_stores_no_invoice_of_manual_member fuel remote space w r1 w1
    inv m :
  sync_invoice_table pyfloat int_of_str config fuel remote space w
    = Some (r1, w1) ->
  In inv (invoices (durable w1)) ->
  members_with (Invoice.nexudus_user_id inv) (members (durable w)) = [m] ->
  truthy (Member.process_automatically m) = false ->
  In inv (invoices (durable w)).
Proof.
  intros H Hin Hone Hoff.
  unfold sync_invoice_table, sync_table, sm, process_batch in H.
  destruct (for_in_trace db_clock (add_or_overwrite_invoice pyfloat)
              (invoice_db_step pyfloat) (fun _ _ => eq_refl)
              (fun _ _ => eq_refl) invoice_db_step_sound _ _ _ _ _ _ H)
    as (records & ab & Hrun & _).
  unfold db_clock at 1 2 in Hrun.
  cbn [sess durable clock set_sess] in Hrun.
  destruct (invoice_run_rows records (members (durable w))
              (invoices (durable w)) _ _ _ _ _ _ _ Hrun eq_refl
              (fun _ Hi => or_introl Hi) (fun _ Hi => or_introl Hi) inv Hin)
    as [Hold|Hallowed]; [exact Hold|].
  rewrite (Hallowed m Hone) in Hoff. discriminate Hoff.
Qed.

(** ** Blank bank fields *)

Lemma lstrip_blank s :
  lstrip s = "" <->
  forall c, In c (list_ascii_of_string s) -> isspace c = true.
Proof.
  induction s as [|a s IH]; cbn [lstrip list_ascii_of_string].
  - split; [intros _ c []|reflexivity].
  - destruct (isspace a) eqn:Ha.
    + rewrite IH. split.
      * intros H c [<-|Hc]; auto.
      * intros H c Hc. apply H. right. exact Hc.
    + split; [discriminate|]. intros H.
      rewrite (H a) in Ha by (left; reflexivity). discriminate Ha.
Qed.

Lemma rstrip_blank s :
  rstrip s = "" <->
  forall c, In c (list_ascii_of_string s) -> isspace c = true.
Proof.
  induction s as [|a s IH]; cbn [rstrip list_ascii_of_string].
  - split; [intros _ c []|reflexivity].
  - destruct (rstrip s) as [|b t] eqn:Hr.
    + destruct (isspace a) eqn:Ha.
      * split; [|reflexivity]. intros _ c [<-|Hc]; [exact Ha|].
        apply IH; [reflexivity|exact Hc].
      * split; [discriminate|]. intros H.
        rewrite (H a) in Ha by (left; reflexivity). discriminate Ha.
    + split; [discriminate|]. intros H.
      assert (Hs : String b t = "").
      { apply IH. intros c Hc. apply H. right. exact Hc. }
      discriminate Hs.
Qed.

(** What [rstrip] leaves, if anything, holds a character that is not
    white space. *)
Lemma rstrip_solid s :
  rstrip s <> "" ->
  exists c, In c (list_ascii_of_string (rstrip s)) /\ isspace c = false.
Proof.
  induction s as [|a s IH]; cbn [rstrip]; [congruence|].
  destruct (rstrip s) as [|b t] eqn:Hr.
  - destruct (isspace a) eqn:Ha; [congruence|]. intros _.
    exists a. split; [left; reflexivity|exact Ha].
  - intros _. destruct IH as (c & Hc & Hsp); [discriminate|].
    exists c. split; [right; exact Hc|exact Hsp].
Qed.

Lemma solid_or_blank (l : list ascii) :
  (forall c, In c l -> isspace c = true)
  \/ (exists c, In c l /\ isspace c = false).
Proof.
  induction l as [|a l IH]; [left; intros c []|].
  destruct (isspace a) eqn:Ha.
  - destruct IH as [H|(c & Hc & Hs)].
    + left. intros c [<-|Hc]; auto.
    + right. exists c. split; [right; exact Hc|exact Hs].
  - right. exists a. split; [left; reflexivity|exact Ha].
Qed.

Lemma strip_blank s :
  strip s = "" <->
  forall c, In c (list_ascii_of_string s) -> isspace c = true.
Proof.
  unfold strip. rewrite <- rstrip_blank. split.
  - intros H. destruct (rstrip s) as [|b t] eqn:Hr; [reflexivity|].
    destruct (rstrip_solid s) as (c & Hc & Hsp); [rewrite Hr; discriminate|].
    rewrite Hr in Hc. rewrite lstrip_blank in H. rewrite (H c Hc) in Hsp.
    discriminate Hsp.
  - intros ->. reflexivity.
Qed.

(** X27. The local [nstrip] gives a false value exactly for the bank fields
    that are blank: [None], the empty string, and the strings made of white
    space only; on every other string its value is true.  So a Member's
    bank data look populated exactly when the routing and the account both
    hold a character that is not white space. *)
Theorem nstrip_false_on_blank :
  nstrip VNone = inr VNone /\
  (forall s,
     exists v,
       nstrip (VStr s) = inr v /\
       (truthy v = false <->
        forall c, In c (list_ascii_of_string s) -> isspace c = true)) /\
  (forall r a,
     ach_populated (VStr r) (VStr a) = inr true <->
     (exists c, In c (list_ascii_of_string r) /\ isspace c = false) /\
     (exists c, In c (list_ascii_of_string a) /\ isspace c = false)).
Proof.
  assert (Hn : forall s,
    exists v,
      nstrip (VStr s) = inr v /\
      (truthy v = false <->
       forall c, In c (list_ascii_of_string s) -> isspace c = true)).
  { intros s. unfold nstrip. destruct s as [|a s].
    - exists VNone. split; [reflexivity|]. split; [intros _ c []|reflexivity].
    - cbn [truthy]. eexists. split; [reflexivity|].
      rewrite <- strip_blank.
      destruct (strip (String a s)); cbn [truthy]; split; congruence. }
  assert (Hsolid : forall s v,
    nstrip (VStr s) = inr v ->
    (truthy v = false <->
     forall c, In c (list_ascii_of_string s) -> isspace c = true) ->
    (truthy v = true <->
     exists c, In c (list_ascii_of_string s) /\ isspace c = false)).
  { intros s v _ Hv. split.
    - intros Ht.
      destruct (solid_or_blank (list_ascii_of_string s)) as [Hall|Hex];
        [|exact Hex].
      apply Hv in Hall. congruence.
    - intros (c & Hc & Hsp). destruct (truthy v) eqn:Ht; [reflexivity|].
      rewrite (proj1 Hv eq_refl c Hc) in Hsp. discriminate Hsp. }
  split; [reflexivity|]. split; [exact Hn|].
  intros r a. unfold ach_populated.
  destruct (Hn r) as (vr & Hr & Hvr). destruct (Hn a) as (va & Ha & Hva).
  rewrite <- (Hsolid r vr Hr Hvr), <- (Hsolid a va Ha Hva). rewrite Hr.
  destruct (truthy vr).
  - rewrite Ha. split; [intros [= ->]; auto|intros [_ ->]; reflexivity].
  - split; [discriminate|intros [H _]; discriminate H].
Qed.

(** ** What a run over a feed leaves in the store *)

(** A record that has the six fields is reconciled to completion, or stops
    the run. *)
Lemma member_result_with_fields record k fn bn em br ba :
  record !! "Id" = Some k ->
  record !! "FullName" = Some fn ->
  record !! "BillingName" = Some bn ->
  record !! "Email" = Some em ->
  record !! "BankBranch" = Some br ->
  record !! "BankAccount" = Some ba ->
  member_result config record = Ok tt
  \/ exists e, member_result config record = Raise e /\ is_KeyError e = false.
Proof.
  intros HId HFn HBn HEm HBr HBa. unfold member_result, member_patch.
  rewrite HId, HFn, HBn, HEm, HBr, HBa. unfold ach_populated, nstrip.
  destruct (truthy br); [destruct br|]; cbn [snd];
    try (right; eexists; split; reflexivity);
    cbn [truthy];
    try (destruct (strip s) as [|c0 s0]; cbn [truthy]);
    try (destruct (truthy ba); [destruct ba|]; cbn [snd];
         try (right; eexists; split; reflexivity);
         try (destruct (truthy (VStr (strip s1)))));
    destruct em; cbn [snd];
      try (left; reflexivity); right; eexists; split; reflexivity.
Qed.

Lemma run_list_split {S : Type} (step : Rec -> S -> S * option Exn)
    l1 record l2 s s' :
  run_list step (l1 ++ record :: l2) s = (s', None) ->
  exists s1 s2,
    run_list step l1 s = (s1, None) /\
    step record s1 = (s2, None) /\
    run_list step l2 s2 = (s', None).
Proof.
  revert s. induction l1 as [|r l1 IH]; intros s; cbn [app run_list].
  - destruct (step record s) as [s2 [e|]] eqn:Hstep; [discriminate|].
    intros H. exists s, s2. split; [reflexivity|]. split; [exact Hstep|exact H].
  - destruct (step r s) as [s1 [e|]]; [discriminate|]. apply IH.
Qed.

Lemma concat_pages_nonempty (pages : list (list Rec)) l1 record l2 :
  concat pages = l1 ++ record :: l2 -> (1 <= length pages)%nat.
Proof.
  destruct pages; cbn; [|lia]. intros H. destruct l1; discriminate H.
Qed.

(** X28. After a Member sync that ends normally over a feed, the committed
    store mirrors the last record of each remote id: when a record of the
    feed has the six fields and no record after it in the feed carries its
    remote id, the store holds exactly one row for the id, and the row has
    the record's full name, e-mail, bank routing and bank account as
    received, and as billing name the record's billing name, or the full
    name when the billing name is empty or null. *)
Theorem member_sync_mirrors_feed fuel remote space w w1 pages l1 record l2
    k fn bn em br ba :
  sync_member_table int_of_str config fuel remote space w = Some (Ok tt, w1) ->
  feed_of config remote "spaces/coworkers" (member_query space) pages ->
  concat pages = l1 ++ record :: l2 ->
  (forall r, In r l2 -> r !! "Id" <> Some k) ->
  record !! "Id" = Some k ->
  record !! "FullName" = Some fn ->
  record !! "BillingName" = Some bn ->
  record !! "Email" = Some em ->
  record !! "BankBranch" = Some br ->
  record !! "BankAccount" = Some ba ->
  exists m,
    members_with k (members (durable w1)) = [m] /\
    Member.nexudus_user_id m = k /\
    Member.fullname m = fn /\
    Member.billing_name m = (if truthy bn then bn else fn) /\
    Member.email m = em /\
    Member.routing_number m = br /\
    Member.account_number m = ba.
Proof.
  intros H Hfeed Hcat Hlast HId HFn HBn HEm HBr HBa.
  unfold sync_member_table, sync_table, sm, process_batch in H.
  pose proof (for_in_feed db (add_or_overwrite_member config)
                (member_db_step config) (fun _ _ => eq_refl)
                (fun _ _ => eq_refl) member_db_step_sound
                remote _ _ pages _ 0%nat fuel _ _
                (serves_init _ _ _ _ (concat_pages_nonempty _ _ _ _ Hcat)
                   Hfeed) H) as Hrun.
  unfold db at 1 in Hrun. cbn [sess durable set_sess] in Hrun.
  rewrite Hcat in Hrun.
  destruct (run_list_split _ _ _ _ _ _ Hrun)
    as ([v1 d1] & s2 & _ & Hstep & Hrest).
  unfold member_db_step in Hstep. cbn [fst snd] in Hstep.
  destruct (member_result_with_fields record k fn bn em br ba
              HId HFn HBn HEm HBr HBa) as [Hok|(e & He & Hke)].
  2:{ rewrite He in Hstep. cbn [fatal] in Hstep. rewrite Hke in Hstep.
      discriminate Hstep. }
  rewrite Hok in Hstep. injection Hstep as <-.
  assert (Hrow : exists m,
    members_with k (member_step config record (members v1)) = [m] /\
    Member.nexudus_user_id m = k /\
    Member.fullname m = fn /\
    Member.billing_name m = (if truthy bn then bn else fn) /\
    Member.email m = em /\
    Member.routing_number m = br /\
    Member.account_number m = ba).
  { destruct (Nat.eq_dec (length (members_with k (members v1))) 1%nat)
      as [Hc|Hc].
    - destruct (members_with k (members v1)) as [|m0 [|m1 l]] eqn:Hone;
        try discriminate Hc.
      rewrite (member_step_row _ _ _ _ HId Hone). eexists.
      split; [reflexivity|].
      apply (member_patch_fields record true k fn bn em br ba m0); assumption.
    - rewrite (member_step_new_row _ _ _ HId Hc). eexists.
      split; [reflexivity|].
      apply (member_patch_fields record false k fn bn em br ba Member.new);
        assumption. }
  destruct Hrow as (m & Hm & Hfields).
  destruct (member_run_other_key l2 k [m] Hlast _ _ _ _ Hrest Hm Hm)
    as [_ Hd].
  exists m. split; [exact Hd|exact Hfields].
Qed.

(** X29. After an Invoice sync that ends normally over a feed, an invoice
    that the store did not hold once before the run, whose record is the
    only one of the feed with its remote id, passes the gate and has the
    fields a new Invoice needs, is in the committed store as exactly one
    row: the record's ids, the amount converted from ["TotalAmount"], not
    finalized, status "Not processed", no transaction data, stamped with a
    time of the run. *)
Theorem invoice_sync_stores_feed fuel remote space w w1 pages l1 record l2
    k uid sid total a :
  sync_invoice_table pyfloat int_of_str config fuel remote space w
    = Some (Ok tt, w1) ->
  feed_of config remote "billing/coworkerinvoices" (invoice_query space)
    pages ->
  concat pages = l1 ++ record :: l2 ->
  (forall r, In r (l1 ++ l2) -> r !! "Id" <> Some k) ->
  record !! "Id" = Some k ->
  record !! "CoworkerId" = Some uid ->
  record !! "BusinessId" = Some sid ->
  record !! "TotalAmount" = Some total ->
  pyfloat total = inr a ->
  (forall m, members_with uid (members (durable w)) = [m] ->
             truthy (Member.process_automatically m) = true) ->
  length (invoices_with k (invoices (durable w))) <> 1%nat ->
  exists t,
    invoices_with k (invoices (durable w1))
    = [Invoice.mk k uid sid t a (VBool false) VNone (VStr "Not processed")
         VNone].
Proof.
  intros H Hfeed Hcat Honly HId HUid HSid HTot Hfl Hauto Hc.
  unfold sync_invoice_table, sync_table, sm, process_batch in H.
  pose proof (for_in_feed db_clock (add_or_overwrite_invoice pyfloat)
                (invoice_db_step pyfloat) (fun _ _ => eq_refl)
                (fun _ _ => eq_refl) invoice_db_step_sound
                remote _ _ pages _ 0%nat fuel _ _
                (serves_init _ _ _ _ (concat_pages_nonempty _ _ _ _ Hcat)
                   Hfeed) H) as Hrun.
  unfold db_clock at 1 2 in Hrun. cbn [sess durable clock set_sess] in Hrun.
  rewrite Hcat in Hrun.
  destruct (run_list_split _ _ _ _ _ _ Hrun)
    as ([[v1 d1] t1] & [[v2 d2] t2] & Hrun1 & Hstep & Hrest).
  destruct (invoice_run_other_key l1 k _
              (fun r Hr => Honly r (in_or_app _ _ _ (or_introl Hr)))
              _ _ _ _ _ _ _ Hrun1 eq_refl eq_refl) as (Hv1 & _ & Hm1).
  assert (Ht : targets (members v1) record k).
  { split; [|exact HId]. apply (invoice_gate_open _ _ uid); [exact HUid|].
    rewrite Hm1. exact Hauto. }
  assert (Hc1 : length (invoices_with k (invoices v1)) <> 1%nat).
  { rewrite Hv1. exact Hc. }
  unfold invoice_db_step in Hstep.
  rewrite (invoice_step_create _ t1 _ _ _ Ht Hc1) in Hstep. cbv zeta in Hstep.
  unfold new_invoice in Hstep. rewrite HId, HUid, HSid, HTot, Hfl in Hstep.
  injection Hstep as <- <- _.
  destruct (invoice_run_other_key l2 k
              [Invoice.mk k uid sid t1 a (VBool false) VNone
                 (VStr "Not processed") VNone]
              (fun r Hr => Honly r (in_or_app _ _ _ (or_intror Hr)))
              _ _ _ _ _ _ _ Hrest) as (_ & Hd & _).
  - cbn [invoices set_invoices]. unfold invoices_with.
    rewrite List.filter_app, filter_invoice_negb. cbn [List.filter app].
    unfold invoice_has at 1. cbn [Invoice.nexudus_invoice_id].
    rewrite bool_decide_eq_true_2 by reflexivity. reflexivity.
  - cbn [invoices set_invoices]. unfold invoices_with.
    rewrite List.filter_app, filter_invoice_negb. cbn [List.filter app].
    unfold invoice_has at 1. cbn [Invoice.nexudus_invoice_id].
    rewrite bool_decide_eq_true_2 by reflexivity. reflexivity.
  - exists t1. exact Hd.
Qed.

(** A remote id that has a row keeps one. *)
Lemma member_run_keeps_some records k : forall (v d : @Store Amount) s' ab,
  run_list (member_db_step config) records (v, d) = (s', ab) ->
  (1 <= length (members_with k (members v)))%nat ->
  (1 <= length (members_with k (members d)))%nat ->
  (1 <= length (members_with k (members (fst s'))))%nat /\
  (1 <= length (members_with k (members (snd s'))))%nat.
Proof.
  induction records as [|r records IH]; intros v d s' ab Hrun Hv Hd.
  - injection Hrun as <- <-. auto.
  - cbn [run_list] in Hrun.
    destruct (member_db_step_shape r v d) as (ab1 & Hstep).
    rewrite Hstep in Hrun.
    assert (Hv1 : (1 <= length (members_with k
                     (member_step config r (members v))))%nat).
    { destruct (member_step_count_cases r (members v) k) as [-> | ->]; lia. }
    assert (Hd1 : (1 <= length (members_with k (members
                     match member_result config r with
                     | Ok _ =>
                         set_members (member_step config r (members v)) v
                     | Raise _ => d
                     end)))%nat).
    { destruct (member_result config r); [exact Hv1|exact Hd]. }
    destruct ab1 as [e|].
    + injection Hrun as <- <-. auto.
    + apply (IH _ _ _ _ Hrun); assumption.
Qed.

(** X30. A Member sync loses no Member: a remote id that has a committed
    row before the run has one after it, whatever the feed says and however
    the run ends (the call that deletes the rows that share an id adds the
    row that replaces them). *)
Theorem member_sync_loses_no_member fuel remote space w r1 w1 k :
  sync_member_table int_of_str config fuel remote space w = Some (r1, w1) ->
  (1 <= length (members_with k (members (durable w))))%nat ->
  (1 <= length (members_with k (members (durable w1))))%nat.
Proof.
  intros H Hk.
  unfold sync_member_table, sync_table, sm, process_batch in H.
  destruct (for_in_trace db (add_or_overwrite_member config)
              (member_db_step config) (fun _ _ => eq_refl)
              (fun _ _ => eq_refl) member_db_step_sound _ _ _ _ _ _ H)
    as (records & ab & Hrun & _).
  unfold db at 1 in Hrun. cbn [sess durable set_sess] in Hrun.
  apply (member_run_keeps_some _ k _ _ _ _ Hrun Hk Hk).
Qed.

End Properties.

(** * Witnesses and counterexamples *)

Lemma new_member_auto_process_witness :
  exists m w',
    add_or_overwrite_member example_config jane_doe (world_of empty_store)
      = (Ok tt, w') /\
    members (sess w') = members (sess (world_of empty_store)) ++ [m] /\
    durable w' = sess w' /\
    Member.nexudus_user_id m = VInt 5 /\
    (bank_populated (VStr " 123 ") (VStr " 456 ") = true ->
     Member.process_automatically m = PROCESS_AUTOMATICALLY example_config) /\
    (bank_populated (VStr " 123 ") (VStr " 456 ") = false ->
     Member.process_automatically m = VBool false) /\
    (PROCESS_AUTOMATICALLY example_config <> VBool false ->
     (Member.process_automatically m = PROCESS_AUTOMATICALLY example_config
      <-> bank_populated (VStr " 123 ") (VStr " 456 ") = true)).
Proof.
  apply (new_member_auto_process example_config jane_doe
           (world_of empty_store) (VInt 5) (VStr "Jane Doe") (VStr "")
           "a@b.com" (VStr " 123 ") (VStr " 456 "));
    try reflexivity; exact I.
Defined.

(** A store that already holds Jane Doe, set to automatic processing. *)
Lemma stored_member_auto_process_witness :
  exists i m' w',
    members (sess (world_of jane_store)) !! i = Some jane_member /\
    add_or_overwrite_member example_config jane_doe (world_of jane_store)
      = (Ok tt, w') /\
    members (sess w') = <[i := m']> (members (sess (world_of jane_store))) /\
    durable w' = sess w' /\
    Member.nexudus_user_id m' = VInt 5 /\
    (bank_populated (VStr " 123 ") (VStr " 456 ") = true ->
     Member.process_automatically m' = VBool true) /\
    (bank_populated (VStr " 123 ") (VStr " 456 ") = false ->
     Member.process_automatically m' = VBool false).
Proof.
  apply (stored_member_auto_process example_config jane_doe
           (world_of jane_store) (VInt 5) (VStr "Jane Doe") (VStr "")
           "a@b.com" (VStr " 123 ") (VStr " 456 ") jane_member);
    try reflexivity; exact I.
Defined.

Lemma jane_doe_created_witness :
  exists w',
    add_or_overwrite_member example_config jane_doe (world_of empty_store)
      = (Ok tt, w') /\
    members (sess w') =
      members (sess (world_of empty_store))
      ++ [Member.mk (VInt 5) (VStr "Jane Doe") (VStr "Jane Doe")
            (VStr "a@b.com") (VStr " 123 ") (VStr " 456 ")
            (PROCESS_AUTOMATICALLY example_config)] /\
    durable w' = sess w'.
Proof.
  apply (jane_doe_created example_config (world_of empty_store)).
  reflexivity.
Defined.

(** C10 as stated fails: after the fresh sync of the scenario no Member
    holds the trimmed routing "123" and account "456". *)
Lemma jane_doe_bank_fields_not_trimmed :
  ~ (exists m,
       In m (members (sess (snd (add_or_overwrite_member example_config
                                   jane_doe (world_of empty_store))))) /\
       Member.billing_name m = VStr "Jane Doe" /\
       Member.routing_number m = VStr "123" /\
       Member.account_number m = VStr "456" /\
       Member.process_automatically m = PROCESS_AUTOMATICALLY example_config).
Proof.
  vm_compute. intros (m & [<-|[]] & _ & H & _). discriminate H.
Qed.

Lemma example_member_feed space :
  feed_of example_config example_remote "spaces/coworkers"
    (member_query space) member_feed.
Proof.
  intros [|[|i]] batch H; try discriminate H; injection H as <-;
    eexists _, _; repeat split; reflexivity.
Defined.

Lemma example_invoice_feed space :
  feed_of example_config example_remote "billing/coworkerinvoices"
    (invoice_query space) invoice_feed.
Proof.
  intros [|[|i]] batch H; try discriminate H; injection H as <-;
    eexists _, _; repeat split; reflexivity.
Defined.

(** C1 as stated fails: the two rows of remote id 7, which the feed does
    not mention, are still there after a Member sync that ended
    normally. *)
Lemma duplicates_outside_the_feed_survive :
  exists w1,
    sync_member_table example_int example_config 3 example_remote (VInt 1)
      (world_of duplicate_store) = Some (Ok tt, w1) /\
    ~ (length (members_with (VInt 7) (members (durable w1))) <= 1)%nat.
Proof.
  eexists. split; [vm_compute; reflexivity|]. vm_compute. lia.
Qed.

Lemma sync_one_row_per_reconciled_key_witness :
  (exists w1,
     sync_member_table example_int example_config 3 example_remote (VInt 1)
       (world_of duplicate_store) = Some (Ok tt, w1) /\
     length (members_with (VInt 5) (members (durable w1))) = 1%nat /\
     members_with (VInt 7) (members (durable w1))
     = members_with (VInt 7) (members (durable (world_of duplicate_store)))) /\
  (exists w1,
     sync_invoice_table example_float example_int example_config 3
       example_remote (VInt 1) (world_of duplicate_invoice_store)
     = Some (Ok tt, w1) /\
     length (invoices_with (VInt 9) (invoices (durable w1))) = 1%nat /\
     invoices_with (VInt 11) (invoices (durable w1))
     = invoices_with (VInt 11)
         (invoices (durable (world_of duplicate_invoice_store)))).
Proof.
  split.
  - assert (Hrun : exists w1,
      sync_member_table example_int example_config 3 example_remote (VInt 1)
        (world_of duplicate_store) = Some (Ok tt, w1))
      by (eexists; vm_compute; reflexivity).
    destruct Hrun as (w1 & Hrun). exists w1. split; [exact Hrun|].
    destruct (proj1 (sync_one_row_per_reconciled_key example_float example_int
                       example_config 3 example_remote (VInt 1)
                       (world_of duplicate_store)) (Ok tt) w1 Hrun)
      as (_ & Hone & Hother).
    split.
    + apply (Hone member_feed [jane_doe] jane_doe (VInt 5) eq_refl
               (example_member_feed (VInt 1))); try reflexivity;
        left; reflexivity.
    + apply (Hother member_feed (VInt 7) eq_refl); [simpl; lia| |].
      * apply example_member_feed.
      * intros batch record [<-|[<-|[]]] [<-|[]]; discriminate.
  - assert (Hrun : exists w1,
      sync_invoice_table example_float example_int example_config 3
        example_remote (VInt 1) (world_of duplicate_invoice_store)
      = Some (Ok tt, w1)) by (eexists; vm_compute; reflexivity).
    destruct Hrun as (w1 & Hrun). exists w1. split; [exact Hrun|].
    destruct (proj2 (sync_one_row_per_reconciled_key example_float example_int
                       example_config 3 example_remote (VInt 1)
                       (world_of duplicate_invoice_store)) (Ok tt) w1 Hrun)
      as (_ & Hone & Hother).
    split.
    + apply (Hone invoice_feed [invoice_9] invoice_9 (VInt 9) eq_refl
               (example_invoice_feed (VInt 1))); try reflexivity;
        try (left; reflexivity).
      split; reflexivity.
    + apply (Hother invoice_feed (VInt 11) eq_refl); [simpl; lia| |].
      * apply example_invoice_feed.
      * intros batch record [<-|[<-|[]]] [<-|[]]; discriminate.
Defined.

Lemma sync_twice_same_store_witness :
  (exists r1 w1,
     sync_member_table example_int example_config 3 example_remote (VInt 1)
       (world_of duplicate_store) = Some (r1, w1) /\
     exists r2 w2,
       sync_member_table example_int example_config 3 example_remote (VInt 1)
         w1 = Some (r2, w2) /\
       durable w2 = durable w1) /\
  (exists r1 w1,
     sync_invoice_table example_float example_int example_config 3
       example_remote (VInt 1) (world_of duplicate_invoice_store)
     = Some (r1, w1) /\
     exists r2 w2,
       sync_invoice_table example_float example_int example_config 3
         example_remote (VInt 1) w1 = Some (r2, w2) /\
       durable w2 = durable w1).
Proof.
  split; eexists _, _; (split; [vm_compute; reflexivity|]).
  - apply (proj1 (sync_twice_same_store example_float example_int
                    example_config 3 example_remote (VInt 1)
                    (world_of duplicate_store)) (Ok tt)).
    vm_compute; reflexivity.
  - apply (proj2 (sync_twice_same_store example_float example_int
                    example_config 3 example_remote (VInt 1)
                    (world_of duplicate_invoice_store)) (Ok tt)).
    vm_compute; reflexivity.
Defined.

Lemma invoice_gate_short_circuits_witness :
  add_or_overwrite_invoice example_float invoice_9 (world_of manual_store)
  = (Ok tt, world_of manual_store).
Proof.
  apply (invoice_gate_short_circuits example_float invoice_9
           (world_of manual_store) (VInt 5) jane_manual); reflexivity.
Defined.

Lemma existing_invoice_untouched_witness :
  exists res w',
    add_or_overwrite_invoice example_float invoice_9 (world_of invoiced_store)
      = (res, w') /\
    sess w' = sess (world_of invoiced_store) /\
    durable w' = durable (world_of invoiced_store) /\
    invoices_with (VInt 9) (invoices (sess w')) = [stored_invoice_9] /\
    (is_Some (invoice_9 !! "CoworkerId") -> res = Ok tt).
Proof.
  apply (existing_invoice_untouched example_float invoice_9
           (world_of invoiced_store) (VInt 9) stored_invoice_9); reflexivity.
Defined.

Lemma fetch_yields_every_page_witness :
  exists w',
    collect example_int 3 example_remote
      (get_records example_config "spaces/coworkers" (member_query (VInt 1))
         false)
      (world_of empty_store)
    = Some (member_feed, Ok tt, w') /\
    net w' =
      net (world_of empty_store)
      ++ List.map
           (fun p => request_of example_config "spaces/coworkers"
                       (member_query (VInt 1)) (Z.of_nat p))
           (seq 1 (length member_feed)) /\
    sess w' = sess (world_of empty_store) /\
    durable w' = durable (world_of empty_store) /\
    log w' = log (world_of empty_store).
Proof.
  apply (fetch_yields_every_page example_int example_config example_remote
           "spaces/coworkers" (member_query (VInt 1)) member_feed
           (world_of empty_store) 3).
  - simpl. lia.
  - apply example_member_feed.
  - simpl. lia.
Defined.

Lemma single_fetch_rejects_other_counts_witness :
  exists w',
    next example_int example_remote
      (get_records example_config "billing/coworkerinvoices"
         {["CoworkerInvoice_Id" := VInt 9]} true)
      (world_of empty_store)
    = (Raise MultipleResultsFoundException, w') /\
    collect example_int 1 example_remote
      (get_records example_config "billing/coworkerinvoices"
         {["CoworkerInvoice_Id" := VInt 9]} true)
      (world_of empty_store)
    = Some ([], Raise MultipleResultsFoundException, w') /\
    net w' =
      net (world_of empty_store)
      ++ [page_request
            (get_records example_config "billing/coworkerinvoices"
               {["CoworkerInvoice_Id" := VInt 9]} true)] /\
    sess w' = sess (world_of empty_store) /\
    durable w' = durable (world_of empty_store).
Proof.
  apply (single_fetch_rejects_other_counts example_int example_remote
           (get_records example_config "billing/coworkerinvoices"
              {["CoworkerInvoice_Id" := VInt 9]} true)
           (world_of empty_store)
           {| TotalItems := Some (VInt 2); HasNextPage := Some (VBool true);
              Records := Some [invoice_9] |}
           (VInt 2) 2 0); try reflexivity.
  lia.
Defined.

Lemma sync_table_isolates_missing_fields_witness :
  exists w',
    callback (add_or_overwrite_member example_config) [no_email; jane_doe]
      (world_of empty_store) = (Raise TypeError, w') /\
    is_KeyError TypeError = false.
Proof.
  eexists. split; [vm_compute; reflexivity|].
  eapply (proj1 (proj2 (sync_table_isolates_missing_fields example_int
                          example_config
                          (add_or_overwrite_member example_config)))
            [no_email; jane_doe] (world_of empty_store)).
  vm_compute; reflexivity.
Defined.

(** A record without ["BankAccount"] is logged and skipped; the record
    after it is reconciled and committed. *)
Example missing_field_is_skipped :
  exists w',
    callback (add_or_overwrite_member example_config)
      [no_bank_account; jane_doe] (world_of empty_store) = (Ok tt, w') /\
    In {| logger := "invoicer_db"; level := "ERROR";
          message := "Attempted to access an invalid key for a Nexudus "
                     +:+ "record! Error: 'BankAccount'" |} (log w') /\
    members_with (VInt 5) (members (durable w'))
    = [Member.mk (VInt 5) (VStr "Jane Doe") (VStr "Jane Doe")
         (VStr "a@b.com") (VStr " 123 ") (VStr " 456 ") (VBool true)].
Proof.
  eexists. split; [vm_compute; reflexivity|].
  split; [left; reflexivity|reflexivity].
Qed.

(** With two Member rows for the owner, the gate is not applied: the
    invoice is created (spec 4.4, step 1). *)
Example gate_needs_a_single_owner :
  exists w',
    add_or_overwrite_invoice example_float invoice_9
      (world_of {| members := [jane_manual; jane_manual]; invoices := [] |})
    = (Ok tt, w') /\
    length (invoices_with (VInt 9) (invoices (durable w'))) = 1%nat.
Proof. eexists. split; [vm_compute; reflexivity|reflexivity]. Qed.

(** Duplicate Invoice rows whose owner is gated are not looked up: they are
    still there after an Invoice sync that ended normally. *)
Example gated_duplicates_survive :
  exists w1,
    sync_invoice_table example_float example_int example_config 3
      example_remote (VInt 1) (world_of gated_store) = Some (Ok tt, w1) /\
    length (invoices_with (VInt 9) (invoices (durable w1))) = 2%nat.
Proof. eexists. split; [vm_compute; reflexivity|reflexivity]. Qed.

(** A record that fails on a missing key after its duplicates were deleted
    commits nothing: when no later record commits, the duplicates are still
    in the committed store. *)
Example unfinished_reconciliation_commits_nothing :
  exists w1,
    sync_member_table example_int example_config 2
      (one_page [jane_no_bank_account]) (VInt 1) (world_of duplicate_store)
    = Some (Ok tt, w1) /\
    length (members_with (VInt 5) (members (sess w1))) = 1%nat /\
    length (members_with (VInt 5) (members (durable w1))) = 2%nat.
Proof. eexists. split; [vm_compute; reflexivity|split; reflexivity]. Qed.

(** ** Witnesses of the further properties *)

Lemma get_first_one_request_witness :
  exists w',
    get_first example_int example_config example_remote "spaces/coworkers"
      (member_query (VInt 1)) (world_of empty_store) = (Ok jane_doe, w') /\
    net w' =
      [{| req_url := NEXUDUS_API_URL example_config +:+ "spaces/coworkers";
          req_params := <["page" := VInt 1]> (member_query (VInt 1));
          req_auth :=
            (NEXUDUS_EMAIL example_config, NEXUDUS_PASS example_config) |}] /\
    sess w' = sess (world_of empty_store) /\
    durable w' = durable (world_of empty_store).
Proof.
  destruct (get_first_one_request example_int example_config example_remote
              "spaces/coworkers" (member_query (VInt 1))
              (world_of empty_store))
    as (r & w' & Hrun & Hnet & Hsess & Hdur & _ & _ & Hret).
  assert (Hr : r = Ok jane_doe).
  { apply Hret. eexists _, _, _. repeat split; reflexivity. }
  subst r. exists w'. split; [exact Hrun|]. split; [exact Hnet|].
  split; [exact Hsess|exact Hdur].
Defined.

Lemma get_single_one_item_witness :
  exists w',
    get_single example_int example_config (one_page [invoice_9])
      "billing/coworkerinvoices" {["CoworkerInvoice_Id" := VInt 9]}
      (world_of empty_store) = (Ok invoice_9, w') /\
    net w' =
      [{| req_url :=
            NEXUDUS_API_URL example_config +:+ "billing/coworkerinvoices";
          req_params :=
            <["page" := VInt 1]> {["CoworkerInvoice_Id" := VInt 9]};
          req_auth :=
            (NEXUDUS_EMAIL example_config, NEXUDUS_PASS example_config) |}] /\
    sess w' = sess (world_of empty_store) /\
    durable w' = durable (world_of empty_store).
Proof.
  destruct (get_single_one_item example_int example_config
              (one_page [invoice_9]) "billing/coworkerinvoices"
              {["CoworkerInvoice_Id" := VInt 9]} (world_of empty_store))
    as (r & w' & Hrun & Hnet & Hsess & Hdur & _ & _ & Hret).
  assert (Hr : r = Ok invoice_9).
  { apply Hret. eexists _, _, _, _. repeat split; reflexivity. }
  subst r. exists w'. split; [exact Hrun|]. split; [exact Hnet|].
  split; [exact Hsess|exact Hdur].
Defined.

Lemma first_of_empty_page_fails_witness :
  fst (get_first example_int example_config hollow_remote "spaces/coworkers"
         ∅ (world_of empty_store))
  = Raise (OtherError "IndexError") /\
  fst (get_single example_int example_config hollow_remote "spaces/coworkers"
         ∅ (world_of empty_store))
  = Raise (OtherError "IndexError").
Proof.
  destruct (first_of_empty_page_fails example_int example_config hollow_remote
              "spaces/coworkers" ∅ (world_of empty_store)
              {| TotalItems := Some (VInt 1);
                 HasNextPage := Some (VBool false);
                 Records := Some [] |} (VBool false)
              eq_refl eq_refl eq_refl) as [Hfirst Hsingle].
  split; [exact Hfirst|]. apply (Hsingle (VInt 1)); reflexivity.
Defined.

Lemma mark_invoice_paid_posts_for_one_invoice_witness :
  exists r o',
    mark_invoice_paid example_int example_config (one_page [invoice_9])
      accepting_ledger example_rnd (VInt 9) empty_outbox = (r, o') /\
    posted o' =
      [entry_request example_config
         (ledger_entry (VInt 9) (VInt 5) (VInt 1) (entry_code example_rnd)
            (VInt 42))] /\
    sess (world o') = sess (world empty_outbox).
Proof.
  destruct (mark_invoice_paid_posts_for_one_invoice example_int example_config
              (one_page [invoice_9]) accepting_ledger example_rnd (VInt 9)
              empty_outbox)
    as (r & o' & Hrun & Hsess & _).
  exists r, o'. split; [exact Hrun|]. split; [|exact Hsess].
  vm_compute in Hrun. injection Hrun as _ <-. reflexivity.
Defined.

Lemma mark_invoice_paid_not_single_witness :
  mark_invoice_paid example_int example_config
    (one_page [invoice_9; invoice_10]) accepting_ledger example_rnd (VInt 9)
    empty_outbox
  = (Ok (false, VStr ""),
     {| world :=
          set_net (net (world empty_outbox)
                   ++ [lookup_request example_config (VInt 9)])
            (world empty_outbox);
        posted := posted empty_outbox |}).
Proof.
  apply (mark_invoice_paid_not_single example_int example_config
           (one_page [invoice_9; invoice_10]) accepting_ledger example_rnd
           (VInt 9) empty_outbox
           {| TotalItems := Some (VInt 2); HasNextPage := Some (VBool false);
              Records := Some [invoice_9; invoice_10] |} (VInt 2) 2);
    try reflexivity.
  lia.
Defined.

Lemma mark_invoice_paid_reports_answer_witness :
  exists o',
    mark_invoice_paid example_int example_config (one_page [invoice_9])
      refusing_ledger example_rnd (VInt 9) empty_outbox
    = (Ok (false, VStr "Invoice already paid"), o') /\
    posted o' =
      posted empty_outbox
      ++ [entry_request example_config
            (ledger_entry (VInt 9) (VInt 5) (VInt 1) (entry_code example_rnd)
               (VInt 42))].
Proof.
  destruct (mark_invoice_paid_reports_answer example_int example_config
              (one_page [invoice_9]) refusing_ledger example_rnd (VInt 9)
              empty_outbox
              {| TotalItems := Some (VInt 1);
                 HasNextPage := Some (VBool false);
                 Records := Some [invoice_9] |} (VInt 1) (VBool false)
              invoice_9 [] (VInt 5) (VInt 1) (VInt 42)
              (list_to_map [("WasSuccessful", VBool false);
                            ("Message", VStr "Invoice already paid")])
              eq_refl eq_refl eq_refl eq_refl eq_refl eq_refl eq_refl eq_refl
              eq_refl)
    as (o' & Hrun & Hposted).
  exists o'. split; [exact Hrun|exact Hposted].
Defined.

Lemma mark_invoice_paid_missing_field_witness :
  exists key o',
    mark_invoice_paid example_int example_config
      (one_page [invoice_9_no_total]) accepting_ledger example_rnd (VInt 9)
      empty_outbox
    = (Raise (KeyError key), o') /\
    invoice_9_no_total !! key = None /\
    posted o' = posted empty_outbox.
Proof.
  apply (mark_invoice_paid_missing_field example_int example_config
           (one_page [invoice_9_no_total]) accepting_ledger example_rnd
           (VInt 9) empty_outbox
           {| TotalItems := Some (VInt 1); HasNextPage := Some (VBool false);
              Records := Some [invoice_9_no_total] |} (VInt 1) (VBool false)
           invoice_9_no_total []); try reflexivity.
  right. right. reflexivity.
Defined.

Lemma mark_invoice_paid_code_witness :
  exists code,
    post_data
      (entry_request example_config
         (ledger_entry (VInt 9) (VInt 5) (VInt 1) (entry_code example_rnd)
            (VInt 42))) !! "Code" = Some (VStr code) /\
    String.length code = 10%nat /\
    forall c, In c (list_ascii_of_string code) -> is_upper_or_digit c.
Proof.
  destruct (mark_invoice_paid_code example_int example_config
              (one_page [invoice_9]) accepting_ledger example_rnd (VInt 9)
              empty_outbox
              (entry_request example_config
                 (ledger_entry (VInt 9) (VInt 5) (VInt 1)
                    (entry_code example_rnd) (VInt 42))))
    as [[]|H].
  - left. reflexivity.
  - exact H.
Defined.

Lemma member_row_follows_record_witness :
  exists w' m,
    add_or_overwrite_member example_config jane_doe (world_of duplicate_store)
    = (Ok tt, w') /\
    members_with (VInt 5) (members (sess w')) = [m] /\
    durable w' = sess w' /\
    Member.nexudus_user_id m = VInt 5 /\
    Member.fullname m = VStr "Jane Doe" /\
    Member.billing_name m = VStr "Jane Doe" /\
    Member.email m = VStr "a@b.com" /\
    Member.routing_number m = VStr " 123 " /\
    Member.account_number m = VStr " 456 ".
Proof.
  assert (Hrun : exists w',
    add_or_overwrite_member example_config jane_doe (world_of duplicate_store)
    = (Ok tt, w')) by (eexists; vm_compute; reflexivity).
  destruct Hrun as (w' & Hrun). exists w'.
  destruct (member_row_follows_record example_config jane_doe
              (world_of duplicate_store) w' (VInt 5) (VStr "Jane Doe")
              (VStr "") (VStr "a@b.com") (VStr " 123 ") (VStr " 456 ")
              eq_refl eq_refl eq_refl eq_refl eq_refl eq_refl Hrun)
    as (m & H).
  exists m. split; [exact Hrun|exact H].
Defined.

Lemma member_reconciliation_is_local_witness :
  members_with (VInt 7)
    (members (sess (snd (add_or_overwrite_member example_config jane_doe
                           (world_of duplicate_store)))))
  = [stray; stray].
Proof.
  destruct (member_reconciliation_is_local example_config jane_doe
              (world_of duplicate_store)) as (_ & _ & _ & Hother & _).
  rewrite (Hother (VInt 5) (VInt 7) eq_refl); [reflexivity|discriminate].
Defined.

Lemma duplicate_members_are_replaced_witness :
  exists w',
    add_or_overwrite_member example_config jane_doe (world_of duplicate_store)
    = (Ok tt, w') /\
    members (sess w') = [stray; stray; jane_member] /\
    durable w' = sess w'.
Proof.
  destruct (duplicate_members_are_replaced example_config jane_doe
              (world_of duplicate_store) (VInt 5) (VStr "Jane Doe") (VStr "")
              "a@b.com" (VStr " 123 ") (VStr " 456 ")
              eq_refl eq_refl eq_refl eq_refl eq_refl eq_refl I I)
    as (w' & Hrun & Hrows & Hdur).
  - vm_compute. lia.
  - exists w'. split; [exact Hrun|]. split; [exact Hrows|exact Hdur].
Defined.

Lemma member_without_email_stops_batch_witness :
  exists w',
    callback (add_or_overwrite_member example_config) [no_email; jane_doe]
      (world_of empty_store)
    = (Raise TypeError, w') /\
    durable w' = durable (world_of empty_store) /\
    exists m,
      members_with (VInt 8) (members (sess w')) = [m] /\
      Member.email m = VNone.
Proof.
  apply (member_without_email_stops_batch example_config no_email [jane_doe]
           (world_of empty_store) (VInt 8) (VStr "Ann Poe") (VStr "") VNone
           VNone VNone); try reflexivity; try exact I.
  intros s. discriminate.
Defined.

Lemma partial_update_is_committed_later_witness :
  exists w1 w',
    add_or_overwrite_member example_config jane_renamed (world_of jane_store)
    = (Raise (KeyError "BillingName"), w1) /\
    durable w1 = durable (world_of jane_store) /\
    callback (add_or_overwrite_member example_config) [jane_renamed; bob]
      (world_of jane_store) = (Ok tt, w') /\
    members_with (VInt 5) (members (durable w'))
    = [Member.set_fullname (VStr "Jane Roe")
         (Member.set_nexudus_user_id (VInt 5) jane_member)].
Proof.
  apply (partial_update_is_committed_later example_config jane_renamed bob
           (world_of jane_store) (VInt 5) (VInt 6) (VStr "Jane Roe")
           jane_member); try reflexivity.
  discriminate.
Defined.

Lemma new_invoice_is_stored_witness :
  exists w',
    add_or_overwrite_invoice example_float invoice_9
      (world_of duplicate_invoice_store) = (Ok tt, w') /\
    invoices (sess w') =
      [Invoice.mk (VInt 9) (VInt 5) (VInt 1) 0 42 (VBool false) VNone
         (VStr "Not processed") VNone] /\
    durable w' = sess w'.
Proof.
  destruct (new_invoice_is_stored example_float invoice_9
              (world_of duplicate_invoice_store) (VInt 9) (VInt 5) (VInt 1)
              (VInt 42) 42 eq_refl eq_refl eq_refl eq_refl eq_refl)
    as (w' & Hrun & Hrows & _ & _ & Hdur).
  - intros m H. vm_compute in H. injection H as <-. reflexivity.
  - vm_compute. lia.
  - exists w'. split; [exact Hrun|]. split; [exact Hrows|exact Hdur].
Defined.

Lemma invoice_with_bad_amount_stops_batch_witness :
  exists w',
    callback (add_or_overwrite_invoice example_float)
      [invoice_9_bad_total; invoice_10] (world_of duplicate_invoice_store)
    = (Raise ValueError, w') /\
    durable w' = durable (world_of duplicate_invoice_store) /\
    invoices_with (VInt 9) (invoices (sess w')) = [].
Proof.
  apply (invoice_with_bad_amount_stops_batch example_float invoice_9_bad_total
           [invoice_10] (world_of duplicate_invoice_store) (VInt 9) (VInt 5)
           (VInt 1) (VStr "n/a") ValueError);
    try reflexivity; try (vm_compute; lia);
    intros m H; vm_compute in H; injection H as <-; reflexivity.
Defined.

Lemma duplicate_invoices_can_be_lost_witness :
  exists w',
    callback (add_or_overwrite_invoice example_float)
      [invoice_9_no_space; invoice_10] (world_of duplicate_invoice_store)
    = (Ok tt, w') /\
    invoices_with (VInt 9) (invoices (durable w')) = [] /\
    length (invoices_with (VInt 10) (invoices (durable w'))) = 1%nat.
Proof.
  apply (duplicate_invoices_can_be_lost example_float invoice_9_no_space
           invoice_10 (world_of duplicate_invoice_store) (VInt 9) (VInt 5)
           (VInt 10) (VInt 5) (VInt 1) (VInt 7) 7);
    try reflexivity; try (vm_compute; lia);
    intros m H; vm_compute in H; injection H as <-; reflexivity.
Defined.

Lemma sync_keeps_to_its_table_witness :
  (exists w1,
     sync_member_table example_int example_config 3 example_remote (VInt 1)
       (world_of invoiced_store) = Some (Ok tt, w1) /\
     invoices (durable w1) = [stored_invoice_9]) /\
  (exists w1,
     sync_invoice_table example_float example_int example_config 3
       example_remote (VInt 1) (world_of invoiced_store) = Some (Ok tt, w1) /\
     members (durable w1) = [jane_member]).
Proof.
  split; eexists; (split; [vm_compute; reflexivity|]).
  - apply (proj1 (sync_keeps_to_its_table example_float example_int
                    example_config 3 example_remote (VInt 1)
                    (world_of invoiced_store)) (Ok tt)).
    vm_compute; reflexivity.
  - apply (proj2 (sync_keeps_to_its_table example_float example_int
                    example_config 3 example_remote (VInt 1)
                    (world_of invoiced_store)) (Ok tt)).
    vm_compute; reflexivity.
Defined.

Lemma stored_invoice_survives_sync_witness :
  exists w1,
    sync_invoice_table example_float example_int example_config 3
      example_remote (VInt 1) (world_of invoiced_store) = Some (Ok tt, w1) /\
    invoices_with (VInt 9) (invoices (durable w1)) = [stored_invoice_9].
Proof.
  eexists. split; [vm_compute; reflexivity|].
  apply (stored_invoice_survives_sync example_float example_int example_config
           3 example_remote (VInt 1) (world_of invoiced_store) (Ok tt)).
  - vm_compute; reflexivity.
  - reflexivity.
Defined.

Lemma sync_requests_stay_in_space_witness :
  exists w1 n,
    sync_member_table example_int example_config 3 example_remote (VInt 1)
      (world_of empty_store) = Some (Ok tt, w1) /\
    net w1 =
      net (world_of empty_store)
      ++ List.map
           (fun p =>
              {| req_url :=
                   NEXUDUS_API_URL example_config +:+ "spaces/coworkers";
                 req_params :=
                   <["page" := VInt (Z.of_nat p)]>
                     (<["Coworker_InvoicingBusiness" := VInt 1]>
                        (<["Coworker_Active" := VStr "true"]>
                           (<["size" := VInt 100]> ∅)));
                 req_auth :=
                   (NEXUDUS_EMAIL example_config,
                    NEXUDUS_PASS example_config) |})
           (seq 1 n).
Proof.
  assert (Hrun : exists w1,
    sync_member_table example_int example_config 3 example_remote (VInt 1)
      (world_of empty_store) = Some (Ok tt, w1))
    by (eexists; vm_compute; reflexivity).
  destruct Hrun as (w1 & Hrun). exists w1.
  destruct (proj1 (sync_requests_stay_in_space example_float example_int
                     example_config 3 example_remote (VInt 1)
                     (world_of empty_store)) (Ok tt) w1 Hrun)
    as (n & Hn).
  exists n. split; [exact Hrun|exact Hn].
Defined.

Lemma endless_feed_never_ends_witness :
  collect example_int 50 endless_remote
    (get_records example_config "spaces/coworkers" (member_query (VInt 1))
       false) (world_of empty_store) = None /\
  process_batch example_int example_config 50 endless_remote "spaces/coworkers"
    (fun _ w => (Ok tt, w)) (member_query (VInt 1)) (world_of empty_store)
  = None.
Proof.
  apply (endless_feed_never_ends example_int example_config endless_remote
           "spaces/coworkers" (member_query (VInt 1)) (fun _ w => (Ok tt, w))).
  - intros rq. eexists _, _, _. repeat split; reflexivity.
  - intros l w. exists w. reflexivity.
Defined.

Lemma page_without_key_stops_sync_witness :
  sync_table example_int example_config 1 flagless_remote (VInt 1)
    (add_or_overwrite_member example_config) ∅ "spaces/coworkers"
    "Coworker_InvoicingBusiness" (world_of empty_store)
  = Some (Raise (KeyError "HasNextPage"),
          set_net
            (net (world_of empty_store)
             ++ [request_of example_config "spaces/coworkers"
                   (<["Coworker_InvoicingBusiness" := VInt 1]> ∅) 1])
            (set_sess (durable (world_of empty_store))
               (world_of empty_store))).
Proof.
  apply (page_without_key_stops_sync example_int example_config 0
           flagless_remote (VInt 1) (add_or_overwrite_member example_config) ∅
           "spaces/coworkers" "Coworker_InvoicingBusiness"
           (world_of empty_store)
           {| TotalItems := Some (VInt 1); HasNextPage := None;
              Records := Some [jane_doe] |}).
  - reflexivity.
  - left. reflexivity.
Defined.

Lemma process_over_feed_witness :
  process_batch example_int example_config 3 example_remote "spaces/coworkers"
    (callback (add_or_overwrite_member example_config))
    (member_query (VInt 1)) (world_of empty_store)
  = Some (over_pages example_config "spaces/coworkers" (member_query (VInt 1))
            (callback (add_or_overwrite_member example_config)) 0 member_feed
            (world_of empty_store)) /\
  process_onebyone example_int example_config 3 example_remote
    "spaces/coworkers" (add_or_overwrite_member example_config)
    (member_query (VInt 1)) (world_of empty_store)
  = Some (over_pages example_config "spaces/coworkers" (member_query (VInt 1))
            (fun record_list =>
               for_each record_list (add_or_overwrite_member example_config))
            0 member_feed (world_of empty_store)).
Proof.
  apply (process_over_feed example_int example_config example_remote
           "spaces/coworkers" (member_query (VInt 1)) member_feed 3
           (world_of empty_store)).
  - simpl. lia.
  - apply example_member_feed.
  - simpl. lia.
Defined.

Lemma reconciling_again_changes_nothing_witness :
  (exists w1 w2,
     add_or_overwrite_member example_config jane_doe (world_of empty_store)
     = (Ok tt, w1) /\
     add_or_overwrite_member example_config jane_doe w1 = (Ok tt, w2) /\
     sess w2 = sess w1 /\ durable w2 = durable w1) /\
  (exists w1 w2,
     add_or_overwrite_invoice example_float invoice_9 (world_of jane_store)
     = (Ok tt, w1) /\
     add_or_overwrite_invoice example_float invoice_9 w1 = (Ok tt, w2) /\
     sess w2 = sess w1 /\ durable w2 = durable w1).
Proof.
  split.
  - assert (Hrun : exists w1,
      add_or_overwrite_member example_config jane_doe (world_of empty_store)
      = (Ok tt, w1)) by (eexists; vm_compute; reflexivity).
    destruct Hrun as (w1 & Hrun). exists w1.
    destruct (proj1 (reconciling_again_changes_nothing example_float
                       example_config jane_doe (world_of empty_store) w1)
                Hrun) as (w2 & H).
    exists w2. split; [exact Hrun|exact H].
  - assert (Hrun : exists w1,
      add_or_overwrite_invoice example_float invoice_9 (world_of jane_store)
      = (Ok tt, w1)) by (eexists; vm_compute; reflexivity).
    destruct Hrun as (w1 & Hrun). exists w1.
    destruct (proj2 (reconciling_again_changes_nothing example_float
                       example_config invoice_9 (world_of jane_store) w1)
                Hrun) as (w2 & H).
    exists w2. split; [exact Hrun|exact H].
Defined.

Lemma manual_member_stays_manual_witness :
  exists w1 m',
    sync_member_table example_int example_config 3 example_remote (VInt 1)
      (world_of manual_store) = Some (Ok tt, w1) /\
    members_with (VInt 5) (members (durable w1)) = [m'] /\
    truthy (Member.process_automatically m') = false.
Proof.
  assert (Hrun : exists w1,
    sync_member_table example_int example_config 3 example_remote (VInt 1)
      (world_of manual_store) = Some (Ok tt, w1))
    by (eexists; vm_compute; reflexivity).
  destruct Hrun as (w1 & Hrun). exists w1.
  destruct (manual_member_stays_manual example_int example_config 3
              example_remote (VInt 1) (world_of manual_store) (Ok tt) w1
              (VInt 5) jane_manual Hrun eq_refl eq_refl) as (m' & H).
  exists m'. split; [exact Hrun|exact H].
Defined.

Lemma sync_stores_no_invoice_of_manual_member_witness :
  exists w1,
    sync_invoice_table example_float example_int example_config 3
      example_remote (VInt 1) (world_of gated_store) = Some (Ok tt, w1) /\
    (In stored_invoice_9 (invoices (durable w1)) ->
     In stored_invoice_9 (invoices (durable (world_of gated_store)))).
Proof.
  assert (Hrun : exists w1,
    sync_invoice_table example_float example_int example_config 3
      example_remote (VInt 1) (world_of gated_store) = Some (Ok tt, w1))
    by (eexists; vm_compute; reflexivity).
  destruct Hrun as (w1 & Hrun). exists w1. split; [exact Hrun|]. intros Hin.
  apply (sync_stores_no_invoice_of_manual_member example_float example_int
           example_config 3 example_remote (VInt 1) (world_of gated_store)
           (Ok tt) w1 stored_invoice_9 jane_manual Hrun Hin eq_refl eq_refl).
Defined.

Lemma member_with_numeric_routing_stops_batch_witness :
  exists w',
    callback (add_or_overwrite_member example_config)
      [jane_numeric_routing; bob] (world_of empty_store)
    = (Raise AttributeError, w') /\
    durable w' = durable (world_of empty_store).
Proof.
  apply (member_with_numeric_routing_stops_batch example_config
           jane_numeric_routing [bob] (world_of empty_store) (VInt 5)
           (VStr "Jane Doe") (VStr "") (VStr "a@b.com") (VInt 21000021)
           (VStr " 456 ")); try reflexivity.
  intros s. discriminate.
Defined.

Lemma nstrip_false_on_blank_witness :
  ach_populated (VStr " 123 ") (VStr "   ") <> inr true.
Proof.
  intros H.
  apply (proj2 (proj2 nstrip_false_on_blank) " 123 " "   ") in H
    as (_ & c & Hc & Hsp).
  repeat (destruct Hc as [<-|Hc]; [discriminate Hsp|]). destruct Hc.
Defined.

Lemma member_sync_mirrors_feed_witness :
  exists w1 m,
    sync_member_table example_int example_config 3 example_remote (VInt 1)
      (world_of duplicate_store) = Some (Ok tt, w1) /\
    members_with (VInt 5) (members (durable w1)) = [m] /\
    Member.nexudus_user_id m = VInt 5 /\
    Member.fullname m = VStr "Jane Doe" /\
    Member.billing_name m = VStr "Jane Doe" /\
    Member.email m = VStr "a@b.com" /\
    Member.routing_number m = VStr " 123 " /\
    Member.account_number m = VStr " 456 ".
Proof.
  assert (Hrun : exists w1,
    sync_member_table example_int example_config 3 example_remote (VInt 1)
      (world_of duplicate_store) = Some (Ok tt, w1))
    by (eexists; vm_compute; reflexivity).
  destruct Hrun as (w1 & Hrun). exists w1.
  destruct (member_sync_mirrors_feed example_int example_config 3
              example_remote (VInt 1) (world_of duplicate_store) w1
              member_feed [] jane_doe [bob] (VInt 5) (VStr "Jane Doe")
              (VStr "") (VStr "a@b.com") (VStr " 123 ") (VStr " 456 ")
              Hrun (example_member_feed (VInt 1)) eq_refl)
    as (m & H); try reflexivity.
  - intros r [<-|[]]. discriminate.
  - exists m. split; [exact Hrun|exact H].
Defined.

Lemma invoice_sync_stores_feed_witness :
  exists w1 t,
    sync_invoice_table example_float example_int example_config 3
      example_remote (VInt 1) (world_of jane_store) = Some (Ok tt, w1) /\
    invoices_with (VInt 10) (invoices (durable w1))
    = [Invoice.mk (VInt 10) (VInt 5) (VInt 1) t 7 (VBool false) VNone
         (VStr "Not processed") VNone].
Proof.
  assert (Hrun : exists w1,
    sync_invoice_table example_float example_int example_config 3
      example_remote (VInt 1) (world_of jane_store) = Some (Ok tt, w1))
    by (eexists; vm_compute; reflexivity).
  destruct Hrun as (w1 & Hrun). exists w1.
  destruct (invoice_sync_stores_feed example_float example_int example_config
              3 example_remote (VInt 1) (world_of jane_store) w1
              invoice_feed [invoice_9] invoice_10 [] (VInt 10) (VInt 5)
              (VInt 1) (VInt 7) 7
              Hrun (example_invoice_feed (VInt 1)) eq_refl)
    as (t & H); try reflexivity.
  - intros r [<-|[]]. discriminate.
  - intros m Hm. vm_compute in Hm. injection Hm as <-. reflexivity.
  - vm_compute. lia.
  - exists t. split; [exact Hrun|exact H].
Defined.

Lemma member_sync_loses_no_member_witness :
  exists w1,
    sync_member_table example_int example_config 3 example_remote (VInt 1)
      (world_of duplicate_store) = Some (Ok tt, w1) /\
    (1 <= length (members_with (VInt 7) (members (durable w1))))%nat.
Proof.
  assert (Hrun : exists w1,
    sync_member_table example_int example_config 3 example_remote (VInt 1)
      (world_of duplicate_store) = Some (Ok tt, w1))
    by (eexists; vm_compute; reflexivity).
  destruct Hrun as (w1 & Hrun). exists w1. split; [exact Hrun|].
  apply (member_sync_loses_no_member example_int example_config 3
           example_remote (VInt 1) (world_of duplicate_store) (Ok tt) w1
           (VInt 7) Hrun).
  vm_compute. lia.
Defined.
